(** * go-nmea: coordinates, enumerated values and sentence parsers

    A shallow embedding of the NMEA 0183 sentence package: the coordinate
    model ([ParseDM], [LatLong.ToDM], [LatLong.DM], [LatLong.DMS], ...), the
    enumerated values ([ParseQualityIndicator], [ParseFixStatus],
    [ParseMode], [ParseCardinalPoint] and their [String] methods), the
    [parse] methods of the sentence types DBT, GLL, GGA, RMC, GSA, TXT, VTG
    and ZDA, the [Serialize] methods of DBT, GLL, GGA, TXT, VTG and ZDA, and
    [GPTXT.Env] and [GPTXT.AntennaStatus].

    Conventions of the embedding.
    - A Go [string] is a sequence of bytes: [string] of [ascii].
    - [int], [int64], [uint64], [uint8] are [Z], with the wrap-around or
      the range check written where the source has one.
    - A [float64] is a finite number, NaN, or an infinity ([float64]
      below).  On finite numbers the arithmetic is that of the rationals:
      the rounding of IEEE doubles, overflow, underflow and the sign of
      zero are outside the model.  On NaN and the infinities it follows
      IEEE 754.
    - A function of the standard library returns the pair [(v, err)], as in
      Go; [checked] turns it into a [res] where the caller returns on
      [err != nil].  The functions and methods of the package that return
      an error return a [res]: the state a failed [parse] leaves behind is
      not kept.
    - An index out of range panics in Go: [Panic] in [res]. *)

From Stdlib Require Import ZArith QArith Qround Qabs Lqa String Ascii List Bool Lia Permutation.
Import ListNotations.

Local Open Scope list_scope.
Local Open Scope string_scope.
Local Open Scope Z_scope.

(** ** float64 *)

(** The values of a [float64]: the finite numbers, NaN, and the two
    infinities ([Inf true] is the negative one). *)
Inductive float64 :=
| Finite (q : Q)
| NaN
| Inf (negative : bool).

Coercion Finite : Q >-> float64.

(** ** Errors and results *)

(** [strconv.NumError.Err]: [ErrSyntax] or [ErrRange]. *)
Inductive NumErrKind := ErrSyntax | ErrRange.

(** The errors the package builds with [fmt.Errorf], one constructor per
    message, and the errors of [strconv] and [time] it passes on. *)
Inductive error :=
| NumError (fn num : string) (kind : NumErrKind)
    (* strconv: parsing "num": invalid syntax / value out of range *)
| TimeParseError (layout value : string)
    (* time.ParseError *)
| UnknowValue
    (* "unknow value" *)
| UnknowValueGot (got : string)
    (* "unknow value (got: %d)", "unknow value (got: %s)" *)
| EmptyLatLong
    (* "Invalid LatLong, can't be empty" *)
| WrongDMFormat (raw : string)
    (* "nmea.ParseDM() Wrong DM format, got: \"%s\"" *)
| InvalidRange (dm : float64)
    (* "nmea.ParseDM() invalid range (got: %f)" *)
| WrongDirection (dir : string)
    (* "nmea.ParseDM() Wrong direction (got: %s)" *)
| Incomplete (sentence : string) (got want : nat)
    (* "Incomplete GPxxx message, not enougth data fields (got: %d, wanted: %d)" *)
| InvalidFixedField (position : nat) (got want : string)
    (* "Invalid fixed field at %d (got: %s, wanted: %s)" *)
| UnableToParse (what got : string)
    (* "Unable to parse <what> from data field (got: %s)" *)
| WrongMagneticVariationDirection (got : string)
    (* "Wrong magnetic variation direction (got: %s)" *)
| MalformedFrame (line : string)
    (* the frame parser: no marker, no single delimiter, no two hex digits *)
| Decorated (typeID : string) (fields : list string) (cause : error).
    (* what Message.Error returns, see [Message_Error] *)

Inductive res (A : Type) : Type :=
| Ok (a : A)
| Err (e : error)
| Panic (why : string).
Arguments Ok {A} a.
Arguments Err {A} e.
Arguments Panic {A} why.

Definition bind {A B : Type} (r : res A) (k : A -> res B) : res B :=
  match r with
  | Ok a => k a
  | Err e => Err e
  | Panic w => Panic w
  end.

(** [onErr r f]: the [if ..., err = ...; err != nil { return f(err) }] idiom. *)
Definition onErr {A : Type} (r : res A) (f : error -> error) : res A :=
  match r with
  | Ok a => Ok a
  | Err e => Err (f e)
  | Panic w => Panic w
  end.

Declare Scope res_scope.
Delimit Scope res_scope with res.
Notation "x <- r ;; k" := (bind r (fun x => k))
  (at level 61, r at next level, right associativity) : res_scope.
Local Open Scope res_scope.

Definition isOk {A : Type} (r : res A) : bool :=
  match r with Ok _ => true | _ => false end.

Definition isErr {A : Type} (r : res A) : bool :=
  match r with Err _ => true | _ => false end.

(** ** Bytes and strings *)

Definition byte_val (c : ascii) : Z := Z.of_N (N_of_ascii c).

Definition byte_of (z : Z) : ascii := ascii_of_N (Z.to_N (z mod 256)).

(** [len(s)] *)
Definition len (s : string) : Z := Z.of_nat (String.length s).

(** [s[:n]], for [0 <= n <= len(s)] *)
Definition slice_to (s : string) (n : Z) : string :=
  substring 0 (Z.to_nat n) s.

(** [s[i]]: the byte at [i], a panic when [i] is out of range. *)
Definition byte_at (s : string) (i : Z) : res ascii :=
  if i <? 0 then Panic "index out of range"
  else match String.get (Z.to_nat i) s with
       | Some c => Ok c
       | None => Panic "index out of range"
       end.

(** [string(b)] for a byte [b]: the UTF-8 encoding of the code point [b]. *)
Definition string_of_byte (c : ascii) : string :=
  let v := byte_val c in
  if v <? 128 then String c EmptyString
  else String (byte_of (192 + v / 64)) (String (byte_of (128 + v mod 64)) EmptyString).

(** The bytes ['0'] to ['9']. *)
Definition is_digit (c : ascii) : bool :=
  (48 <=? byte_val c) && (byte_val c <=? 57).

Fixpoint all_digits (s : string) : bool :=
  match s with
  | EmptyString => true
  | String c rest => is_digit c && all_digits rest
  end.

(** [fields[i]], a panic when [i] is out of range. *)
Definition index (fields : list string) (i : nat) : res string :=
  match nth_error fields i with
  | Some f => Ok f
  | None => Panic "index out of range"
  end.

(** [fields[lo:hi]], for [lo <= hi <= len(fields)] *)
Definition slice (fields : list string) (lo hi : nat) : list string :=
  firstn (hi - lo) (skipn lo fields).

Module strings.

(** [strings.Join(elems, sep)] *)
Fixpoint Join (elems : list string) (sep : string) : string :=
  match elems with
  | [] => ""
  | x :: rest =>
      match rest with
      | [] => x
      | _ :: _ => x ++ sep ++ Join rest sep
      end
  end.

Fixpoint contains_byte (cutset : string) (c : ascii) : bool :=
  match cutset with
  | EmptyString => false
  | String k rest => Ascii.eqb k c || contains_byte rest c
  end.

Fixpoint TrimLeft (s cutset : string) : string :=
  match s with
  | EmptyString => EmptyString
  | String c rest => if contains_byte cutset c then TrimLeft rest cutset else s
  end.

Fixpoint TrimRight (s cutset : string) : string :=
  match s with
  | EmptyString => EmptyString
  | String c rest =>
      match TrimRight rest cutset with
      | EmptyString => if contains_byte cutset c then EmptyString else String c EmptyString
      | r => String c r
      end
  end.

(** [strings.Trim(s, cutset)], for a cutset of ASCII bytes (the package
    only trims the cutset "0"). *)
Definition Trim (s cutset : string) : string :=
  TrimRight (TrimLeft s cutset) cutset.

(** [s] cut at the first byte [sep]: what precedes it and what follows. *)
Fixpoint cut_at (s : string) (sep : ascii) : option (string * string) :=
  match s with
  | EmptyString => None
  | String c rest =>
      if Ascii.eqb c sep then Some (EmptyString, rest)
      else match cut_at rest sep with
           | Some (before, after) => Some (String c before, after)
           | None => None
           end
  end.

(** [strings.SplitN(s, sep, 2)] for a one-byte separator: [s] cut at the
    first [sep], or [s] alone when it holds none. *)
Definition SplitN2 (s : string) (sep : ascii) : list string :=
  match cut_at s sep with
  | Some (before, after) => [before; after]
  | None => [s]
  end.

End strings.

(** ** strconv on base-10 integers *)

Module strconv.

Definition maxUint64 : Z := 2 ^ 64 - 1.

Definition IntSize : Z := 64.

(** The loop of [ParseUint] in base 10: a byte that is no digit is a
    syntax error with value 0; an overflow is a range error with value
    [maxVal], reported at the digit where it happens. *)
Fixpoint uint_loop (s : string) (n cutoff maxVal : Z) : Z * option NumErrKind :=
  match s with
  | EmptyString => (n, None)
  | String c rest =>
      let v := byte_val c in
      if (48 <=? v) && (v <=? 57) then
        let d := v - 48 in
        if n >=? cutoff then (maxVal, Some ErrRange)
        else
          let n := n * 10 in
          let n1 := (n + d) mod 2 ^ 64 in
          if (n1 <? n) || (n1 >? maxVal) then (maxVal, Some ErrRange)
          else uint_loop rest n1 cutoff maxVal
      else (0, Some ErrSyntax)
  end.

Definition numError (fn num : string) (r : Z * option NumErrKind) : Z * option error :=
  (fst r, option_map (NumError fn num) (snd r)).

(** [strconv.ParseUint(s, 10, bitSize)], the error by its kind *)
Definition parseUint10 (s : string) (bitSize : Z) : Z * option NumErrKind :=
  if (s =? "")%string then (0, Some ErrSyntax)
  else
    let bitSize := if bitSize =? 0 then IntSize else bitSize in
    uint_loop s 0 (maxUint64 / 10 + 1) (2 ^ bitSize - 1).

(** [strconv.ParseUint(s, 10, bitSize)] *)
Definition ParseUint10 (s : string) (bitSize : Z) : Z * option error :=
  numError "ParseUint" s (parseUint10 s bitSize).

(** [strconv.ParseInt(s, 10, bitSize)] *)
Definition ParseInt10 (s : string) (bitSize : Z) : Z * option error :=
  match s with
  | EmptyString => (0, Some (NumError "ParseInt" s ErrSyntax))
  | String c rest =>
      let neg := Ascii.eqb c "-" in
      let body := if Ascii.eqb c "+" || neg then rest else s in
      match parseUint10 body bitSize with
      | (_, Some ErrSyntax) => (0, Some (NumError "ParseInt" s ErrSyntax))
      | (un, _) =>
          let bitSize := if bitSize =? 0 then IntSize else bitSize in
          let cutoff := 2 ^ (bitSize - 1) in
          if negb neg && (un >=? cutoff) then (cutoff - 1, Some (NumError "ParseInt" s ErrRange))
          else if neg && (un >? cutoff) then (- cutoff, Some (NumError "ParseInt" s ErrRange))
          else (if neg then - un else un, None)
      end
  end.

(** The fast path of [Atoi]: digits only, no overflow possible. *)
Fixpoint atoi_loop (s : string) (n : Z) : option Z :=
  match s with
  | EmptyString => Some n
  | String c rest =>
      let ch := (byte_val c - 48) mod 256 in
      if ch >? 9 then None else atoi_loop rest (n * 10 + ch)
  end.

(** [strconv.Atoi(s)] on a 64-bit platform. *)
Definition Atoi (s : string) : Z * option error :=
  let sLen := len s in
  if (0 <? sLen) && (sLen <? 19) then
    match s with
    | EmptyString => (0, Some (NumError "Atoi" s ErrSyntax))
    | String c rest =>
        let signed := Ascii.eqb c "-" || Ascii.eqb c "+" in
        let body := if signed then rest else s in
        if signed && (len body <? 1) then (0, Some (NumError "Atoi" s ErrSyntax))
        else
          match atoi_loop body 0 with
          | None => (0, Some (NumError "Atoi" s ErrSyntax))
          | Some n => (if Ascii.eqb c "-" then - n else n, None)
          end
    end
  else
    match ParseInt10 s 0 with
    | (i64, Some (NumError _ num kind)) => (i64, Some (NumError "Atoi" num kind))
    | r => r
    end.

(** Decimal digits of a non-negative integer, most significant first;
    [fuel] bounds the number of digits. *)
Fixpoint digits (fuel : nat) (n : Z) (acc : string) : string :=
  match fuel with
  | O => acc
  | S fuel' =>
      let acc' := String (byte_of (48 + n mod 10)) acc in
      if n <? 10 then acc' else digits fuel' (n / 10) acc'
  end.

Definition utoa (n : Z) : string :=
  digits (S (Z.to_nat (Z.log2 n))) n "".

(** [strconv.Itoa(i)] *)
Definition Itoa (i : Z) : string :=
  if i <? 0 then "-" ++ utoa (- i) else utoa i.

End strconv.

(** ** Arithmetic on float64, math and fmt *)

(** [x < y], [x > y], [x >= y], [x == y] on finite numbers *)
Definition flt (x y : Q) : bool := negb (Qle_bool y x).
Definition fgt (x y : Q) : bool := negb (Qle_bool x y).
Definition fge (x y : Q) : bool := Qle_bool y x.
Definition feq (x y : Q) : bool := Qeq_bool x y.

(** The operators of Go on [float64].  A comparison with NaN is false; an
    operation on NaN gives NaN, and so do [Inf - Inf], [Inf * 0] and
    [Inf / Inf]. *)
Module f64.

(** [x + y] *)
Definition add (x y : float64) : float64 :=
  match x, y with
  | Finite a, Finite b => Finite (a + b)
  | NaN, _ => NaN
  | _, NaN => NaN
  | Inf s, Inf s' => if Bool.eqb s s' then Inf s else NaN
  | Inf s, Finite _ => Inf s
  | Finite _, Inf s => Inf s
  end.

(** [x - y] *)
Definition sub (x y : float64) : float64 :=
  match x, y with
  | Finite a, Finite b => Finite (a - b)
  | NaN, _ => NaN
  | _, NaN => NaN
  | Inf s, Inf s' => if Bool.eqb s s' then NaN else Inf s
  | Inf s, Finite _ => Inf s
  | Finite _, Inf s => Inf (negb s)
  end.

(** [x * y] *)
Definition mul (x y : float64) : float64 :=
  match x, y with
  | Finite a, Finite b => Finite (a * b)
  | NaN, _ => NaN
  | _, NaN => NaN
  | Inf s, Inf s' => Inf (xorb s s')
  | Inf s, Finite b => if feq b 0 then NaN else Inf (xorb s (flt b 0))
  | Finite a, Inf s => if feq a 0 then NaN else Inf (xorb (flt a 0) s)
  end.

(** [x / y]; a finite number other than 0 divided by 0 is an infinity with
    the sign of the number (the zero has no sign here), and [0 / 0] is NaN *)
Definition div (x y : float64) : float64 :=
  match x, y with
  | Finite a, Finite b =>
      if feq b 0 then (if feq a 0 then NaN else Inf (flt a 0))
      else Finite (a / b)
  | NaN, _ => NaN
  | _, NaN => NaN
  | Inf _, Inf _ => NaN
  | Inf s, Finite b => Inf (xorb s (flt b 0))
  | Finite _, Inf _ => Finite 0
  end.

(** [x < y] *)
Definition lt (x y : float64) : bool :=
  match x, y with
  | Finite a, Finite b => flt a b
  | NaN, _ => false
  | _, NaN => false
  | Inf s, Inf s' => s && negb s'
  | Inf s, Finite _ => s
  | Finite _, Inf s => negb s
  end.

(** [x > y] *)
Definition gt (x y : float64) : bool :=
  match x, y with
  | Finite a, Finite b => fgt a b
  | NaN, _ => false
  | _, NaN => false
  | Inf s, Inf s' => negb s && s'
  | Inf s, Finite _ => negb s
  | Finite _, Inf s => s
  end.

(** [x >= y] *)
Definition ge (x y : float64) : bool :=
  match x, y with
  | Finite a, Finite b => fge a b
  | NaN, _ => false
  | _, NaN => false
  | Inf s, Inf s' => negb s || s'
  | Inf s, Finite _ => negb s
  | Finite _, Inf s => s
  end.

(** [x == y] *)
Definition eq (x y : float64) : bool :=
  match x, y with
  | Finite a, Finite b => feq a b
  | Inf s, Inf s' => Bool.eqb s s'
  | _, _ => false
  end.

End f64.

Module math.

Definition Floor (x : float64) : float64 :=
  match x with
  | Finite q => Finite (inject_Z (Qfloor q))
  | _ => x
  end.

Definition Ceil (x : float64) : float64 :=
  match x with
  | Finite q => Finite (inject_Z (Qceiling q))
  | _ => x
  end.

Definition Abs (x : float64) : float64 :=
  match x with
  | Finite q => Finite (Qabs q)
  | NaN => NaN
  | Inf _ => Inf false
  end.

End math.

(** [int(x)] for a [float64] [x]: truncation toward zero (for [x] within
    the range of [int]).  For NaN and the infinities the result depends on
    the implementation; it is the one of amd64, the least [int]. *)
Definition int_of_float (x : float64) : Z :=
  match x with
  | Finite q => Z.quot (Qnum q) (Zpos (Qden q))
  | _ => - 2 ^ 63
  end.

(** [float64(i)] for an [int] [i] *)
Definition float_of_int (i : Z) : float64 := Finite (inject_Z i).

Module fmt.

Fixpoint zeros (n : nat) : string :=
  match n with
  | O => ""
  | S n' => String "0" (zeros n')
  end.

(** Padding with zeros to [width], the zeros after the sign (flag [0]). *)
Definition zero_pad (width : Z) (neg : bool) (body : string) : string :=
  let sign := if neg then "-" else "" in
  sign ++ zeros (Z.to_nat (width - len sign - len body)) ++ body.

(** [Sprintf("%0<width>d", i)] *)
Definition Sprintf_0d (width : Z) (i : Z) : string :=
  zero_pad width (i <? 0) (strconv.utoa (Z.abs i)).

(** [Sprintf("%d", i)] *)
Definition Sprintf_d (i : Z) : string := Sprintf_0d 0 i.

(** The nearest integer, ties to even, of [x >= 0]. *)
Definition round_half_even (x : Q) : Z :=
  let n := Qnum x in
  let d := Zpos (Qden x) in
  let q := n / d in
  let r := n mod d in
  match 2 * r ?= d with
  | Lt => q
  | Gt => q + 1
  | Eq => if Z.even q then q else q + 1
  end.

Fixpoint spaces (n : nat) : string :=
  match n with
  | O => ""
  | S n' => String " " (spaces n')
  end.

(** Padding with spaces to [width], on the left. *)
Definition space_pad (width : Z) (body : string) : string :=
  spaces (Z.to_nat (width - len body)) ++ body.

(** [Sprintf("%0<width>.<prec>f", x)]: a finite number in fixed-point
    notation, padded with zeros; NaN and the infinities as [NaN], [+Inf]
    and [-Inf], which are padded with spaces. *)
Definition Sprintf_0f (width prec : Z) (x : float64) : string :=
  match x with
  | Finite q =>
      let scale := 10 ^ prec in
      let n := round_half_even (Qabs q * inject_Z scale)%Q in
      let frac := if prec <=? 0 then ""
                  else "." ++ zero_pad prec false (strconv.utoa (n mod scale)) in
      zero_pad width (flt q 0) (strconv.utoa (n / scale) ++ frac)
  | NaN => space_pad width "NaN"
  | Inf negative => space_pad width (if negative then "-Inf" else "+Inf")
  end.

(** [Sprintf("%.<prec>f", x)] *)
Definition Sprintf_f (prec : Z) (x : float64) : string := Sprintf_0f 0 prec x.

End fmt.

(** ** time.Time, as far as the sentences use it *)

Record Time := mkTime {
  year : Z; month : Z; day : Z;
  hour : Z; minute : Z; second : Z; millisecond : Z
}.

(** The zero [time.Time]: January 1, year 1, 00:00:00 UTC. *)
Definition zeroTime : Time := mkTime 1 1 1 0 0 0 0.

(** ** Message *)

(** Modelled from the spec: the Frame ([Message] in the package, declared
    in a file that is not among the embedded ones): a type identifier, the
    ordered raw fields, and the two hex digits of the checksum. *)
Record Message := mkMessage {
  Type_ : string;
  Fields : list string;
  Checksum : string
}.

(** ** What the sentence parsers take from the Go standard library

    The parsers are written against these operations; the theorems hold
    whatever they compute.  [goRuntime] below gives them on the inputs the
    examples use. *)
Class GoRuntime := {
  (** [strings.TrimSpace] *)
  TrimSpace : string -> string;
  (** [strconv.ParseFloat(s, 64)] *)
  ParseFloat : string -> float64 * option error;
  (** [strconv.ParseUint(s, 0, bitSize)]: the base is read from the prefix *)
  ParseUint0 : string -> Z -> Z * option error;
  (** [time.Parse(layout, value)] *)
  time_Parse : string -> string -> Time * option error;
  (** [t.Format(layout)] *)
  time_Format : Time -> string -> string;
  (** The order in which [range] visits the entries of a map literal: some
      permutation of them. *)
  range_order : list (nat * string) -> list (nat * string);
  range_order_perm : forall kv, Permutation (range_order kv) kv
}.

(** [strconv.ParseUint(s, base, bitSize)] for the bases the package uses *)
Definition ParseUint `{GoRuntime} (s : string) (base bitSize : Z) : Z * option error :=
  if base =? 10 then strconv.ParseUint10 s bitSize else ParseUint0 s bitSize.

(** [(v, err)] as a result, for the callers that return on [err != nil]. *)
Definition checked {A : Type} (r : A * option error) : res A :=
  match snd r with
  | None => Ok (fst r)
  | Some e => Err e
  end.

(** ** What the sentence parsers take from the rest of the package *)

(** [type PositioningMode string]; [GPVTG.Serialize] converts it back with
    [string(m.PositioningMode)]. *)
Definition PositioningMode := string.

(** [type DataValid bool]: the parsers assign it a comparison,
    [m.IsValid = (m.Fields[5] == "A")]. *)
Definition DataValid := bool.

(** Modelled from the spec: the declarations of the package that the
    embedded files use and do not contain.  [Message.Error] decorates an
    error with the message it came from; [ParsePositioningMode] and
    [ParseSeverity] are the parse functions of two enumerated values;
    [Severity_Serialize] and [PrependXZero] render a severity and a
    zero-padded number. *)
Class Package := {
  Message_Error : Message -> error -> error;
  ParsePositioningMode : string -> PositioningMode * option error;
  Severity : Type;
  Severity_zero : Severity;
  ParseSeverity : string -> Severity * option error;
  Severity_Serialize : Severity -> string;
  PrependXZero : float64 -> string -> Z -> string
}.

(** Modelled from the spec: [DataValid.Serialize], the wire tokens [A]
    (valid) and [V] (invalid). *)
Definition DataValid_Serialize (v : DataValid) : string :=
  if v then "A" else "V".

(** Modelled from the spec: the table [TypeIDs], from the name of a
    sentence to its type identifier, the name itself. *)
Definition TypeIDs (name : string) : string := name.

(** Modelled from the spec: the span between the marker and the
    delimiter, the type identifier and the fields joined by the
    separator. *)
Definition content (m : Message) : string :=
  strings.Join (Type_ m :: Fields m) ",".

(** The running exclusive-or of the bytes of [s]. *)
Fixpoint xor_bytes (s : string) (acc : Z) : Z :=
  match s with
  | EmptyString => acc
  | String c rest => xor_bytes rest (Z.lxor acc (byte_val c))
  end.

(** An uppercase hex digit. *)
Definition hex_digit (n : Z) : ascii :=
  if n <? 10 then byte_of (48 + n) else byte_of (55 + n).

(** Modelled from the spec: [Message.ComputeChecksum], the running
    exclusive-or of every byte between the marker and the delimiter,
    rendered as two uppercase hex digits. *)
Definition Message_ComputeChecksum (m : Message) : string :=
  let x := xor_bytes (content m) 0 in
  String (hex_digit (x / 16)) (String (hex_digit (x mod 16)) EmptyString).

(** Modelled from the spec: [Message.Serialize], the marker, the type
    identifier and the fields joined by the separator, the delimiter and
    the checksum. *)
Definition Message_Serialize (m : Message) : string :=
  "$" ++ content m ++ "*" ++ Checksum m.

(** ** Coordinates *)

(** [type CardinalPoint string] *)
Definition CardinalPoint := string.

Definition North : CardinalPoint := "N".
Definition South : CardinalPoint := "S".
Definition East : CardinalPoint := "E".
Definition West : CardinalPoint := "W".

Definition CardinalPoint_String (c : CardinalPoint) : string := c.

(** [ParseCardinalPoint]: the named results [(cp, err)]; [cp] is the raw
    token also when it is refused. *)
Definition ParseCardinalPoint (raw : string) : CardinalPoint * option error :=
  let cp : CardinalPoint := raw in
  if (cp =? North)%string || (cp =? South)%string
     || (cp =? East)%string || (cp =? West)%string
  then (cp, None)
  else (cp, Some UnknowValue).

Definition MaxLong : Q := 180.
Definition MaxLat : Q := 90.

Module LatLong.

(** [type LatLong float64] *)
Definition t := float64.

(** [LatLong.CardinalPoint] *)
Definition CardinalPoint (l : t) (isLatitude : bool) : CardinalPoint :=
  if f64.eq l 0%Q then ""
  else if f64.lt l 0%Q then (if isLatitude then South else West)
  else if isLatitude then North
  else East.

(** [LatLong.DM] *)
Definition DM (l : t) : Z * float64 :=
  if f64.ge l 0%Q then
    let d := math.Floor l in
    let m := f64.mul (f64.sub l d) 60%Q in
    (int_of_float d, m)
  else
    let d := math.Ceil l in
    let m := f64.mul (f64.sub (math.Abs l) (math.Abs d)) 60%Q in
    (int_of_float d, m).

(** [LatLong.DMS] *)
Definition DMS (l : t) : Z * Z * float64 :=
  let (d, m) := DM l in
  let m := math.Floor m in
  let s := if f64.ge l 0%Q
           then f64.mul (f64.mul
                  (f64.sub l (f64.add (float_of_int d) (f64.div m 60%Q))) 60%Q) 60%Q
           else f64.mul (f64.mul
                  (f64.add l (f64.add (math.Abs (float_of_int d)) (f64.div m 60%Q)))
                  60%Q) 60%Q in
  (d, int_of_float m, s).

(** [LatLong.ToDM] *)
Definition ToDM (l : t) : string :=
  if f64.eq l 0%Q then ""
  else
    let (d, m) := DM l in
    strings.Trim (fmt.Sprintf_0d 2 d ++ fmt.Sprintf_0f 9 6 m) "0".

End LatLong.

Section Coordinates.

Context {rt : GoRuntime}.

(** [ParseDM] *)
Definition ParseDM (raw : string) : res LatLong.t :=
  if len raw <? 2 then Err (WrongDMFormat raw)
  else
    dm <- checked (ParseFloat (TrimSpace (slice_to raw (len raw - 2)))) ;;
    last <- byte_at raw (len raw - 1) ;;
    dir <- checked (ParseCardinalPoint (string_of_byte last)) ;;
    let d := math.Floor (f64.div dm 100%Q) in
    let m := f64.sub dm (f64.mul d 100%Q) in
    let dm := f64.add d (f64.div m 60%Q) in
    let in_range :=
      if (dir =? North)%string || (dir =? South)%string then
        if f64.gt (math.Abs dm) MaxLat then Err (InvalidRange dm) else Ok tt
      else if (dir =? East)%string || (dir =? West)%string then
        if f64.gt (math.Abs dm) MaxLong then Err (InvalidRange dm) else Ok tt
      else Err (WrongDirection (CardinalPoint_String dir)) in
    _ <- in_range ;;
    if (dir =? North)%string || (dir =? East)%string then Ok dm
    else if (dir =? South)%string || (dir =? West)%string then Ok (f64.sub 0%Q dm)
    else Err (WrongDirection (CardinalPoint_String dir)).

(** [NewLatLong] *)
Definition NewLatLong (raw : string) : res LatLong.t :=
  if (TrimSpace raw =? "")%string then Err EmptyLatLong
  else ParseDM raw.

End Coordinates.

(** ** Enumerated values *)

(** [type QualityIndicator int] *)
Definition QualityIndicator := Z.

Definition InvalidIndicator : QualityIndicator := 0.
Definition GNSSS : QualityIndicator := 1.
Definition DGPS : QualityIndicator := 2.

Definition QualityIndicator_String (s : QualityIndicator) : string :=
  if s =? InvalidIndicator then "invalid"
  else if s =? GNSSS then "GNSS fix"
  else if s =? DGPS then "DGPS fix"
  else "unknow".

(** [ParseQualityIndicator]: the named results [(qi, err)].  When
    [strconv.ParseInt] fails [qi] is still 0; when the number is no member
    [qi] is that number and [err] is "unknow value". *)
Definition ParseQualityIndicator (raw : string) : QualityIndicator * option error :=
  match strconv.ParseInt10 raw 0 with
  | (_, Some e) => (0, Some e)
  | (i, None) =>
      let qi : QualityIndicator := i in
      if (qi =? InvalidIndicator) || (qi =? GNSSS) || (qi =? DGPS)
      then (qi, None)
      else (qi, Some UnknowValue)
  end.

(** [type FixStatus int]; 0 is passed over by the [iota] block. *)
Definition FixStatus := Z.

Definition FixStatusNoFix : FixStatus := 1.
Definition FixStatus2D : FixStatus := 2.
Definition FixStatus3D : FixStatus := 3.

Definition FixStatus_String (s : FixStatus) : string :=
  if s =? FixStatusNoFix then "No fix"
  else if s =? FixStatus2D then "2D fix"
  else if s =? FixStatus3D then "3D fix"
  else "unknow".

(** [ParseFixStatus] *)
Definition ParseFixStatus (raw : string) : FixStatus * option error :=
  match strconv.ParseInt10 raw 0 with
  | (_, Some e) => (0, Some e)
  | (i, None) =>
      let fs : FixStatus := i in
      if (fs =? FixStatusNoFix) || (fs =? FixStatus2D) || (fs =? FixStatus3D)
      then (fs, None)
      else (fs, Some (UnknowValueGot (fmt.Sprintf_d i)))
  end.

(** [type Mode string] *)
Definition Mode := string.

Definition ModeManual : Mode := "M".
Definition ModeAuto : Mode := "A".

Definition Mode_String (m : Mode) : string := m.

(** [ParseMode] *)
Definition ParseMode (raw : string) : Mode * option error :=
  let m : Mode := raw in
  if (m =? ModeManual)%string || (m =? ModeAuto)%string
  then (m, None)
  else (m, Some (UnknowValueGot m)).

(** ** The steps shared by the [parse] methods *)

(** [r], or on an error what [h] returns: the handler may itself read a
    field, and panic. *)
Definition orElse {A : Type} (r : res A) (h : error -> res error) : res A :=
  match r with
  | Ok a => Ok a
  | Err e => match h e with
             | Ok e' => Err e'
             | Err e' => Err e'
             | Panic w => Panic w
             end
  | Panic w => Panic w
  end.

(** The body of [for i, v := range map[int]string{...}]: the entries in
    the order [range] yields them, the first violation returned. *)
Fixpoint check_fixed (fields : list string) (wrap : error -> error)
    (entries : list (nat * string)) : res unit :=
  match entries with
  | [] => Ok tt
  | (i, v) :: rest =>
      f <- index fields i ;;
      if negb (f =? v)%string
      then Err (wrap (InvalidFixedField (i + 1) f v))
      else check_fixed fields wrap rest
  end.

Section Steps.

Context {rt : GoRuntime}.

Definition validate_fixed (fields : list string) (wrap : error -> error)
    (literals : list (nat * string)) : res unit :=
  check_fixed fields wrap (range_order literals).

(** [if s := strings.TrimSpace(strings.Join(pair, " ")); len(s) > 0 {
       if m.X, err = NewLatLong(s); err != nil { return m.Error(err) } }] *)
Definition parse_coordinate (pair : list string) (wrap : error -> error)
    (current : LatLong.t) : res LatLong.t :=
  let s := TrimSpace (strings.Join pair " ") in
  if len s >? 0 then onErr (NewLatLong s) wrap else Ok current.

(** [if len(f) > 0 { if m.X, err = strconv.ParseFloat(f, 64); err != nil
       { return m.Error(err) } }] *)
Definition parse_float_if_present (f : string) (wrap : error -> error)
    (current : float64) : res float64 :=
  if len f >? 0 then onErr (checked (ParseFloat f)) wrap else Ok current.

End Steps.

(** [a[i] = v] on an array: a panic when [i] is out of range. *)
Fixpoint array_set (a : list Z) (i : nat) (v : Z) : res (list Z) :=
  match a, i with
  | [], _ => Panic "index out of range"
  | _ :: rest, O => Ok (v :: rest)
  | x :: rest, S i' => rest' <- array_set rest i' v ;; Ok (x :: rest')
  end.

(** ** DBT, depth below transducer *)

Module GPDBT.

Record t := mk {
  message : Message;
  DepthInFeet : float64;
  DepthInMeters : float64;
  DepthInFathoms : float64
}.

Definition NewGPDBT (m : Message) : t := mk m 0%Q 0%Q 0%Q.

Section Methods.

Context {rt : GoRuntime} {pkg : Package}.

Definition parse (m : t) : res t :=
  let msg := message m in
  let fields := Fields msg in
  if negb (length fields =? 6)%nat
  then Err (Message_Error msg (Incomplete "GPDBT" (length fields) 6))
  else
    _ <- validate_fixed fields (Message_Error msg)
           [(1%nat, "f"); (3%nat, "M"); (5%nat, "F")] ;;
    f0 <- index fields 0 ;;
    feet <- orElse (checked (ParseFloat f0))
              (fun _ => got <- index fields 0 ;;
                        Ok (Message_Error msg (UnableToParse "depth in feet" got))) ;;
    f2 <- index fields 2 ;;
    meters <- orElse (checked (ParseFloat f2))
                (fun _ => got <- index fields 4 ;;
                          Ok (Message_Error msg (UnableToParse "depth in meters" got))) ;;
    f4 <- index fields 4 ;;
    fathoms <- orElse (checked (ParseFloat f4))
                 (fun _ => got <- index fields 6 ;;
                           Ok (Message_Error msg (UnableToParse "depth in fathoms" got))) ;;
    Ok (mk msg feet meters fathoms).

(** The [fields] that [Serialize] hands to [Message.Serialize]. *)
Definition serialized_fields (m : t) : list string :=
  [ fmt.Sprintf_0f 3 1 (DepthInFeet m); "f";
    fmt.Sprintf_0f 3 1 (DepthInMeters m); "M";
    fmt.Sprintf_0f 3 1 (DepthInFathoms m); "F" ].

Definition Serialize (m : t) : string :=
  let hdr := TypeIDs "GPDBT" in
  let msg := mkMessage hdr (serialized_fields m) "" in
  let msg := mkMessage (Type_ msg) (Fields msg) (Message_ComputeChecksum msg) in
  Message_Serialize msg.

End Methods.

End GPDBT.

(** ** GLL, geographic position *)

Module GPGLL.

Record t := mk {
  message : Message;
  TimeUTC : Time;
  Latitude : LatLong.t;
  Longitude : LatLong.t;
  IsValid : DataValid;
  PositioningMode : PositioningMode
}.

Definition NewGPGLL (m : Message) : t := mk m zeroTime 0%Q 0%Q false "".

Section Methods.

Context {rt : GoRuntime} {pkg : Package}.

Definition parse (m : t) : res t :=
  let msg := message m in
  let fields := Fields msg in
  if negb (length fields =? 7)%nat
  then Err (Message_Error msg (Incomplete "GPGLL" (length fields) 7))
  else
    latitude <- parse_coordinate (slice fields 0 2) (Message_Error msg) (Latitude m) ;;
    longitude <- parse_coordinate (slice fields 2 4) (Message_Error msg) (Longitude m) ;;
    f4 <- index fields 4 ;;
    timeUTC <- onErr (checked (time_Parse "150405.000" f4))
                 (fun _ => Message_Error msg (UnableToParse "time UTC" f4)) ;;
    f5 <- index fields 5 ;;
    let isValid : DataValid := (f5 =? "A")%string in
    f6 <- index fields 6 ;;
    mode <- onErr (checked (ParsePositioningMode f6))
              (fun _ => Message_Error msg (UnableToParse "GPS positioning mode" f6)) ;;
    Ok (mk msg timeUTC latitude longitude isValid mode).

(** The [fields] that [Serialize] hands to [Message.Serialize]. *)
Definition serialized_fields (m : t) : list string :=
  [ time_Format (TimeUTC m) "150405.000";
    strings.Trim (LatLong.ToDM (Latitude m)) "0";
    CardinalPoint_String (LatLong.CardinalPoint (Latitude m) true);
    strings.Trim (LatLong.ToDM (Longitude m)) "0";
    CardinalPoint_String (LatLong.CardinalPoint (Longitude m) false);
    DataValid_Serialize (IsValid m) ].

Definition Serialize (m : t) : string :=
  let hdr := TypeIDs "GPGLL" in
  let msg := mkMessage hdr (serialized_fields m) "" in
  let msg := mkMessage (Type_ msg) (Fields msg) (Message_ComputeChecksum msg) in
  Message_Serialize msg.

End Methods.

End GPGLL.

(** ** GGA, fix data *)

(** [int(u)] for a [uint64] [u]: the same 64 bits read as signed. *)
Definition int_of_uint64 (u : Z) : Z :=
  if u >=? 2 ^ 63 then u - 2 ^ 64 else u.

Module GPGGA.

Record t := mk {
  message : Message;
  TimeUTC : Time;
  Latitude : LatLong.t;
  Longitude : LatLong.t;
  QualityIndicator : QualityIndicator;
  NbOfSatellitesUsed : Z;
  HDOP : float64;
  Altitude : float64;
  GeoIDSep : option float64;
  DGPSAge : option float64;
  DGPSStationID : option Z
}.

Definition NewGPGGA (m : Message) : t :=
  mk m zeroTime 0%Q 0%Q 0 0 0%Q 0%Q None None None.

Section Methods.

Context {rt : GoRuntime} {pkg : Package}.

(** [if f := m.Fields[i]; len(f) > 0 { v, err := parse(f); if err != nil
       { return m.Error(err) }; m.X = &v }] *)
Definition parse_optional {A : Type} (f : string) (p : string -> res A)
    (wrap : error -> error) (current : option A) : res (option A) :=
  if len f >? 0 then v <- onErr (p f) wrap ;; Ok (Some v) else Ok current.

Definition parse (m : t) : res t :=
  let msg := message m in
  let fields := Fields msg in
  if negb (length fields =? 14)%nat
  then Err (Incomplete "GPGGA" (length fields) 14)
  else
    _ <- validate_fixed fields (fun e => e) [(9%nat, "M"); (11%nat, "M")] ;;
    f0 <- index fields 0 ;;
    timeUTC <- onErr (checked (time_Parse "150405.000" f0))
                 (fun _ => Message_Error msg (UnableToParse "time UTC" f0)) ;;
    latitude <- parse_coordinate (slice fields 1 3) (Message_Error msg) (Latitude m) ;;
    longitude <- parse_coordinate (slice fields 3 5) (Message_Error msg) (Longitude m) ;;
    f5 <- index fields 5 ;;
    quality <- onErr (checked (ParseQualityIndicator f5)) (Message_Error msg) ;;
    f6 <- index fields 6 ;;
    satellites <- onErr (checked (ParseUint f6 10 0)) (Message_Error msg) ;;
    hdop <- index fields 7 ;;
    hdop <- parse_float_if_present hdop (Message_Error msg) (HDOP m) ;;
    altitude <- index fields 8 ;;
    altitude <- parse_float_if_present altitude (Message_Error msg) (Altitude m) ;;
    geoIDSep <- index fields 10 ;;
    geoIDSep <- parse_optional geoIDSep (fun s => checked (ParseFloat s))
                  (Message_Error msg) (GeoIDSep m) ;;
    dGPSAge <- index fields 12 ;;
    dGPSAge <- parse_optional dGPSAge (fun s => checked (ParseFloat s))
                 (Message_Error msg) (DGPSAge m) ;;
    dGPSStationID <- index fields 13 ;;
    dGPSStationID <- parse_optional dGPSStationID
                       (fun s => checked (ParseUint s 0 8))
                       (Message_Error msg) (DGPSStationID m) ;;
    Ok (mk msg timeUTC latitude longitude quality satellites hdop altitude
          geoIDSep dGPSAge dGPSStationID).

(** The [fields] that [Serialize] hands to [Message.Serialize]. *)
Definition serialized_fields (m : t) : list string :=
  [ time_Format (TimeUTC m) "150405.000";
    strings.Trim (LatLong.ToDM (Latitude m)) "0";
    CardinalPoint_String (LatLong.CardinalPoint (Latitude m) true);
    strings.Trim (LatLong.ToDM (Longitude m)) "0";
    CardinalPoint_String (LatLong.CardinalPoint (Longitude m) false);
    strconv.Itoa (QualityIndicator m);
    fmt.Sprintf_d (int_of_uint64 (NbOfSatellitesUsed m));
    (if f64.gt (HDOP m) 0%Q then fmt.Sprintf_0f 3 1 (HDOP m) else "");
    (if f64.gt (Altitude m) 0%Q then PrependXZero (Altitude m) "%03.1f" 4 else "");
    "M";
    match GeoIDSep m with
    | Some v => fmt.Sprintf_0f 3 1 v
    | None => ""
    end;
    "M";
    match DGPSAge m with
    | Some v => fmt.Sprintf_f 1 v
    | None => ""
    end;
    match DGPSStationID m with
    | Some v => fmt.Sprintf_0d 4 v
    | None => ""
    end ].

Definition Serialize (m : t) : string :=
  let hdr := TypeIDs "GPGGA" in
  let msg := mkMessage hdr (serialized_fields m) "" in
  let msg := mkMessage (Type_ msg) (Fields msg) (Message_ComputeChecksum msg) in
  Message_Serialize msg.

End Methods.

End GPGGA.

(** ** RMC, recommended minimum navigation information *)

Module GPRMC.

Record t := mk {
  message : Message;
  DateTimeUTC : Time;
  IsValid : DataValid;
  Latitude : LatLong.t;
  Longitude : LatLong.t;
  Speed : float64;
  COG : float64;
  MagneticVariation : float64;
  PositioningMode : PositioningMode
}.

Definition NewGPRMC (m : Message) : t :=
  mk m zeroTime false 0%Q 0%Q 0%Q 0%Q 0%Q "".

Section Methods.

Context {rt : GoRuntime} {pkg : Package}.

Definition magnetic_variation (msg : Message) (f9 f10 : string) (current : float64)
    : res float64 :=
  if len f9 >? 0 then
    v <- onErr (checked (ParseFloat f9))
           (fun _ => Message_Error msg (UnableToParse "magnetic variation" f9)) ;;
    if len f10 >? 0 then
      dir <- onErr (checked (ParseCardinalPoint f10))
               (fun _ => Message_Error msg
                           (UnableToParse "magnetic variation indicator" f10)) ;;
      if (dir =? West)%string then Ok (f64.sub 0%Q v)
      else if (dir =? East)%string then Ok v
      else Err (Message_Error msg (WrongMagneticVariationDirection f10))
    else Ok v
  else Ok current.

Definition parse (m : t) : res t :=
  let msg := message m in
  let fields := Fields msg in
  if negb (length fields =? 12)%nat
  then Err (Message_Error msg (Incomplete "GPRMC" (length fields) 12))
  else
    f8 <- index fields 8 ;;
    f0 <- index fields 0 ;;
    let datetime := f8 ++ " " ++ f0 in
    dateTimeUTC <- onErr (checked (time_Parse "020106 150405.000" datetime))
                     (fun _ => Message_Error msg (UnableToParse "datetime UTC" datetime)) ;;
    f1 <- index fields 1 ;;
    let isValid : DataValid := (f1 =? "A")%string in
    latitude <- parse_coordinate (slice fields 2 4) (Message_Error msg) (Latitude m) ;;
    longitude <- parse_coordinate (slice fields 4 6) (Message_Error msg) (Longitude m) ;;
    f6 <- index fields 6 ;;
    speed <- onErr (checked (ParseFloat f6))
               (fun _ => Message_Error msg (UnableToParse "speed" f6)) ;;
    f7 <- index fields 7 ;;
    cog <- onErr (checked (ParseFloat f7))
             (fun _ => Message_Error msg (UnableToParse "course over ground" f7)) ;;
    f9 <- index fields 9 ;;
    f10 <- index fields 10 ;;
    variation <- magnetic_variation msg f9 f10 (MagneticVariation m) ;;
    f11 <- index fields 11 ;;
    mode <- onErr (checked (ParsePositioningMode f11))
              (fun _ => Message_Error msg (UnableToParse "GPS positioning mode" f11)) ;;
    Ok (mk msg dateTimeUTC isValid latitude longitude speed cog variation mode).

End Methods.

End GPRMC.

(** ** GSA, DOP and active satellites *)

Module GPGSA.

Record t := mk {
  message : Message;
  Mode : Mode;
  FixStatus : FixStatus;
  SatelliteUsedOnChannel : list Z; (* [13]int, index 0 not used *)
  PDOP : float64;
  HDOP : float64;
  VDOP : float64
}.

Definition NewGPGSA (m : Message) : t :=
  mk m "" 0 (repeat 0 13) 0%Q 0%Q 0%Q.

(** [for k, v := range m.Fields[2:14] {
       m.SatelliteUsedOnChannel[k+1], _ = strconv.Atoi(v) }],
    from index [k] on. *)
Fixpoint satellites (vs : list string) (k : nat) (channels : list Z) : res (list Z) :=
  match vs with
  | [] => Ok channels
  | v :: rest =>
      channels' <- array_set channels (k + 1) (fst (strconv.Atoi v)) ;;
      satellites rest (S k) channels'
  end.

Section Methods.

Context {rt : GoRuntime} {pkg : Package}.

Definition parse (m : t) : res t :=
  let msg := message m in
  let fields := Fields msg in
  if negb (length fields =? 17)%nat
  then Err (Message_Error msg (Incomplete "GPGSA" (length fields) 17))
  else
    f0 <- index fields 0 ;;
    mode <- onErr (checked (ParseMode f0)) (Message_Error msg) ;;
    f1 <- index fields 1 ;;
    fixStatus <- onErr (checked (ParseFixStatus f1)) (Message_Error msg) ;;
    channels <- satellites (slice fields 2 14) 0 (SatelliteUsedOnChannel m) ;;
    pdop <- index fields 14 ;;
    hdop <- index fields 15 ;;
    vdop <- index fields 16 ;;
    pdop <- parse_float_if_present pdop (Message_Error msg) (PDOP m) ;;
    hdop <- parse_float_if_present hdop (Message_Error msg) (HDOP m) ;;
    vdop <- parse_float_if_present vdop (Message_Error msg) (VDOP m) ;;
    Ok (mk msg mode fixStatus channels pdop hdop vdop).

End Methods.

End GPGSA.

(** [v, exists := env[key]] on a [map[string]string] given by its entries. *)
Fixpoint map_get (env : list (string * string)) (key : string) : option string :=
  match env with
  | [] => None
  | (k, v) :: rest => if (k =? key)%string then Some v else map_get rest key
  end.

(** ** TXT, text transmission *)

Module GPTXT.

Section Methods.

Context {rt : GoRuntime} {pkg : Package}.

Record t := mk {
  message : Message;
  TotalNbMsgInTx : Z;
  MsgNumInTx : Z;
  Severity_ : Severity;
  TxtMsg : string
}.

Definition NewGPTXT (m : Message) : t := mk m 0 0 Severity_zero "".

Definition parse (m : t) : res t :=
  let msg := message m in
  let fields := Fields msg in
  if negb (length fields =? 4)%nat
  then Err (Message_Error msg (Incomplete "GPTXT" (length fields) 4))
  else
    f0 <- index fields 0 ;;
    total <- onErr (checked (strconv.Atoi f0))
               (fun _ => Message_Error msg
                  (UnableToParse "total number of messages in this transmission" f0)) ;;
    f1 <- index fields 1 ;;
    num <- onErr (checked (strconv.Atoi f1))
             (fun _ => Message_Error msg
                (UnableToParse "message number in this transmission" f1)) ;;
    f2 <- index fields 2 ;;
    severity <- onErr (checked (ParseSeverity f2))
                  (fun _ => Message_Error msg (UnableToParse "message severity" f2)) ;;
    Ok (mk msg total num severity (strings.Join (skipn 3 fields) " ")).

(** [if n < 10 { Sprintf("0%d", n) } else { Sprintf("%d", n) }] *)
Definition two_digit (n : Z) : string :=
  if n <? 10 then "0" ++ fmt.Sprintf_d n else fmt.Sprintf_d n.

(** The [fields] that [Serialize] hands to [Message.Serialize]. *)
Definition serialized_fields (m : t) : list string :=
  [ two_digit (TotalNbMsgInTx m);
    two_digit (MsgNumInTx m);
    Severity_Serialize (Severity_ m);
    TxtMsg m ].

Definition Serialize (m : t) : string :=
  let hdr := TypeIDs "GPTXT" in
  let msg := mkMessage hdr (serialized_fields m) "" in
  let msg := mkMessage (Type_ msg) (Fields msg) (Message_ComputeChecksum msg) in
  Message_Serialize msg.

(** [GPTXT.Env]: a map of one entry, or the nil map ([None]). *)
Definition Env (m : t) : option (list (string * string)) :=
  match strings.SplitN2 (TxtMsg m) "=" with
  | [key; value] => Some [(key, value)]
  | _ => None
  end.

(** [GPTXT.AntennaStatus]: a pointer to the status, or nil ([None]). *)
Definition AntennaStatus (m : t) : option string :=
  match Env m with
  | None => None
  | Some env => map_get env "ANTSTATUS"
  end.

End Methods.

End GPTXT.

(** ** VTG, track made good and ground speed *)

Module GPVTG.

Record t := mk {
  message : Message;
  COG : float64;
  SpeedKnots : float64;
  SpeedKmh : float64;
  PositioningMode : PositioningMode
}.

Definition NewGPVTG (m : Message) : t := mk m 0%Q 0%Q 0%Q "".

Section Methods.

Context {rt : GoRuntime} {pkg : Package}.

Definition parse (m : t) : res t :=
  let msg := message m in
  let fields := Fields msg in
  if negb (length fields =? 9)%nat
  then Err (Message_Error msg (Incomplete "GPVTG" (length fields) 9))
  else
    _ <- validate_fixed fields (Message_Error msg)
           [(1%nat, "T"); (3%nat, "M"); (5%nat, "N"); (7%nat, "K")] ;;
    f0 <- index fields 0 ;;
    cog <- onErr (checked (ParseFloat f0))
             (fun _ => Message_Error msg (UnableToParse "true course over ground" f0)) ;;
    f4 <- index fields 4 ;;
    knots <- onErr (checked (ParseFloat f4))
               (fun _ => Message_Error msg (UnableToParse "speed" f4)) ;;
    f6 <- index fields 6 ;;
    kmh <- onErr (checked (ParseFloat f6))
             (fun _ => Message_Error msg (UnableToParse "speed" f6)) ;;
    f8 <- index fields 8 ;;
    mode <- onErr (checked (ParsePositioningMode f8))
              (fun _ => Message_Error msg (UnableToParse "GPS positioning mode" f8)) ;;
    Ok (mk msg cog knots kmh mode).

(** The [fields] that [Serialize] hands to [Message.Serialize]. *)
Definition serialized_fields (m : t) : list string :=
  [ fmt.Sprintf_0f 3 1 (COG m); "T";
    ""; "M";
    fmt.Sprintf_0f 3 1 (SpeedKnots m); "N";
    fmt.Sprintf_0f 3 1 (SpeedKmh m); "K";
    PositioningMode m ].

Definition Serialize (m : t) : string :=
  let hdr := TypeIDs "GPVTG" in
  let msg := mkMessage hdr (serialized_fields m) "" in
  let msg := mkMessage (Type_ msg) (Fields msg) (Message_ComputeChecksum msg) in
  Message_Serialize msg.

End Methods.

End GPVTG.

(** ** ZDA, time and date *)

Module GPZDA.

Record t := mk {
  message : Message;
  DateTimeUTC : Time
}.

Definition NewGPZDA (m : Message) : t := mk m zeroTime.

Section Methods.

Context {rt : GoRuntime} {pkg : Package}.

Definition parse (m : t) : res t :=
  let msg := message m in
  let fields := Fields msg in
  if negb (length fields =? 7)%nat
  then Err (Message_Error msg (Incomplete "GPZDA" (length fields) 7))
  else
    f4 <- index fields 4 ;;
    f3 <- index fields 3 ;;
    f2 <- index fields 2 ;;
    f5 <- index fields 5 ;;
    let datetime := f4 ++ f3 ++ f2 ++ " " ++ f5 in
    dateTimeUTC <- onErr (checked (time_Parse "020106 150405.000" datetime))
                     (fun _ => Message_Error msg (UnableToParse "datetime UTC" datetime)) ;;
    Ok (mk msg dateTimeUTC).

(** The [fields] that [Serialize] hands to [Message.Serialize]. *)
Definition serialized_fields (m : t) : list string :=
  [ time_Format (DateTimeUTC m) "020106 150405.000" ].

Definition Serialize (m : t) : string :=
  let hdr := TypeIDs "GPZDA" in
  let msg := mkMessage hdr (serialized_fields m) "" in
  let msg := mkMessage (Type_ msg) (Fields msg) (Message_ComputeChecksum msg) in
  Message_Serialize msg.

End Methods.

End GPZDA.

(** ** The frame parser *)

(** [strings.Split(s, sep)] for a one-byte separator: empty tokens are kept. *)
Fixpoint split (s : string) (sep : ascii) : list string :=
  match s with
  | EmptyString => [EmptyString]
  | String c rest =>
      if Ascii.eqb c sep then EmptyString :: split rest sep
      else match split rest sep with
           | [] => [String c EmptyString]
           | tok :: toks => String c tok :: toks
           end
  end.

Definition is_hex (c : ascii) : bool :=
  let v := byte_val c in
  ((48 <=? v) && (v <=? 57)) || ((65 <=? v) && (v <=? 70)) || ((97 <=? v) && (v <=? 102)).

Definition upper (c : ascii) : ascii :=
  let v := byte_val c in
  if (97 <=? v) && (v <=? 122) then byte_of (v - 32) else c.

Fixpoint to_upper (s : string) : string :=
  match s with
  | EmptyString => EmptyString
  | String c rest => String (upper c) (to_upper rest)
  end.

(** Modelled from the spec: the frame parser's [decode].  The line starts
    with the marker and holds one delimiter; the span between them is split
    on the separator into the type identifier and the fields; two hex
    digits follow the delimiter.  The frame is returned together with the
    verdict of the checksum comparison (case-insensitive): a mismatch does
    not discard the frame. *)
Definition decode (line : string) : res (Message * bool) :=
  match line with
  | String "$" rest =>
      match split rest "*" with
      | [payload; String h1 (String h2 EmptyString)] =>
          if is_hex h1 && is_hex h2 then
            match split payload "," with
            | typeID :: fields =>
                let sum := String h1 (String h2 EmptyString) in
                let m := mkMessage typeID fields sum in
                Ok (m, (to_upper sum =? Message_ComputeChecksum m)%string)
            | [] => Err (MalformedFrame line)
            end
          else Err (MalformedFrame line)
      | _ => Err (MalformedFrame line)
      end
  | _ => Err (MalformedFrame line)
  end.

(** The trailing checksum of a wire string: what follows the last delimiter. *)
Definition trailing_checksum (wire : string) : string :=
  last (split wire "*") "".

(** ** The standard library on the inputs of the examples *)

Module Runtime.

Definition ascii_space : string :=
  String (byte_of 32) (String (byte_of 9) (String (byte_of 10)
    (String (byte_of 11) (String (byte_of 12) (String (byte_of 13) EmptyString))))).

(** [strings.TrimSpace] for ASCII white space. *)
Definition TrimSpace (s : string) : string := strings.Trim s ascii_space.

(** The leading digits of [s] appended to the numeral [n]: the number,
    how many digits were read, and the rest. *)
Fixpoint read_digits (s : string) (n count : Z) : Z * Z * string :=
  match s with
  | EmptyString => (n, count, s)
  | String c rest =>
      if is_digit c then read_digits rest (n * 10 + (byte_val c - 48)) (count + 1)
      else (n, count, s)
  end.

(** The special values that [strconv.ParseFloat] reads, in any letter
    case: [inf] and [infinity], with a sign or without, and [nan]. *)
Definition special (s : string) : option float64 :=
  match s with
  | String c r =>
      if Ascii.eqb c "+" || Ascii.eqb c "-" then
        if (to_upper r =? "INF")%string || (to_upper r =? "INFINITY")%string
        then Some (Inf (Ascii.eqb c "-"))
        else None
      else if (to_upper s =? "INF")%string || (to_upper s =? "INFINITY")%string
      then Some (Inf false)
      else if (to_upper s =? "NAN")%string then Some NaN
      else None
  | EmptyString => None
  end.

(** [strconv.ParseFloat(s, 64)] on the special values and on plain decimal
    numerals: a sign, digits, a point, digits, with one digit at least.
    Exponents, hexadecimal numerals and underscores are not numerals of
    this instance. *)
Definition ParseFloat (s : string) : float64 * option error :=
  match special s with
  | Some v => (v, None)
  | None =>
      let '(neg, body) :=
        match s with
        | String c r =>
            if Ascii.eqb c "-" then (true, r)
            else if Ascii.eqb c "+" then (false, r)
            else (false, s)
        | EmptyString => (false, s)
        end in
      let '(ip, ni, rest) := read_digits body 0 0 in
      let '(num, nf, rest') :=
        match rest with
        | String c r => if Ascii.eqb c "." then read_digits r ip 0 else (ip, 0, rest)
        | EmptyString => (ip, 0, rest)
        end in
      if (rest' =? "")%string && (0 <? ni + nf)
      then (Finite (Qred (Qmake (if neg then - num else num) (Z.to_pos (10 ^ nf)))), None)
      else (Finite 0, Some (NumError "ParseFloat" s ErrSyntax))
  end.

Definition is_octal (c : ascii) : bool :=
  let v := byte_val c in (48 <=? v) && (v <=? 55).

Fixpoint octal_loop (s : string) (n maxVal : Z) : Z * option NumErrKind :=
  match s with
  | EmptyString => (n, None)
  | String c rest =>
      if is_octal c then
        let n1 := n * 8 + (byte_val c - 48) in
        if n1 >? maxVal then (maxVal, Some ErrRange) else octal_loop rest n1 maxVal
      else (0, Some ErrSyntax)
  end.

(** [strconv.ParseUint(s, 0, bitSize)] for [bitSize <= 32], on decimal
    numerals and on numerals with a leading 0, which are octal; the
    prefixes [0x], [0o], [0b] and underscores are not numerals of this
    instance. *)
Definition ParseUint0 (s : string) (bitSize : Z) : Z * option error :=
  match s with
  | EmptyString => (0, Some (NumError "ParseUint" s ErrSyntax))
  | String "0" rest => strconv.numError "ParseUint" s (octal_loop rest 0 (2 ^ bitSize - 1))
  | _ => strconv.ParseUint10 s bitSize
  end.

Definition two_digits (s : string) : option (Z * string) :=
  match s with
  | String a (String b rest) =>
      if is_digit a && is_digit b
      then Some ((byte_val a - 48) * 10 + (byte_val b - 48), rest)
      else None
  | _ => None
  end.

Definition three_digits (s : string) : option (Z * string) :=
  match s with
  | String a rest =>
      match two_digits rest with
      | Some (n, rest') =>
          if is_digit a then Some ((byte_val a - 48) * 100 + n, rest') else None
      | None => None
      end
  | _ => None
  end.

(** The layout [150405.000]: hour, minute, second, a point or a comma,
    three digits. *)
Definition clock (s : string) : option (Z * Z * Z * Z) :=
  match two_digits s with
  | Some (h, s1) =>
      match two_digits s1 with
      | Some (mi, s2) =>
          match two_digits s2 with
          | Some (sec, String p s3) =>
              if Ascii.eqb p "." || Ascii.eqb p "," then
                match three_digits s3 with
                | Some (ms, EmptyString) =>
                    if (h <? 24) && (mi <? 60) && (sec <? 60)
                    then Some (h, mi, sec, ms) else None
                | _ => None
                end
              else None
          | _ => None
          end
      | None => None
      end
  | None => None
  end.

Definition is_leap (y : Z) : bool :=
  (y mod 4 =? 0) && (negb (y mod 100 =? 0) || (y mod 400 =? 0)).

Definition days_in (mo y : Z) : Z :=
  if mo =? 2 then (if is_leap y then 29 else 28)
  else if (mo =? 4) || (mo =? 6) || (mo =? 9) || (mo =? 11) then 30
  else 31.

(** [time.Parse] for the two layouts of the package. *)
Definition time_Parse (layout value : string) : Time * option error :=
  let bad := (zeroTime, Some (TimeParseError layout value)) in
  if (layout =? "150405.000")%string then
    match clock value with
    | Some (h, mi, sec, ms) => (mkTime 0 1 1 h mi sec ms, None)
    | None => bad
    end
  else if (layout =? "020106 150405.000")%string then
    match two_digits value with
    | Some (d, v1) =>
        match two_digits v1 with
        | Some (mo, v2) =>
            match two_digits v2 with
            | Some (yy, String " " v3) =>
                let y := if yy >=? 69 then 1900 + yy else 2000 + yy in
                match clock v3 with
                | Some (h, mi, sec, ms) =>
                    if (1 <=? mo) && (mo <=? 12) && (1 <=? d) && (d <=? days_in mo y)
                    then (mkTime y mo d h mi sec ms, None) else bad
                | None => bad
                end
            | _ => bad
            end
        | None => bad
        end
    | None => bad
    end
  else bad.

(** [t.Format("150405.000")] *)
Definition time_Format (t : Time) (layout : string) : string :=
  fmt.Sprintf_0d 2 (hour t) ++ fmt.Sprintf_0d 2 (minute t)
    ++ fmt.Sprintf_0d 2 (second t) ++ "." ++ fmt.Sprintf_0d 3 (millisecond t).

End Runtime.

(** [range] visiting the entries as written. *)
#[export] Instance goRuntime : GoRuntime := {|
  TrimSpace := Runtime.TrimSpace;
  ParseFloat := Runtime.ParseFloat;
  ParseUint0 := Runtime.ParseUint0;
  time_Parse := Runtime.time_Parse;
  time_Format := Runtime.time_Format;
  range_order := fun kv => kv;
  range_order_perm := fun kv => Permutation_refl kv
|}.

(** [range] visiting the entries in the opposite order. *)
Definition goRuntime_rev : GoRuntime := {|
  TrimSpace := Runtime.TrimSpace;
  ParseFloat := Runtime.ParseFloat;
  ParseUint0 := Runtime.ParseUint0;
  time_Parse := Runtime.time_Parse;
  time_Format := Runtime.time_Format;
  range_order := fun kv => rev kv;
  range_order_perm := fun kv => Permutation_sym (Permutation_rev kv)
|}.

(** Modelled from the spec: the positioning modes, single-letter tokens:
    Autonomous, Differential, Estimated, NotValid. *)
Definition Autonomous : PositioningMode := "A".
Definition Differential : PositioningMode := "D".
Definition Estimated : PositioningMode := "E".
Definition NotValid : PositioningMode := "N".

(** Modelled from the spec: the package's declarations on the inputs of the
    examples.  [Message.Error] keeps the frame and the cause; a positioning
    mode is one of the four tokens; a severity is a number; [PrependXZero]
    pads the integer part with zeros to the given number of digits. *)
#[export] Instance package : Package := {|
  Message_Error := fun m e => Decorated (Type_ m) (Fields m) e;
  ParsePositioningMode := fun raw =>
    if (raw =? Autonomous)%string || (raw =? Differential)%string
       || (raw =? Estimated)%string || (raw =? NotValid)%string
    then (raw, None) else (raw, Some UnknowValue);
  Severity := Z;
  Severity_zero := 0;
  ParseSeverity := fun raw => strconv.ParseInt10 raw 0;
  Severity_Serialize := fmt.Sprintf_0d 2;
  PrependXZero := fun x _ n => fmt.Sprintf_0f (n + 2) 1 x
|}.

(** ** Constructing a sentence from a frame *)

Inductive SentenceType := DBT | GLL | GGA | RMC | GSA | TXT | VTG.

Section Construction.

Context {rt : GoRuntime} {pkg : Package}.

Inductive Sentence :=
| SentenceDBT (s : GPDBT.t)
| SentenceGLL (s : GPGLL.t)
| SentenceGGA (s : GPGGA.t)
| SentenceRMC (s : GPRMC.t)
| SentenceGSA (s : GPGSA.t)
| SentenceTXT (s : GPTXT.t)
| SentenceVTG (s : GPVTG.t).

(** [s := NewGPxxx(m); err := s.parse()], for each sentence type. *)
Definition construct (k : SentenceType) (m : Message) : res Sentence :=
  match k with
  | DBT => s <- GPDBT.parse (GPDBT.NewGPDBT m) ;; Ok (SentenceDBT s)
  | GLL => s <- GPGLL.parse (GPGLL.NewGPGLL m) ;; Ok (SentenceGLL s)
  | GGA => s <- GPGGA.parse (GPGGA.NewGPGGA m) ;; Ok (SentenceGGA s)
  | RMC => s <- GPRMC.parse (GPRMC.NewGPRMC m) ;; Ok (SentenceRMC s)
  | GSA => s <- GPGSA.parse (GPGSA.NewGPGSA m) ;; Ok (SentenceGSA s)
  | TXT => s <- GPTXT.parse (GPTXT.NewGPTXT m) ;; Ok (SentenceTXT s)
  | VTG => s <- GPVTG.parse (GPVTG.NewGPVTG m) ;; Ok (SentenceVTG s)
  end.

(** The decoration each [parse] puts on the errors of its two gates:
    [m.Error(...)], but [GPGGA.parse] returns the bare error. *)
Definition gate_error (k : SentenceType) (m : Message) (e : error) : error :=
  match k with
  | GGA => e
  | _ => Message_Error m e
  end.

End Construction.

Definition sentence_name (k : SentenceType) : string :=
  match k with
  | DBT => "GPDBT" | GLL => "GPGLL" | GGA => "GPGGA" | RMC => "GPRMC"
  | GSA => "GPGSA" | TXT => "GPTXT" | VTG => "GPVTG"
  end.

(** The number of fields each [parse] asks for. *)
Definition required_count (k : SentenceType) : nat :=
  match k with
  | DBT => 6 | GLL => 7 | GGA => 14 | RMC => 12 | GSA => 17 | TXT => 4 | VTG => 9
  end%nat.

(** The map literal of fixed fields each [parse] ranges over. *)
Definition fixed_literals (k : SentenceType) : list (nat * string) :=
  match k with
  | DBT => [(1, "f"); (3, "M"); (5, "F")]
  | VTG => [(1, "T"); (3, "M"); (5, "N"); (7, "K")]
  | GGA => [(9, "M"); (11, "M")]
  | _ => []
  end%nat.

(** A fixed literal of [k] that the fields do not carry. *)
Definition violates (k : SentenceType) (fields : list string) (i : nat) (v : string) : Prop :=
  In (i, v) (fixed_literals k) /\ nth i fields "" <> v.

(** ** Notions used by the statements *)

(** [strconv] refused the numeral as malformed ([ErrSyntax]): the string
    is empty or holds a byte that is no digit. *)
Definition syntax_error (r : Z * option error) : Prop :=
  exists fn num, snd r = Some (NumError fn num ErrSyntax).

(** [strconv] refused the numeral as out of range ([ErrRange]): a numeral
    that the integer type cannot hold. *)
Definition range_error (r : Z * option error) : Prop :=
  exists fn num, snd r = Some (NumError fn num ErrRange).

(** The greatest and the least [int]. *)
Definition MaxInt : Z := 2 ^ 63 - 1.
Definition MinInt : Z := - 2 ^ 63.

(** A numeral that starts with a minus sign. *)
Definition negative_numeral (s : string) : bool :=
  match s with
  | String c _ => Ascii.eqb c "-"
  | EmptyString => false
  end.

(** A decimal numeral: an optional sign, then one digit at least and
    digits only. *)
Definition is_numeral (s : string) : bool :=
  match s with
  | EmptyString => false
  | String c rest =>
      if Ascii.eqb c "-" || Ascii.eqb c "+"
      then negb (rest =? "")%string && all_digits rest
      else all_digits s
  end.

(** The number a string of digits denotes, read after the numeral [acc]. *)
Fixpoint dec_value (s : string) (acc : Z) : Z :=
  match s with
  | EmptyString => acc
  | String c rest => dec_value rest (acc * 10 + (byte_val c - 48))
  end.

(** Digits and points only. *)
Fixpoint plain (s : string) : bool :=
  match s with
  | EmptyString => true
  | String c rest => (is_digit c || Ascii.eqb c ".") && plain rest
  end.

(** The coordinate of [d] whole degrees and [k] millionths of a minute. *)
Definition on_grid (d k : Z) : Q := (inject_Z d + (k # 60000000))%Q.

Section Acceptance.

Context {rt : GoRuntime}.

(** A dilution-of-precision field that [GPGSA.parse] lets through: empty,
    or a number. *)
Definition dop_ok (f : string) : bool :=
  if len f >? 0 then isOk (checked (ParseFloat f)) else true.

(** What [GPGSA.parse] checks on a frame of 17 fields: the mode, the fix
    status and the three dilutions of precision. *)
Definition gsa_accepts (fields : list string) : bool :=
  isOk (checked (ParseMode (nth 0 fields "")))
  && isOk (checked (ParseFixStatus (nth 1 fields "")))
  && dop_ok (nth 14 fields "")
  && dop_ok (nth 15 fields "")
  && dop_ok (nth 16 fields "").

End Acceptance.

(** The decimal degrees [ParseDM] computes from the number [dm] it read:
    [d := math.Floor(dm / 100); m := dm - d * 100; d + m / 60]. *)
Definition degrees (dm : Q) : Q :=
  let d := inject_Z (Qfloor (dm / 100)) in
  let m := (dm - d * 100)%Q in
  (d + m / 60)%Q.

(** The bound [ParseDM] puts on the magnitude, by the final byte: [MaxLat]
    for N and S, [MaxLong] for E and W, none for any other byte. *)
Definition bound_of (c : ascii) : option Q :=
  if Ascii.eqb c "N" || Ascii.eqb c "S" then Some MaxLat
  else if Ascii.eqb c "E" || Ascii.eqb c "W" then Some MaxLong
  else None.

(** A coordinate under the bound [b]: NaN, which no comparison finds
    greater than the bound, or a finite number of magnitude at most [b]. *)
Definition within (l : LatLong.t) (b : Q) : Prop :=
  match l with
  | Finite q => (Qabs q <= b)%Q
  | NaN => True
  | Inf _ => False
  end.

(** The sign [ParseDM] gives the degrees: kept for N and E, [0 - v] for S
    and W. *)
Definition signed_by (c : ascii) (v : Q) : Q :=
  if Ascii.eqb c "N" || Ascii.eqb c "E" then v else (0 - v)%Q.

(** ** The sentences of the specification that the code does not bear out,
    as they are worded *)

Section AsWorded.

Context (rt : GoRuntime) (pkg : Package).

(** Hemisphere sign law: for a valid degree-minute string with a number
    that is not negative, the coordinate is negative if and only if the
    suffix is S or W, and not negative for N or E. *)
Definition hemisphere_sign_law : Prop :=
  forall (raw : string) (dm : Q) (c : ascii) (l : LatLong.t),
    ParseFloat (TrimSpace (slice_to raw (len raw - 2))) = (Finite dm, None) ->
    byte_at raw (len raw - 1) = Ok c ->
    (0 <= dm)%Q ->
    ParseDM raw = Ok l ->
    (f64.lt l 0%Q = true <-> (c = "S" \/ c = "W")%char)
    /\ ((c = "N" \/ c = "E")%char -> f64.ge l 0%Q = true).

(** Axis check: a latitude pair (GPGLL fields 0 and 1) whose suffix is E
    or W is refused with an error, and so is a longitude pair (fields 2
    and 3) whose suffix is N or S. *)
Definition axis_check_law : Prop :=
  forall m : GPGLL.t,
    let field := fun i => nth i (Fields (GPGLL.message m)) "" in
    length (Fields (GPGLL.message m)) = 7%nat ->
    field 1%nat = "E" \/ field 1%nat = "W" \/ field 3%nat = "N" \/ field 3%nat = "S" ->
    isErr (GPGLL.parse m) = true.

(** Optional fields of GPGGA: for HDOP (7), altitude (8), geoidal
    separation (10), DGPS age (12) and DGPS station (13), serialization
    emits an empty field exactly when the wire field was empty, so that an
    absent value and a value of 0 stay apart. *)
Definition optional_fields_law : Prop :=
  forall (m : Message) (s : GPGGA.t) (i : nat),
    GPGGA.parse (GPGGA.NewGPGGA m) = Ok s ->
    In i [7; 8; 10; 12; 13]%nat ->
    (nth i (GPGGA.serialized_fields s) "" = "" <-> nth i (Fields m) "" = "").

(** Satellite slots of GPGSA: in a frame of 17 fields that is parsed, a
    satellite field that is empty or is no valid integer
    ([strconv.Atoi] returns an error for it) leaves 0 in its slot. *)
Definition satellite_slots_law : Prop :=
  forall (m s : GPGSA.t) (k : nat),
    length (Fields (GPGSA.message m)) = 17%nat ->
    length (GPGSA.SatelliteUsedOnChannel m) = 13%nat ->
    GPGSA.parse m = Ok s ->
    (k < 12)%nat ->
    snd (strconv.Atoi (nth (2 + k) (Fields (GPGSA.message m)) "")) <> None ->
    nth (k + 1) (GPGSA.SatelliteUsedOnChannel s) 0 = 0.

(** Enum totality for the validity flag, whose wire tokens are A and V:
    any other token is refused. *)
Definition validity_token_law : Prop :=
  forall m : GPGLL.t,
    let token := nth 5 (Fields (GPGLL.message m)) "" in
    length (Fields (GPGLL.message m)) = 7%nat ->
    token <> "A" -> token <> "V" ->
    isErr (GPGLL.parse m) = true.

End AsWorded.

(** ** Frames and lines of the examples *)

(** The GLL sentence of the package's documentation. *)
Definition gll_line : string :=
  "$GPGLL,3110.2908,N,12123.2348,E,041139.000,A,A*59".

(** A GLL frame whose latitude pair ends in E and whose longitude pair ends
    in N. *)
Definition crossed_axes : Message :=
  mkMessage "GPGLL" ["3110.2908"; "E"; "02123.2348"; "N"; "041139.000"; "A"; "A"] "".

(** A GLL frame whose validity flag is neither A nor V. *)
Definition odd_validity : Message :=
  mkMessage "GPGLL" ["3110.2908"; "N"; "12123.2348"; "E"; "041139.000"; "X"; "A"] "".

(** The GSA sentence of the package's documentation, with a first
    satellite field of twenty digits. *)
Definition overlong_satellite : Message :=
  mkMessage "GPGSA"
    ["A"; "3"; "99999999999999999999"; "06"; "16"; "31"; "23"; ""; ""; ""; ""; ""; ""; "";
     "1.66"; "1.42"; "0.84"] "".

(** The GGA sentence of the package's documentation, and the same with the
    HDOP and altitude fields empty, or reading 0. *)
Definition gga_fields (hdop altitude : string) : Message :=
  mkMessage "GPGGA"
    ["015540.000"; "3150.68378"; "N"; "11711.93139"; "E"; "1"; "17";
     hdop; altitude; "M"; "0.0"; "M"; ""; ""] "".

(** [x] is a finite number, and is [y] to five decimal places. *)
Definition approx (x : float64) (y : Q) : Prop :=
  match x with
  | Finite q => (Qabs (q - y) <= 1 # 100000)%Q
  | _ => False
  end.

(** What decoding the GLL line of the documentation is said to give:
    latitude and longitude (to five decimal places), 04:11:39.000 UTC,
    valid, positioning mode Autonomous. *)
Definition gll_decoded (latitude longitude : Q) (s : GPGLL.t) : Prop :=
  approx (GPGLL.Latitude s) latitude
  /\ approx (GPGLL.Longitude s) longitude
  /\ hour (GPGLL.TimeUTC s) = 4 /\ minute (GPGLL.TimeUTC s) = 11
  /\ second (GPGLL.TimeUTC s) = 39 /\ millisecond (GPGLL.TimeUTC s) = 0
  /\ GPGLL.IsValid s = true
  /\ GPGLL.PositioningMode s = Autonomous.

Section Scenario.

Context (rt : GoRuntime) (pkg : Package).

(** Scenario 1 as worded: latitude 31.18818, longitude 121.38725, and a
    serialization whose trailing checksum is 59. *)
Definition gll_scenario_law : Prop :=
  exists (m : Message) (s : GPGLL.t),
    decode gll_line = Ok (m, true)
    /\ GPGLL.parse (GPGLL.NewGPGLL m) = Ok s
    /\ gll_decoded (3118818 # 100000) (12138725 # 100000) s
    /\ trailing_checksum (GPGLL.Serialize s) = "59".

End Scenario.

(** ** Notions of the properties of the serializers *)

(** The number of one decimal that the verb "%.1f" prints for [x]: the
    tenths nearest to [x], ties to even, with the sign of [x]. *)
Definition tenths (x : Q) : Q :=
  let n := fmt.round_half_even (Qabs x * inject_Z 10)%Q in
  (if flt x 0 then - n else n) # 10.

(** Two [float64] that are the same value: the same finite number, both
    NaN, or the same infinity. *)
Definition same (x y : float64) : Prop :=
  match x, y with
  | Finite a, Finite b => (a == b)%Q
  | NaN, NaN => True
  | Inf s, Inf s' => s = s'
  | _, _ => False
  end.

(** The value that the verb "%.1f" prints for [x]: the tenths of a finite
    number; NaN and the infinities are printed by name. *)
Definition printed (x : float64) : float64 :=
  match x with
  | Finite q => Finite (tenths q)
  | _ => x
  end.

(** The station numbers 0 to 255 that are read back from their four digits. *)
Definition station_reread (k : nat) : bool :=
  let v := Z.of_nat k in
  match checked (@ParseUint goRuntime (fmt.Sprintf_0d 4 v) 0 8) with
  | Ok u => u =? v
  | _ => false
  end.

(** ** Tactics of the proofs *)

(** Division by the constants of [ParseDM], as a product. *)
Ltac by_constants :=
  unfold Qdiv in *;
  change (/ 100)%Q with (1 # 100)%Q in *;
  change (/ 60)%Q with (1 # 60)%Q in *.

(** One step of a successful run: the result that is bound was [Ok]. *)
Ltac ok_step H :=
  cbv zeta in H;
  match type of H with
  | bind ?r _ = Ok _ =>
      let E := fresh "E" in
      destruct r eqn:E; cbn [bind] in H; [| discriminate H | discriminate H]
  end.

(** The steps of a [parse] that cannot index out of range. *)
Create HintDb no_panic discriminated.

(** One step of a run that does not panic: the result that is bound is one
    of the steps collected in [no_panic]. *)
Ltac total_step :=
  cbv zeta;
  lazymatch goal with
  | |- Ok _ <> Panic _ => discriminate
  | |- Err _ <> Panic _ => discriminate
  | |- bind ?r _ <> Panic _ =>
      let E := fresh "E" in
      destruct r eqn:E; cbn [bind];
      [ | discriminate
        | exfalso; refine ((_ : r <> Panic _) E); solve [auto with no_panic] ]
  end.

(** The indices of a map literal are within a list of known length. *)
Ltac literals_in_range :=
  let i := fresh "i" in
  let v := fresh "v" in
  let H := fresh "H" in
  intros i v H; cbn [In] in H;
  repeat (destruct H as [H | H]; [inversion H; subst; cbn [length]; lia |]);
  destruct H.

(** ** Theorems *)

Lemma index_nth (fields : list string) (i : nat) :
  (i < length fields)%nat -> index fields i = Ok (nth i fields "").
Proof.
  intro Hi. unfold index.
  rewrite (nth_error_nth' fields "" Hi). reflexivity.
Qed.

Lemma Nat_eqb_false_neq (a b : nat) : a <> b -> negb (a =? b)%nat = true.
Proof. intro H. apply Nat.eqb_neq in H. now rewrite H. Qed.

(** C5. Field-count gate: a frame whose number of fields differs from the
    count the sentence type asks for (6 for DBT, 7 for GPGLL, 14 for GPGGA,
    12 for GPRMC, 17 for GPGSA, 4 for GPTXT, 9 for GPVTG) is refused with
    the field-count error, whatever the fields hold. *)
Theorem field_count_gate
    (rt : GoRuntime) (pkg : Package) (k : SentenceType) (m : Message) :
  length (Fields m) <> required_count k ->
  construct k m
  = Err (gate_error k m
           (Incomplete (sentence_name k) (length (Fields m)) (required_count k))).
Proof.
  intro Hlen.
  destruct k; cbn [construct required_count sentence_name gate_error] in *.
  - unfold GPDBT.parse; cbn [GPDBT.message GPDBT.NewGPDBT].
    now rewrite (Nat_eqb_false_neq _ _ Hlen).
  - unfold GPGLL.parse; cbn [GPGLL.message GPGLL.NewGPGLL].
    now rewrite (Nat_eqb_false_neq _ _ Hlen).
  - unfold GPGGA.parse; cbn [GPGGA.message GPGGA.NewGPGGA].
    now rewrite (Nat_eqb_false_neq _ _ Hlen).
  - unfold GPRMC.parse; cbn [GPRMC.message GPRMC.NewGPRMC].
    now rewrite (Nat_eqb_false_neq _ _ Hlen).
  - unfold GPGSA.parse; cbn [GPGSA.message GPGSA.NewGPGSA].
    now rewrite (Nat_eqb_false_neq _ _ Hlen).
  - unfold GPTXT.parse; cbn [GPTXT.message GPTXT.NewGPTXT].
    now rewrite (Nat_eqb_false_neq _ _ Hlen).
  - unfold GPVTG.parse; cbn [GPVTG.message GPVTG.NewGPVTG].
    now rewrite (Nat_eqb_false_neq _ _ Hlen).
Qed.

Lemma field_count_gate_witness :
  let m := mkMessage "GPGLL" ["3110.2908"; "N"; "12123.2348"; "E"; "041139.000"; "A"] "59" in
  length (Fields m) <> required_count GLL
  /\ construct GLL m
     = Err (Decorated "GPGLL" (Fields m) (Incomplete "GPGLL" 6 7)).
Proof.
  split.
  - cbn. discriminate.
  - apply (field_count_gate goRuntime package GLL). cbn. discriminate.
Defined.

(** The loop over the fixed fields stops at a violated entry, in whatever
    order the entries come. *)
Lemma check_fixed_violation (fields : list string) (wrap : error -> error) :
  forall entries : list (nat * string),
    (forall i v, In (i, v) entries -> (i < length fields)%nat) ->
    (exists i v, In (i, v) entries /\ nth i fields "" <> v) ->
    exists i v,
      In (i, v) entries /\ nth i fields "" <> v
      /\ check_fixed fields wrap entries
         = Err (wrap (InvalidFixedField (i + 1) (nth i fields "") v)).
Proof.
  induction entries as [| [i v] rest IH]; intros Hrange [j [w [Hin Hne]]].
  - destruct Hin.
  - cbn [check_fixed].
    rewrite (index_nth fields i (Hrange i v (or_introl eq_refl))).
    cbn [bind].
    destruct (String.eqb_spec (nth i fields "") v) as [Heq | Hdiff]; cbn [negb].
    + destruct Hin as [Hhead | Htail].
      * inversion Hhead; subst. contradiction.
      * destruct IH as [i' [v' [Hin' [Hne' Hres]]]].
        { intros i0 v0 H0. apply (Hrange i0 v0). now right. }
        { now exists j, w. }
        exists i', v'. repeat split; [now right | assumption | assumption].
    + exists i, v. repeat split; [now left | assumption].
Qed.

Lemma validate_fixed_violation {rt : GoRuntime}
    (fields : list string) (wrap : error -> error) (literals : list (nat * string)) :
  (forall i v, In (i, v) literals -> (i < length fields)%nat) ->
  (exists i v, In (i, v) literals /\ nth i fields "" <> v) ->
  exists i v,
    In (i, v) literals /\ nth i fields "" <> v
    /\ validate_fixed fields wrap literals
       = Err (wrap (InvalidFixedField (i + 1) (nth i fields "") v)).
Proof.
  intros Hrange [j [w [Hin Hne]]].
  pose proof (range_order_perm literals) as Hperm.
  destruct (check_fixed_violation fields wrap (range_order literals))
    as [i [v [Hin' [Hne' Hres]]]].
  - intros i v H. apply (Hrange i v). exact (Permutation_in _ Hperm H).
  - exists j, w. split; [| assumption].
    exact (Permutation_in _ (Permutation_sym Hperm) Hin).
  - exists i, v. repeat split; [| assumption | exact Hres].
    exact (Permutation_in _ Hperm Hin').
Qed.

(** C6. Fixed-field gate: with the right number of fields, a frame that
    breaks one of the fixed literals of its sentence type (DBT: "f", "M",
    "F" at 1, 3, 5; GPVTG: "T", "M", "N", "K" at 1, 3, 5, 7; GPGGA: "M" at 9
    and 11) is refused with the fixed-field error of a literal it breaks,
    in whatever order the literals are visited; no sentence is built. *)
Theorem fixed_field_gate
    (rt : GoRuntime) (pkg : Package) (k : SentenceType) (m : Message)
    (i : nat) (v : string) :
  length (Fields m) = required_count k ->
  violates k (Fields m) i v ->
  (exists i' v',
      violates k (Fields m) i' v'
      /\ construct k m
         = Err (gate_error k m
                  (InvalidFixedField (i' + 1) (nth i' (Fields m) "") v')))
  /\ forall s, construct k m <> Ok s.
Proof.
  intros Hlen Hviol.
  assert (Hex :
    exists i' v',
      violates k (Fields m) i' v'
      /\ construct k m
         = Err (gate_error k m
                  (InvalidFixedField (i' + 1) (nth i' (Fields m) "") v'))).
  { unfold violates in *.
    destruct k; cbn [fixed_literals required_count] in *;
      try (destruct Hviol as [Hnone _]; exact (False_ind _ Hnone)).
    - (* DBT *)
      destruct (validate_fixed_violation (Fields m) (Message_Error m)
                  [(1, "f"); (3, "M"); (5, "F")]%nat)
        as [i' [v' [Hin [Hne Hres]]]].
      + intros i0 v0 H0. rewrite Hlen. cbn in H0.
        repeat (destruct H0 as [H0 | H0]; [inversion H0; subst; lia |]).
        destruct H0.
      + now exists i, v.
      + exists i', v'. repeat split; [assumption | assumption |].
        cbn [construct gate_error]. unfold GPDBT.parse.
        cbn [GPDBT.message GPDBT.NewGPDBT].
        rewrite Hlen, Nat.eqb_refl. cbn [negb]. rewrite Hres. reflexivity.
    - (* GGA *)
      destruct (validate_fixed_violation (Fields m) (fun e => e)
                  [(9, "M"); (11, "M")]%nat)
        as [i' [v' [Hin [Hne Hres]]]].
      + intros i0 v0 H0. rewrite Hlen. cbn in H0.
        repeat (destruct H0 as [H0 | H0]; [inversion H0; subst; lia |]).
        destruct H0.
      + now exists i, v.
      + exists i', v'. repeat split; [assumption | assumption |].
        cbn [construct gate_error]. unfold GPGGA.parse.
        cbn [GPGGA.message GPGGA.NewGPGGA].
        rewrite Hlen, Nat.eqb_refl. cbn [negb]. rewrite Hres. reflexivity.
    - (* VTG *)
      destruct (validate_fixed_violation (Fields m) (Message_Error m)
                  [(1, "T"); (3, "M"); (5, "N"); (7, "K")]%nat)
        as [i' [v' [Hin [Hne Hres]]]].
      + intros i0 v0 H0. rewrite Hlen. cbn in H0.
        repeat (destruct H0 as [H0 | H0]; [inversion H0; subst; lia |]).
        destruct H0.
      + now exists i, v.
      + exists i', v'. repeat split; [assumption | assumption |].
        cbn [construct gate_error]. unfold GPVTG.parse.
        cbn [GPVTG.message GPVTG.NewGPVTG].
        rewrite Hlen, Nat.eqb_refl. cbn [negb]. rewrite Hres. reflexivity. }
  split; [exact Hex |].
  destruct Hex as [i' [v' [_ Hres]]]. intros s Hs. rewrite Hres in Hs. discriminate.
Qed.

Lemma fixed_field_gate_witness :
  let m := mkMessage "INDBT" [""; ""; "000033.0"; "M"; ""; ""] "06" in
  length (Fields m) = required_count DBT
  /\ violates DBT (Fields m) 5 "F"
  /\ (exists i' v',
         violates DBT (Fields m) i' v'
         /\ construct DBT m
            = Err (gate_error DBT m
                     (InvalidFixedField (i' + 1) (nth i' (Fields m) "") v')))
  /\ forall s, construct DBT m <> Ok s.
Proof.
  assert (Hviol : violates DBT [""; ""; "000033.0"; "M"; ""; ""] 5 "F").
  { split; [cbn; auto | cbn; discriminate]. }
  split; [reflexivity |]. split; [exact Hviol |].
  exact (fixed_field_gate goRuntime package DBT
           (mkMessage "INDBT" [""; ""; "000033.0"; "M"; ""; ""] "06")
           5 "F" eq_refl Hviol).
Defined.

(** Which violated literal is reported depends on the order of the
    visit: the DBT frame of the documentation breaks the literals at 1 and
    at 5, and either is reported. *)
Lemma fixed_field_order :
  let m := mkMessage "INDBT" [""; ""; "000033.0"; "M"; ""; ""] "06" in
  @GPDBT.parse goRuntime package (GPDBT.NewGPDBT m)
  = Err (Decorated "INDBT" (Fields m) (InvalidFixedField 2 "" "f"))
  /\ @GPDBT.parse goRuntime_rev package (GPDBT.NewGPDBT m)
     = Err (Decorated "INDBT" (Fields m) (InvalidFixedField 6 "" "F")).
Proof. split; vm_compute; reflexivity. Qed.

(** A malformed numeral reads as 0. *)
Lemma Atoi_syntax_error_zero (s : string) :
  syntax_error (strconv.Atoi s) -> fst (strconv.Atoi s) = 0.
Proof.
  intros [fn [num H]]. revert H. unfold strconv.Atoi.
  destruct ((0 <? len s) && (len s <? 19)).
  - destruct s as [| c rest]; [reflexivity |].
    destruct ((Ascii.eqb c "-" || Ascii.eqb c "+")
              && (len (if Ascii.eqb c "-" || Ascii.eqb c "+" then rest else String c rest) <? 1));
      [reflexivity |].
    destruct (strconv.atoi_loop _ 0); [cbn; discriminate | reflexivity].
  - unfold strconv.ParseInt10.
    destruct s as [| c rest]; [reflexivity |].
    destruct (strconv.parseUint10 _ 0) as [un [[|]|]];
      cbn [fst snd]; try reflexivity;
      repeat match goal with
             | |- context [if ?b then _ else _] => destruct b
             end; cbn; intro H; inversion H.
Qed.

Lemma byte_val_range (c : ascii) : 0 <= byte_val c < 256.
Proof.
  unfold byte_val. pose proof (N_ascii_bounded c) as H.
  split; [apply N2Z.is_nonneg |].
  change 256 with (Z.of_N 256). now apply N2Z.inj_lt.
Qed.

Lemma atoi_loop_digits (s : string) :
  forall n, all_digits s = false -> strconv.atoi_loop s n = None.
Proof.
  induction s as [| c rest IH]; intros n H; cbn [all_digits strconv.atoi_loop] in *.
  - discriminate H.
  - pose proof (byte_val_range c) as Hc.
    unfold is_digit in H.
    destruct (Z.gtb_spec ((byte_val c - 48) mod 256) 9) as [Hgt | Hle]; [reflexivity |].
    assert (Hd : (48 <=? byte_val c) && (byte_val c <=? 57) = true).
    { destruct (Z.leb_spec 48 (byte_val c)) as [H48 | H48]; cbn [andb].
      - rewrite Z.mod_small in Hle by lia. apply Z.leb_le. lia.
      - exfalso.
        replace ((byte_val c - 48) mod 256) with (byte_val c - 48 + 256) in Hle; [lia |].
        apply Z.mod_unique with (q := -1); lia. }
    rewrite Hd in H. cbn [andb] in H. now apply IH.
Qed.

(** A field of fewer than 19 bytes that is no decimal numeral is refused
    by [strconv.Atoi] as malformed. *)
Lemma Atoi_malformed (s : string) :
  len s < 19 -> is_numeral s = false -> syntax_error (strconv.Atoi s).
Proof.
  intros Hlen Hnum. unfold syntax_error, strconv.Atoi.
  destruct s as [| c rest].
  - cbn. now do 2 eexists.
  - assert (Hfast : (0 <? len (String c rest)) && (len (String c rest) <? 19) = true).
    { apply andb_true_intro. split; [| now apply Z.ltb_lt].
      apply Z.ltb_lt. unfold len. cbn [String.length]. lia. }
    rewrite Hfast. cbn [is_numeral] in Hnum.
    destruct (Ascii.eqb c "-" || Ascii.eqb c "+") eqn:Hsign; cbn [andb].
    + destruct (String.eqb_spec rest "") as [-> | Hrest]; cbn [negb andb] in Hnum.
      * cbn. now do 2 eexists.
      * assert (Hpos : (len rest <? 1) = false).
        { apply Z.ltb_ge. unfold len. destruct rest; [contradiction |].
          cbn [String.length]. lia. }
        rewrite Hpos. rewrite (atoi_loop_digits rest 0 Hnum). cbn. now do 2 eexists.
    + rewrite (atoi_loop_digits (String c rest) 0 Hnum). cbn. now do 2 eexists.
Qed.

Lemma array_13 (a : list Z) :
  length a = 13%nat ->
  exists c0 c1 c2 c3 c4 c5 c6 c7 c8 c9 c10 c11 c12,
    a = [c0; c1; c2; c3; c4; c5; c6; c7; c8; c9; c10; c11; c12].
Proof.
  intro H.
  do 13 (destruct a as [| ? a]; [discriminate H |]).
  destruct a; [| discriminate H].
  repeat eexists.
Qed.

Lemma fields_17 (fields : list string) :
  length fields = 17%nat ->
  exists f0 f1 f2 f3 f4 f5 f6 f7 f8 f9 f10 f11 f12 f13 f14 f15 f16,
    fields = [f0; f1; f2; f3; f4; f5; f6; f7; f8; f9; f10; f11; f12; f13; f14; f15; f16].
Proof.
  intro H.
  do 17 (destruct fields as [| ? fields]; [discriminate H |]).
  destruct fields; [| discriminate H].
  repeat eexists.
Qed.

(** The outcome of [GPGSA.parse] on 17 fields, written out: the twelve
    satellite fields go through [strconv.Atoi] with the error dropped. *)
Lemma GPGSA_parse_17 {rt : GoRuntime} {pkg : Package} (m : GPGSA.t) :
  length (Fields (GPGSA.message m)) = 17%nat ->
  length (GPGSA.SatelliteUsedOnChannel m) = 13%nat ->
  let msg := GPGSA.message m in
  let f := fun i => nth i (Fields msg) "" in
  GPGSA.parse m
  = (mode <- onErr (checked (ParseMode (f 0%nat))) (Message_Error msg) ;;
     fixStatus <- onErr (checked (ParseFixStatus (f 1%nat))) (Message_Error msg) ;;
     pdop <- parse_float_if_present (f 14%nat) (Message_Error msg) (GPGSA.PDOP m) ;;
     hdop <- parse_float_if_present (f 15%nat) (Message_Error msg) (GPGSA.HDOP m) ;;
     vdop <- parse_float_if_present (f 16%nat) (Message_Error msg) (GPGSA.VDOP m) ;;
     Ok (GPGSA.mk msg mode fixStatus
           (nth 0 (GPGSA.SatelliteUsedOnChannel m) 0
              :: map (fun k => fst (strconv.Atoi (f (2 + k)%nat))) (seq 0 12))
           pdop hdop vdop)).
Proof.
  intros Hf Ha msg f. subst f msg.
  destruct m as [msg mode fs chans p h v]. cbn [GPGSA.message GPGSA.SatelliteUsedOnChannel
    GPGSA.PDOP GPGSA.HDOP GPGSA.VDOP] in *.
  destruct msg as [ty fields ck]. cbn [Fields] in *.
  destruct (fields_17 fields Hf)
    as (f0 & f1 & f2 & f3 & f4 & f5 & f6 & f7 & f8 & f9 & f10 & f11 & f12 & f13 & f14 & f15 & f16 & ->).
  destruct (array_13 chans Ha)
    as (c0 & c1 & c2 & c3 & c4 & c5 & c6 & c7 & c8 & c9 & c10 & c11 & c12 & ->).
  unfold GPGSA.parse.
  cbn [GPGSA.message GPGSA.SatelliteUsedOnChannel GPGSA.PDOP GPGSA.HDOP GPGSA.VDOP
       Fields length Nat.eqb negb index nth_error nth bind slice skipn firstn Nat.sub
       GPGSA.satellites array_set Nat.add map seq].
  reflexivity.
Qed.

Lemma isOk_onErr {A : Type} (r : res A) (f : error -> error) :
  isOk (onErr r f) = isOk r.
Proof. now destruct r. Qed.

Lemma isOk_float_if_present {rt : GoRuntime}
    (f : string) (wrap : error -> error) (x : float64) :
  isOk (parse_float_if_present f wrap x) = dop_ok f.
Proof.
  unfold parse_float_if_present, dop_ok.
  destruct (len f >? 0); [apply isOk_onErr | reflexivity].
Qed.

Lemma checked_no_panic {A : Type} (r : A * option error) (why : string) :
  checked r <> Panic why.
Proof. unfold checked. destruct (snd r); discriminate. Qed.

Lemma onErr_no_panic {A : Type} (r : res A) (f : error -> error) (why : string) :
  (forall w, r <> Panic w) -> onErr r f <> Panic why.
Proof. intro H. destruct r; try discriminate. now destruct (H why0). Qed.

Lemma float_if_present_no_panic {rt : GoRuntime}
    (f : string) (wrap : error -> error) (x : float64) (why : string) :
  parse_float_if_present f wrap x <> Panic why.
Proof.
  unfold parse_float_if_present.
  destruct (len f >? 0); [| discriminate].
  apply onErr_no_panic. intro w. apply checked_no_panic.
Qed.

Lemma nth_map_seq (g : nat -> Z) (n k : nat) :
  (k < n)%nat -> nth k (map g (seq 0 n)) 0 = g k.
Proof.
  intro Hk.
  rewrite (nth_indep _ 0 (g 0%nat)) by (rewrite length_map, length_seq; exact Hk).
  rewrite (map_nth g (seq 0 n) 0%nat k).
  now rewrite seq_nth.
Qed.

(** What [strconv.Atoi] returns with a range error: the nearest bound of
    [int], the least for a numeral with a minus sign and the greatest for
    any other. *)
Lemma Atoi_range_error_bound (s : string) :
  range_error (strconv.Atoi s) ->
  fst (strconv.Atoi s) = (if negative_numeral s then MinInt else MaxInt).
Proof.
  intros [fn [num H]]. revert H. unfold strconv.Atoi.
  destruct ((0 <? len s) && (len s <? 19)).
  - destruct s as [| c rest]; [cbn; discriminate |].
    destruct ((Ascii.eqb c "-" || Ascii.eqb c "+")
              && (len (if Ascii.eqb c "-" || Ascii.eqb c "+" then rest else String c rest) <? 1));
      [cbn; discriminate |].
    destruct (strconv.atoi_loop _ 0); cbn; discriminate.
  - unfold strconv.ParseInt10.
    destruct s as [| c rest]; [cbn; discriminate |].
    cbn [negative_numeral].
    destruct (strconv.parseUint10 _ 0) as [un [[|]|]];
      cbn [fst snd]; try (cbn; discriminate);
      change (0 =? 0) with true; cbv iota;
      destruct (Ascii.eqb c "-"); cbn [negb andb];
      repeat match goal with
             | |- context [if ?b then _ else _] => destruct b
             end; cbn [fst snd]; intro H; try discriminate H; reflexivity.
Qed.



(** A satellite field of twenty digits is out of the range of [int]: the
    frame is parsed, and the slot holds the greatest [int]. *)
Lemma GPGSA_out_of_range :
  exists s,
    GPGSA.parse (GPGSA.NewGPGSA overlong_satellite) = Ok s
    /\ snd (strconv.Atoi "99999999999999999999")
       = Some (NumError "Atoi" "99999999999999999999" ErrRange)
    /\ nth 1 (GPGSA.SatelliteUsedOnChannel s) 0 = 9223372036854775807.
Proof.
  eexists. split; [vm_compute; reflexivity |].
  split; vm_compute; reflexivity.
Qed.


(** ** The coordinate model *)

(** C4. The value 0 is written as nothing: [ToDM] gives the empty string
    and [CardinalPoint] the empty cardinal point, for the latitude call
    ([isLatitude] true) and the longitude call ([isLatitude] false); so do
    the serializers, which trim [ToDM]'s result once more. *)
Theorem zero_is_omitted (l : Q) :
  (l == 0)%Q ->
  LatLong.ToDM l = ""
  /\ LatLong.CardinalPoint l true = ""
  /\ LatLong.CardinalPoint l false = ""
  /\ strings.Trim (LatLong.ToDM l) "0" = "".
Proof.
  intro Hz.
  assert (Hfeq : feq l 0 = true) by (unfold feq; now apply Qeq_bool_iff).
  unfold LatLong.ToDM, LatLong.CardinalPoint. cbn [f64.eq]. rewrite Hfeq.
  repeat split.
Qed.

Lemma zero_is_omitted_witness :
  (0 == 0)%Q
  /\ LatLong.ToDM 0%Q = ""
  /\ LatLong.CardinalPoint 0%Q true = ""
  /\ LatLong.CardinalPoint 0%Q false = ""
  /\ strings.Trim (LatLong.ToDM 0%Q) "0" = "".
Proof.
  split; [reflexivity |].
  apply (zero_is_omitted 0%Q). reflexivity.
Defined.

Lemma ascii_eqb_low (c k : ascii) :
  Ascii.eqb c k = true -> (byte_val k <? 128) = true -> (byte_val c <? 128) = true.
Proof. intros H Hk. apply Ascii.eqb_eq in H. now subst. Qed.

(** The final byte as a cardinal point: the one-byte string of an ASCII
    byte; a byte from 128 on becomes a two-byte string, which is none of
    the four letters. *)
Lemma string_of_byte_eqb (c k : ascii) :
  (byte_val k <? 128) = true ->
  (string_of_byte c =? String k EmptyString)%string = Ascii.eqb c k.
Proof.
  intro Hk. unfold string_of_byte.
  destruct (byte_val c <? 128) eqn:Hc.
  - cbn [String.eqb]. apply andb_true_r.
  - destruct (Ascii.eqb c k) eqn:E.
    + rewrite (ascii_eqb_low c k E Hk) in Hc. discriminate.
    + cbn [String.eqb]. apply andb_false_r.
Qed.

(** Division by the constants of [ParseDM]. *)
Lemma div_100 (a : Q) : f64.div a 100%Q = Finite (a / 100).
Proof. reflexivity. Qed.

Lemma div_60 (a : Q) : f64.div a 60%Q = Finite (a / 60).
Proof. reflexivity. Qed.

(** [ParseDM] once the number, a finite one, and the final byte are read. *)
Lemma ParseDM_eval {rt : GoRuntime} (raw : string) (dm : Q) (c : ascii) :
  (len raw <? 2) = false ->
  ParseFloat (TrimSpace (slice_to raw (len raw - 2))) = (Finite dm, None) ->
  byte_at raw (len raw - 1) = Ok c ->
  ParseDM raw
  = match bound_of c with
    | Some b => if fgt (Qabs (degrees dm)) b
                then Err (InvalidRange (degrees dm))
                else Ok (Finite (signed_by c (degrees dm)))
    | None => Err UnknowValue
    end.
Proof.
  intros Hlen Hnum Hlast.
  unfold ParseDM. rewrite Hlen, Hnum, Hlast.
  cbn [checked snd fst bind].
  unfold ParseCardinalPoint, North, South, East, West, CardinalPoint_String.
  rewrite !string_of_byte_eqb by reflexivity.
  rewrite div_100. cbn [math.Floor f64.mul f64.sub]. rewrite div_60.
  cbn [f64.add math.Abs f64.gt f64.sub].
  unfold bound_of, signed_by. fold (degrees dm).
  destruct (Ascii.eqb c "N") eqn:EN; [apply Ascii.eqb_eq in EN; subst c |].
  { cbn. now destruct (fgt _ MaxLat). }
  destruct (Ascii.eqb c "S") eqn:ES; [apply Ascii.eqb_eq in ES; subst c |].
  { cbn. now destruct (fgt _ MaxLat). }
  destruct (Ascii.eqb c "E") eqn:EE; [apply Ascii.eqb_eq in EE; subst c |].
  { cbn. now destruct (fgt _ MaxLong). }
  destruct (Ascii.eqb c "W") eqn:EW; [apply Ascii.eqb_eq in EW; subst c |].
  { cbn. now destruct (fgt _ MaxLong). }
  cbn. reflexivity.
Qed.

(** [ParseDM] once a number that is NaN or an infinity and the final byte
    are read: the degrees are NaN, which is not greater than any bound. *)
Lemma ParseDM_not_finite {rt : GoRuntime} (raw : string) (x : float64) (c : ascii) :
  (len raw <? 2) = false ->
  ParseFloat (TrimSpace (slice_to raw (len raw - 2))) = (x, None) ->
  (forall q, x <> Finite q) ->
  byte_at raw (len raw - 1) = Ok c ->
  ParseDM raw
  = match bound_of c with
    | Some _ => Ok NaN
    | None => Err UnknowValue
    end.
Proof.
  intros Hlen Hnum Hx Hlast.
  unfold ParseDM. rewrite Hlen, Hnum, Hlast.
  cbn [checked snd fst bind].
  unfold ParseCardinalPoint, North, South, East, West, CardinalPoint_String.
  rewrite !string_of_byte_eqb by reflexivity.
  unfold bound_of.
  assert (Hnan : f64.add (math.Floor (f64.div x 100%Q))
                   (f64.div (f64.sub x (f64.mul (math.Floor (f64.div x 100%Q)) 100%Q))
                      60%Q) = NaN).
  { destruct x as [q | | s]; [now destruct (Hx q) | reflexivity |].
    now destruct s. }
  rewrite Hnan. clear Hnan.
  destruct (Ascii.eqb c "N") eqn:EN; [apply Ascii.eqb_eq in EN; subst c |].
  { reflexivity. }
  destruct (Ascii.eqb c "S") eqn:ES; [apply Ascii.eqb_eq in ES; subst c |].
  { reflexivity. }
  destruct (Ascii.eqb c "E") eqn:EE; [apply Ascii.eqb_eq in EE; subst c |].
  { reflexivity. }
  destruct (Ascii.eqb c "W") eqn:EW; [apply Ascii.eqb_eq in EW; subst c |].
  { reflexivity. }
  cbn. reflexivity.
Qed.

Lemma degrees_bounds (dm : Q) :
  (0 <= dm)%Q ->
  (0 <= degrees dm)%Q /\ ((0 < dm)%Q -> (0 < degrees dm)%Q).
Proof.
  intro Hdm. unfold degrees.
  pose proof (Qfloor_le (dm / 100)) as Hlo.
  assert (H0 : (0 <= Qfloor (dm / 100))%Z).
  { change 0%Z with (Qfloor 0). apply Qfloor_resp_le. by_constants. lra. }
  rewrite Zle_Qle in H0.
  set (d := inject_Z (Qfloor (dm / 100))) in *.
  change (inject_Z 0) with 0%Q in H0.
  by_constants.
  split; [lra |].
  intro Hpos. destruct (Qlt_le_dec 0 d) as [Hdpos | Hdz]; lra.
Qed.

Lemma ParseDM_ok_len {rt : GoRuntime} (raw : string) (l : LatLong.t) :
  ParseDM raw = Ok l -> (len raw <? 2) = false.
Proof.
  unfold ParseDM. destruct (len raw <? 2); [discriminate | reflexivity].
Qed.

(** What [ParseDM] returns, by the final byte, when it accepts a finite
    number. *)
Lemma ParseDM_ok_cases {rt : GoRuntime} (raw : string) (dm : Q) (c : ascii) (l : LatLong.t) :
  ParseFloat (TrimSpace (slice_to raw (len raw - 2))) = (Finite dm, None) ->
  byte_at raw (len raw - 1) = Ok c ->
  ParseDM raw = Ok l ->
  ((c = "N" \/ c = "E")%char /\ l = Finite (degrees dm))
  \/ ((c = "S" \/ c = "W")%char /\ l = Finite (0 - degrees dm)).
Proof.
  intros Hnum Hlast Hok.
  rewrite (ParseDM_eval raw dm c (ParseDM_ok_len raw l Hok) Hnum Hlast) in Hok.
  unfold bound_of, signed_by in Hok.
  destruct (Ascii.eqb_spec c "N") as [-> | _];
    [cbn in Hok; destruct (fgt _ _); [discriminate | injection Hok as <-; auto] |].
  destruct (Ascii.eqb_spec c "S") as [-> | _];
    [cbn in Hok; destruct (fgt _ _); [discriminate | injection Hok as <-; auto] |].
  destruct (Ascii.eqb_spec c "E") as [-> | _];
    [cbn in Hok; destruct (fgt _ _); [discriminate | injection Hok as <-; auto] |].
  destruct (Ascii.eqb_spec c "W") as [-> | _];
    [cbn in Hok; destruct (fgt _ _); [discriminate | injection Hok as <-; auto] |].
  discriminate.
Qed.

(** C2, as the code has it.  For a degree-minute string that [ParseDM]
    accepts and whose number is finite and not negative: the coordinate is
    a finite number, at most 0 for the suffix S or W and at least 0 for N
    or E; it is negative only if the suffix is S or W and the number is
    not 0; and for S or W it is negative whenever the number is at least
    0.0001, the least number other than 0 that DDMM.MMMM writes.  (Between
    0 and that bound the minutes divided by 60 can underflow to 0 in a
    double, which the arithmetic of the rationals does not show.) *)
Theorem hemisphere_sign
    (rt : GoRuntime) (raw : string) (dm : Q) (c : ascii) (l : LatLong.t) :
  ParseFloat (TrimSpace (slice_to raw (len raw - 2))) = (Finite dm, None) ->
  byte_at raw (len raw - 1) = Ok c ->
  (0 <= dm)%Q ->
  ParseDM raw = Ok l ->
  exists q : Q,
    l = Finite q
    /\ ((c = "N" \/ c = "E")%char -> (0 <= q)%Q)
    /\ ((c = "S" \/ c = "W")%char -> (q <= 0)%Q)
    /\ ((q < 0)%Q -> (c = "S" \/ c = "W")%char /\ (0 < dm)%Q)
    /\ ((c = "S" \/ c = "W")%char -> (1 # 10000 <= dm)%Q -> (q < 0)%Q).
Proof.
  intros Hnum Hlast Hdm Hok.
  destruct (degrees_bounds dm Hdm) as [Hnonneg Hpos].
  assert (Hzero : ~ (0 < dm)%Q -> (degrees dm <= 0)%Q).
  { intro Hn. assert (Hz : (dm == 0)%Q) by lra.
    unfold degrees.
    assert (Hfl : Qfloor (dm / 100) = 0%Z).
    { assert (Hq : (dm / 100 == 0)%Q) by (by_constants; lra).
      rewrite Hq. reflexivity. }
    rewrite Hfl. change (inject_Z 0) with 0%Q. by_constants. lra. }
  destruct (ParseDM_ok_cases raw dm c l Hnum Hlast Hok) as [[Hc ->] | [Hc ->]].
  - exists (degrees dm). split; [reflexivity |].
    split; [intros _; exact Hnonneg |].
    split; [intros [-> | ->]; destruct Hc; discriminate |].
    split; [intro Hneg; lra |].
    intros [-> | ->]; destruct Hc; discriminate.
  - exists (0 - degrees dm)%Q. split; [reflexivity |].
    split; [intros [-> | ->]; destruct Hc; discriminate |].
    split; [intros _; lra |].
    split.
    + intro Hneg. split; [exact Hc |].
      destruct (Qlt_le_dec 0 dm) as [Hp | Hn]; [exact Hp |].
      assert (Hle : (degrees dm <= 0)%Q) by (apply Hzero; lra).
      lra.
    + intros _ Hp.
      assert (Hdmpos : (0 < dm)%Q) by lra.
      specialize (Hpos Hdmpos). lra.
Qed.

Lemma hemisphere_sign_witness :
  ParseFloat (TrimSpace (slice_to "3751.65 S" (len "3751.65 S" - 2)))
  = (Finite (75033 # 20), None)
  /\ byte_at "3751.65 S" (len "3751.65 S" - 1) = Ok "S"%char
  /\ (0 <= 75033 # 20)%Q
  /\ ParseDM "3751.65 S" = Ok (Finite (0 - degrees (75033 # 20)))
  /\ exists q : Q, Finite (0 - degrees (75033 # 20)) = Finite q /\ (q < 0)%Q.
Proof.
  assert (Hnum : ParseFloat (TrimSpace (slice_to "3751.65 S" (len "3751.65 S" - 2)))
                 = (Finite (75033 # 20), None)).
  { vm_compute. reflexivity. }
  assert (Hdm : (0 <= 75033 # 20)%Q) by (vm_compute; discriminate).
  assert (Hok : ParseDM "3751.65 S" = Ok (Finite (0 - degrees (75033 # 20)))).
  { vm_compute. reflexivity. }
  split; [exact Hnum |]. split; [reflexivity |].
  split; [exact Hdm |]. split; [exact Hok |].
  destruct (hemisphere_sign goRuntime "3751.65 S" (75033 # 20) "S"
              (Finite (0 - degrees (75033 # 20))) Hnum eq_refl Hdm Hok)
    as [q [Hq [_ [_ [_ Hneg]]]]].
  exists q. split; [exact Hq |].
  apply Hneg; [now left | vm_compute; discriminate].
Defined.

(** The zero coordinate keeps no sign: "0000.0000 S" is accepted and
    parses to 0. *)
Lemma ParseDM_zero_south :
  exists l : Q, ParseDM "0000.0000 S" = Ok (Finite l) /\ (l == 0)%Q.
Proof. eexists. split; [vm_compute; reflexivity | vm_compute; reflexivity]. Qed.

(** C2, counterexample: the suffix S with the number 0000.0000 gives a
    coordinate that is not negative. *)
Lemma hemisphere_sign_law_fails : ~ hemisphere_sign_law goRuntime.
Proof.
  intro Hlaw.
  destruct ParseDM_zero_south as [l [Hok Hz]].
  destruct (Hlaw "0000.0000 S" 0%Q "S"%char (Finite l)) as [[_ Hneg] _];
    [vm_compute; reflexivity | reflexivity | discriminate | exact Hok |].
  assert (Hl : f64.lt l 0%Q = true) by (apply Hneg; now left).
  cbn [f64.lt] in Hl. unfold flt in Hl.
  apply negb_true_iff in Hl.
  assert (Hle : Qle_bool 0 l = true) by (apply Qle_bool_iff; rewrite Hz; apply Qle_refl).
  congruence.
Qed.

Lemma fgt_false_iff (x y : Q) : fgt x y = false <-> (x <= y)%Q.
Proof.
  unfold fgt. rewrite negb_false_iff. apply Qle_bool_iff.
Qed.

(** C7, as the code has it.  [ParseDM] takes no axis, and every call site,
    for a latitude pair or a longitude pair, goes through this one
    function.  Once the number and the final byte are read: a byte other
    than N, S, E, W is refused as a cardinal point; with a finite number,
    the string is accepted exactly when the byte is N or S and the
    magnitude is at most 90, or the byte is E or W and the magnitude is at
    most 180, and the byte then gives the sign; with NaN or an infinity,
    the string is accepted with any of the four letters, and the
    coordinate is NaN. *)
Theorem cardinal_acceptance
    (rt : GoRuntime) (raw : string) (x : float64) (c : ascii) :
  (len raw <? 2) = false ->
  ParseFloat (TrimSpace (slice_to raw (len raw - 2))) = (x, None) ->
  byte_at raw (len raw - 1) = Ok c ->
  (ParseDM raw = Err UnknowValue <-> ~ (c = "N" \/ c = "S" \/ c = "E" \/ c = "W")%char)
  /\ (forall (dm : Q) (l : LatLong.t),
        x = Finite dm ->
        (ParseDM raw = Ok l
         <-> (((c = "N" \/ c = "S")%char /\ (Qabs (degrees dm) <= MaxLat)%Q)
              \/ ((c = "E" \/ c = "W")%char /\ (Qabs (degrees dm) <= MaxLong)%Q))
             /\ l = Finite (signed_by c (degrees dm))))
  /\ ((forall q, x <> Finite q) ->
      forall l : LatLong.t,
        ParseDM raw = Ok l
        <-> (c = "N" \/ c = "S" \/ c = "E" \/ c = "W")%char /\ l = NaN).
Proof.
  intros Hlen Hnum Hlast.
  assert (Hbound : bound_of c = None <-> ~ (c = "N" \/ c = "S" \/ c = "E" \/ c = "W")%char).
  { unfold bound_of.
    destruct (Ascii.eqb_spec c "N") as [-> | HN]; cbn [orb];
      [split; [discriminate | intro H; exfalso; apply H; auto] |].
    destruct (Ascii.eqb_spec c "S") as [-> | HS]; cbn [orb];
      [split; [discriminate | intro H; exfalso; apply H; auto] |].
    destruct (Ascii.eqb_spec c "E") as [-> | HE]; cbn [orb];
      [split; [discriminate | intro H; exfalso; apply H; auto] |].
    destruct (Ascii.eqb_spec c "W") as [-> | HW]; cbn [orb];
      [split; [discriminate | intro H; exfalso; apply H; auto] |].
    split; [| reflexivity]. intros _ [H | [H | [H | H]]]; contradiction. }
  split; [| split].
  - destruct x as [dm | | s].
    + rewrite (ParseDM_eval raw dm c Hlen Hnum Hlast).
      rewrite <- Hbound.
      destruct (bound_of c) as [b |]; [| split; reflexivity].
      destruct (fgt _ b); split; discriminate.
    + rewrite (ParseDM_not_finite raw NaN c Hlen Hnum ltac:(discriminate) Hlast).
      rewrite <- Hbound.
      destruct (bound_of c) as [b |]; [split; discriminate | split; reflexivity].
    + rewrite (ParseDM_not_finite raw (Inf s) c Hlen Hnum ltac:(discriminate) Hlast).
      rewrite <- Hbound.
      destruct (bound_of c) as [b |]; [split; discriminate | split; reflexivity].
  - intros dm l ->.
    rewrite (ParseDM_eval raw dm c Hlen Hnum Hlast).
    clear Hbound. unfold bound_of.
    destruct (Ascii.eqb_spec c "N") as [-> | HN]; cbn [orb].
    { destruct (fgt _ MaxLat) eqn:E; split.
      - discriminate.
      - intros [[[_ Hle] | [[H | H] _]] _]; try discriminate H.
        apply fgt_false_iff in Hle. congruence.
      - intro H. injection H as <-. apply fgt_false_iff in E. auto.
      - intros [_ ->]. reflexivity. }
    destruct (Ascii.eqb_spec c "S") as [-> | HS]; cbn [orb].
    { destruct (fgt _ MaxLat) eqn:E; split.
      - discriminate.
      - intros [[[_ Hle] | [[H | H] _]] _]; try discriminate H.
        apply fgt_false_iff in Hle. congruence.
      - intro H. injection H as <-. apply fgt_false_iff in E. auto.
      - intros [_ ->]. reflexivity. }
    destruct (Ascii.eqb_spec c "E") as [-> | HE]; cbn [orb].
    { destruct (fgt _ MaxLong) eqn:E; split.
      - discriminate.
      - intros [[[[H | H] _] | [_ Hle]] _]; try discriminate H.
        apply fgt_false_iff in Hle. congruence.
      - intro H. injection H as <-. apply fgt_false_iff in E. auto.
      - intros [_ ->]. reflexivity. }
    destruct (Ascii.eqb_spec c "W") as [-> | HW]; cbn [orb].
    { destruct (fgt _ MaxLong) eqn:E; split.
      - discriminate.
      - intros [[[[H | H] _] | [_ Hle]] _]; try discriminate H.
        apply fgt_false_iff in Hle. congruence.
      - intro H. injection H as <-. apply fgt_false_iff in E. auto.
      - intros [_ ->]. reflexivity. }
    split; [discriminate |].
    intros [[[[H | H] _] | [[H | H] _]] _]; contradiction.
  - intros Hx l.
    rewrite (ParseDM_not_finite raw x c Hlen Hnum Hx Hlast).
    destruct (bound_of c) as [b |] eqn:Eb.
    + assert (Hc : (c = "N" \/ c = "S" \/ c = "E" \/ c = "W")%char).
      { destruct (Ascii.eqb_spec c "N"); [auto |].
        destruct (Ascii.eqb_spec c "S"); [auto |].
        destruct (Ascii.eqb_spec c "E"); [auto |].
        destruct (Ascii.eqb_spec c "W"); [auto |].
        exfalso. assert (Hnone : Some b = None) by (apply Hbound; tauto).
        discriminate Hnone. }
      split; [intro H; injection H as <-; auto | intros [_ ->]; reflexivity].
    + split; [discriminate |].
      intros [Hc _]. destruct (proj1 Hbound eq_refl Hc).
Qed.

Lemma cardinal_acceptance_witness :
  (len "3110.2908 E" <? 2) = false
  /\ ParseFloat (TrimSpace (slice_to "3110.2908 E" (len "3110.2908 E" - 2)))
     = (Finite (7775727 # 2500), None)
  /\ byte_at "3110.2908 E" (len "3110.2908 E" - 1) = Ok "E"%char
  /\ ParseDM "3110.2908 E" = Ok (Finite (signed_by "E" (degrees (7775727 # 2500)))).
Proof.
  split; [reflexivity |]. split; [vm_compute; reflexivity |]. split; [reflexivity |].
  apply (proj1 (proj2 (cardinal_acceptance goRuntime "3110.2908 E"
                         (Finite (7775727 # 2500)) "E"
                         eq_refl ltac:(vm_compute; reflexivity) eq_refl))
           (7775727 # 2500) (Finite (signed_by "E" (degrees (7775727 # 2500)))) eq_refl).
  split; [| reflexivity].
  right. split; [now left | vm_compute; discriminate].
Defined.

(** A number that is NaN or an infinity passes the range test: "NaN N"
    and "Inf E" are accepted, and the coordinate is NaN. *)
Lemma ParseDM_accepts_NaN :
  ParseDM "NaN N" = Ok NaN /\ ParseDM "Inf E" = Ok NaN.
Proof. split; vm_compute; reflexivity. Qed.

(** A latitude pair with the suffix E and a longitude pair with the suffix
    N are both accepted. *)
Lemma GPGLL_crossed_axes :
  exists (s : GPGLL.t) (latitude longitude : Q),
    GPGLL.parse (GPGLL.NewGPGLL crossed_axes) = Ok s
    /\ GPGLL.Latitude s = Finite latitude
    /\ GPGLL.Longitude s = Finite longitude
    /\ (latitude == 31 + (102908 # 600000))%Q
    /\ (longitude == 21 + (232348 # 600000))%Q.
Proof.
  do 3 eexists. split; [vm_compute; reflexivity |].
  split; [reflexivity |]. split; [reflexivity |].
  split; vm_compute; reflexivity.
Qed.

(** C7, counterexample: a GPGLL frame whose latitude pair ends in E and
    whose longitude pair ends in N is parsed without an error. *)
Lemma axis_check_law_fails : ~ axis_check_law goRuntime package.
Proof.
  intro Hlaw.
  destruct GPGLL_crossed_axes as [s [latitude [longitude [Hok _]]]].
  specialize (Hlaw (GPGLL.NewGPGLL crossed_axes) eq_refl (or_introl eq_refl)).
  rewrite Hok in Hlaw. discriminate Hlaw.
Qed.

(** ** Optional fields of GGA *)

Lemma len_positive (f : string) : (len f >? 0) = false <-> f = "".
Proof.
  unfold len. destruct f; cbn [String.length].
  - split; reflexivity.
  - split; [| discriminate].
    intro H. rewrite Z.gtb_ltb in H. apply Z.ltb_ge in H. lia.
Qed.

Lemma append_nonempty_r (a b : string) : b <> "" -> a ++ b <> "".
Proof. destruct a; cbn; [auto | discriminate]. Qed.

Lemma append_nonempty_l (a b : string) : a <> "" -> a ++ b <> "".
Proof. destruct a; cbn; [contradiction | discriminate]. Qed.

Lemma digits_nonempty (fuel : nat) :
  forall n acc, acc <> "" -> strconv.digits fuel n acc <> "".
Proof.
  induction fuel as [| fuel IH]; intros n acc Hacc; cbn [strconv.digits].
  - exact Hacc.
  - destruct (n <? 10); [discriminate |]. apply IH. discriminate.
Qed.

Lemma utoa_nonempty (n : Z) : strconv.utoa n <> "".
Proof.
  unfold strconv.utoa. cbn [strconv.digits].
  destruct (n <? 10); [discriminate |]. apply digits_nonempty. discriminate.
Qed.

Lemma zero_pad_nonempty (width : Z) (neg : bool) (body : string) :
  body <> "" -> fmt.zero_pad width neg body <> "".
Proof.
  intro H. unfold fmt.zero_pad.
  apply append_nonempty_r, append_nonempty_r, H.
Qed.

Lemma Sprintf_0d_nonempty (width i : Z) : fmt.Sprintf_0d width i <> "".
Proof. apply zero_pad_nonempty, utoa_nonempty. Qed.

Lemma Sprintf_0f_nonempty (width prec : Z) (x : float64) :
  fmt.Sprintf_0f width prec x <> "".
Proof.
  unfold fmt.Sprintf_0f. destruct x as [q | | negative].
  - apply zero_pad_nonempty, append_nonempty_l, utoa_nonempty.
  - apply append_nonempty_r. discriminate.
  - apply append_nonempty_r. destruct negative; discriminate.
Qed.

Lemma float_if_present_empty {rt : GoRuntime}
    (f : string) (wrap : error -> error) (x y : float64) :
  parse_float_if_present f wrap x = Ok y -> f = "" -> y = x.
Proof.
  unfold parse_float_if_present. intros H Hf.
  apply len_positive in Hf. rewrite Hf in H. now injection H.
Qed.

Lemma float_if_present_read {rt : GoRuntime}
    (f : string) (wrap : error -> error) (x y : float64) :
  parse_float_if_present f wrap x = Ok y -> f <> "" -> ParseFloat f = (y, None).
Proof.
  unfold parse_float_if_present. intros H Hf.
  destruct (len f >? 0) eqn:E; [| apply len_positive in E; contradiction].
  destruct (ParseFloat f) as [v [e |]]; cbn [checked fst snd onErr] in H;
    [discriminate H | now injection H as <-].
Qed.

Lemma parse_optional_absent {rt : GoRuntime} {pkg : Package} {A : Type}
    (f : string) (p : string -> res A) (wrap : error -> error) (o : option A) :
  GPGGA.parse_optional f p wrap None = Ok o -> (o = None <-> f = "").
Proof.
  unfold GPGGA.parse_optional. intro H.
  destruct (len f >? 0) eqn:E.
  - destruct (onErr (p f) wrap); cbn [bind] in H; try discriminate H.
    injection H as <-. split; [discriminate |].
    intro Hf. apply len_positive in Hf. congruence.
  - injection H as <-. split; [| reflexivity].
    intros _. now apply len_positive.
Qed.

Lemma fields_14 (fields : list string) :
  length fields = 14%nat ->
  exists f0 f1 f2 f3 f4 f5 f6 f7 f8 f9 f10 f11 f12 f13,
    fields = [f0; f1; f2; f3; f4; f5; f6; f7; f8; f9; f10; f11; f12; f13].
Proof.
  intro H.
  do 14 (destruct fields as [| ? fields]; [discriminate H |]).
  destruct fields; [| discriminate H].
  repeat eexists.
Qed.

(** C8, as the code has it.  After a successful parse of a new GPGGA, the
    geoidal separation, the DGPS age and the DGPS station are absent
    exactly when their wire field is empty, and serialization emits an
    empty field for them exactly then.  HDOP and altitude are plain
    numbers: an empty field leaves them 0, and a field that is not empty
    gives the number read from it.  Serialization emits an empty
    HDOP field exactly when HDOP is not greater than 0, and otherwise the
    number with one decimal; it emits an empty altitude field when the
    altitude is not greater than 0, and otherwise what [PrependXZero]
    makes of the altitude. *)
Theorem optional_fields
    (rt : GoRuntime) (pkg : Package) (m : Message) (s : GPGGA.t) :
  GPGGA.parse (GPGGA.NewGPGGA m) = Ok s ->
  let field := fun i => nth i (Fields m) "" in
  let out := fun i => nth i (GPGGA.serialized_fields s) "" in
  ((GPGGA.GeoIDSep s = None <-> field 10%nat = "")
   /\ (GPGGA.DGPSAge s = None <-> field 12%nat = "")
   /\ (GPGGA.DGPSStationID s = None <-> field 13%nat = ""))
  /\ ((out 10%nat = "" <-> field 10%nat = "")
      /\ (out 12%nat = "" <-> field 12%nat = "")
      /\ (out 13%nat = "" <-> field 13%nat = ""))
  /\ ((field 7%nat = "" -> GPGGA.HDOP s = Finite 0)
      /\ (field 7%nat <> "" -> ParseFloat (field 7%nat) = (GPGGA.HDOP s, None))
      /\ (field 8%nat = "" -> GPGGA.Altitude s = Finite 0)
      /\ (field 8%nat <> "" -> ParseFloat (field 8%nat) = (GPGGA.Altitude s, None)))
  /\ ((out 7%nat = "" <-> f64.gt (GPGGA.HDOP s) 0%Q = false)
      /\ (f64.gt (GPGGA.HDOP s) 0%Q = true
          -> out 7%nat = fmt.Sprintf_0f 3 1 (GPGGA.HDOP s))
      /\ (f64.gt (GPGGA.Altitude s) 0%Q = false -> out 8%nat = "")
      /\ (f64.gt (GPGGA.Altitude s) 0%Q = true
          -> out 8%nat = PrependXZero (GPGGA.Altitude s) "%03.1f" 4)).
Proof.
  intro Hok. unfold GPGGA.parse in Hok.
  cbn [GPGGA.message GPGGA.NewGPGGA GPGGA.Latitude GPGGA.Longitude GPGGA.HDOP
       GPGGA.Altitude GPGGA.GeoIDSep GPGGA.DGPSAge GPGGA.DGPSStationID] in Hok.
  destruct (Nat.eqb_spec (length (Fields m)) 14) as [Hlen | Hlen];
    cbn [negb] in Hok; [| discriminate Hok].
  destruct (fields_14 (Fields m) Hlen)
    as (f0 & f1 & f2 & f3 & f4 & f5 & f6 & f7 & f8 & f9 & f10 & f11 & f12 & f13 & Hfields).
  rewrite Hfields in *. clear Hfields Hlen.
  cbn [index nth_error] in Hok.
  ok_step Hok. ok_step Hok. ok_step Hok. ok_step Hok. ok_step Hok. ok_step Hok.
  ok_step Hok. ok_step Hok. ok_step Hok. ok_step Hok. ok_step Hok.
  injection Hok as <-.
  cbv zeta.
  cbn [GPGGA.serialized_fields GPGGA.GeoIDSep GPGGA.DGPSAge GPGGA.DGPSStationID
       GPGGA.HDOP GPGGA.Altitude nth].
  match goal with
  | Hg : GPGGA.parse_optional f10 _ _ None = Ok ?g,
    Ha : GPGGA.parse_optional f12 _ _ None = Ok ?a,
    Hs : GPGGA.parse_optional f13 _ _ None = Ok ?st,
    Hh : parse_float_if_present f7 _ (Finite 0) = Ok ?h,
    Hal : parse_float_if_present f8 _ (Finite 0) = Ok ?al |- _ =>
      pose proof (parse_optional_absent _ _ _ _ Hg) as Pg;
      pose proof (parse_optional_absent _ _ _ _ Ha) as Pa;
      pose proof (parse_optional_absent _ _ _ _ Hs) as Ps;
      pose proof (float_if_present_empty _ _ _ _ Hh) as Ph;
      pose proof (float_if_present_empty _ _ _ _ Hal) as Pal;
      pose proof (float_if_present_read _ _ _ _ Hh) as Ph';
      pose proof (float_if_present_read _ _ _ _ Hal) as Pal';
      destruct g as [g |]; destruct a as [a |]; destruct st as [st |];
      destruct (f64.gt h 0%Q) eqn:Eh; destruct (f64.gt al 0%Q) eqn:Eal
  end;
    (split; [split; [exact Pg | split; [exact Pa | exact Ps]] |]);
    (split;
     [ repeat split; intro Hx;
       first [ reflexivity
             | now apply Pg | now apply Pa | now apply Ps
             | exfalso; revert Hx;
               first [apply Sprintf_0f_nonempty | apply Sprintf_0d_nonempty]
             | exfalso; apply Pg in Hx; discriminate
             | exfalso; apply Pa in Hx; discriminate
             | exfalso; apply Ps in Hx; discriminate ]
     | ]);
    (split; [repeat split; assumption |]);
    (repeat split; intros; try reflexivity; try discriminate;
     exfalso; eapply Sprintf_0f_nonempty; eassumption).
Qed.

Lemma optional_fields_witness :
  exists s,
    GPGGA.parse (GPGGA.NewGPGGA (gga_fields "0.6" "0051.6")) = Ok s
    /\ GPGGA.GeoIDSep s <> None
    /\ GPGGA.DGPSAge s = None
    /\ nth 13 (GPGGA.serialized_fields s) "" = ""
    /\ nth 7 (GPGGA.serialized_fields s) "" = "0.6".
Proof.
  eexists.
  match goal with
  | |- ?run = Ok ?s /\ _ => assert (Hok : run = Ok s) by (vm_compute; reflexivity)
  end.
  split; [exact Hok |].
  destruct (optional_fields goRuntime package _ _ Hok)
    as [[Hgeo [Hage _]] [[_ [_ Hout]] [_ [_ [Hhdop _]]]]].
  split; [| split; [| split]].
  - intro Hnone. apply Hgeo in Hnone. discriminate Hnone.
  - now apply Hage.
  - now apply Hout.
  - rewrite (Hhdop eq_refl). vm_compute. reflexivity.
Defined.

(** An HDOP and an altitude that read 0 and ones that are left out give
    the same numbers, and are both serialized as empty fields. *)
Lemma GPGGA_zero_or_absent :
  exists present absent,
    GPGGA.parse (GPGGA.NewGPGGA (gga_fields "0.0" "0.0")) = Ok present
    /\ GPGGA.parse (GPGGA.NewGPGGA (gga_fields "" "")) = Ok absent
    /\ GPGGA.HDOP present = GPGGA.HDOP absent
    /\ GPGGA.Altitude present = GPGGA.Altitude absent
    /\ nth 7 (GPGGA.serialized_fields present) "" = ""
    /\ nth 8 (GPGGA.serialized_fields present) "" = "".
Proof.
  do 2 eexists.
  split; [vm_compute; reflexivity |].
  split; [vm_compute; reflexivity |].
  repeat split.
Qed.

(** C8, counterexample: an HDOP field that reads 0.0 is parsed, and
    serialized as an empty field, so that a value of 0 is not kept apart
    from an absent one. *)
Lemma optional_fields_law_fails : ~ optional_fields_law goRuntime package.
Proof.
  intro Hlaw.
  destruct GPGGA_zero_or_absent as [present [absent [Hok [_ [_ [_ [Hout _]]]]]]].
  pose proof (Hlaw (gga_fields "0.0" "0.0") present 7%nat Hok
                (or_introl eq_refl)) as [Hempty _].
  specialize (Hempty Hout). discriminate Hempty.
Qed.

(** ** Enumerated values *)

Lemma member3 (i a b c : Z) :
  ((i =? a) || (i =? b) || (i =? c)) = true <-> In i [a; b; c].
Proof.
  rewrite !orb_true_iff, !Z.eqb_eq. cbn [In].
  split; intros H; repeat destruct H as [H | H]; auto; contradiction.
Qed.

Lemma member3_false (i a b c : Z) :
  ((i =? a) || (i =? b) || (i =? c)) = false <-> ~ In i [a; b; c].
Proof.
  rewrite <- member3. now destruct ((i =? a) || (i =? b) || (i =? c)).
Qed.

(** What [ParseQualityIndicator] does with a token, by what
    [strconv.ParseInt] makes of it. *)
Lemma ParseQualityIndicator_cases (raw : string) :
  let members := [InvalidIndicator; GNSSS; DGPS] in
  (forall e, snd (strconv.ParseInt10 raw 0) = Some e ->
             ParseQualityIndicator raw = (0, Some e))
  /\ (snd (strconv.ParseInt10 raw 0) = None ->
      In (fst (strconv.ParseInt10 raw 0)) members ->
      ParseQualityIndicator raw = (fst (strconv.ParseInt10 raw 0), None))
  /\ (snd (strconv.ParseInt10 raw 0) = None ->
      ~ In (fst (strconv.ParseInt10 raw 0)) members ->
      ParseQualityIndicator raw = (fst (strconv.ParseInt10 raw 0), Some UnknowValue)).
Proof.
  cbv zeta. unfold ParseQualityIndicator.
  destruct (strconv.ParseInt10 raw 0) as [i [e |]]; cbn [fst snd].
  - repeat split; [intros e' H; now injection H as <- | discriminate | discriminate].
  - repeat split; [discriminate | |].
    + intros _ Hin. apply member3 in Hin. now rewrite Hin.
    + intros _ Hout. apply member3_false in Hout. now rewrite Hout.
Qed.

Lemma ParseFixStatus_cases (raw : string) :
  let members := [FixStatusNoFix; FixStatus2D; FixStatus3D] in
  (forall e, snd (strconv.ParseInt10 raw 0) = Some e ->
             ParseFixStatus raw = (0, Some e))
  /\ (snd (strconv.ParseInt10 raw 0) = None ->
      In (fst (strconv.ParseInt10 raw 0)) members ->
      ParseFixStatus raw = (fst (strconv.ParseInt10 raw 0), None))
  /\ (snd (strconv.ParseInt10 raw 0) = None ->
      ~ In (fst (strconv.ParseInt10 raw 0)) members ->
      exists got, ParseFixStatus raw
                  = (fst (strconv.ParseInt10 raw 0), Some (UnknowValueGot got))).
Proof.
  cbv zeta. unfold ParseFixStatus.
  destruct (strconv.ParseInt10 raw 0) as [i [e |]]; cbn [fst snd].
  - repeat split; [intros e' H; now injection H as <- | discriminate | discriminate].
  - repeat split; [discriminate | |].
    + intros _ Hin. apply member3 in Hin. now rewrite Hin.
    + intros _ Hout. apply member3_false in Hout. rewrite Hout. now eexists.
Qed.

Lemma string_member2 (s a b : string) :
  ((s =? a)%string || (s =? b)%string) = true <-> In s [a; b].
Proof.
  rewrite orb_true_iff, !String.eqb_eq. cbn [In].
  split; intros H; repeat destruct H as [H | H]; auto; contradiction.
Qed.

Lemma string_member4 (s a b c d : string) :
  ((s =? a)%string || (s =? b)%string || (s =? c)%string || (s =? d)%string) = true
  <-> In s [a; b; c; d].
Proof.
  rewrite !orb_true_iff, !String.eqb_eq. cbn [In].
  split; intros H; repeat destruct H as [H | H]; auto; contradiction.
Qed.

Lemma fields_7 (fields : list string) :
  length fields = 7%nat ->
  exists f0 f1 f2 f3 f4 f5 f6, fields = [f0; f1; f2; f3; f4; f5; f6].
Proof.
  intro H.
  do 7 (destruct fields as [| ? fields]; [discriminate H |]).
  destruct fields; [| discriminate H].
  repeat eexists.
Qed.

(** The validity flag of GLL is a comparison with "A". *)
Lemma GPGLL_IsValid {rt : GoRuntime} {pkg : Package} (m s : GPGLL.t) :
  GPGLL.parse m = Ok s ->
  GPGLL.IsValid s = (nth 5 (Fields (GPGLL.message m)) "" =? "A")%string.
Proof.
  intro Hok. unfold GPGLL.parse in Hok.
  destruct (Nat.eqb_spec (length (Fields (GPGLL.message m))) 7) as [Hlen | Hlen];
    cbn [negb] in Hok; [| discriminate Hok].
  destruct (fields_7 _ Hlen) as (f0 & f1 & f2 & f3 & f4 & f5 & f6 & Hfields).
  rewrite Hfields in *. cbn [index nth_error nth] in *.
  repeat ok_step Hok.
  injection Hok as <-. cbn [GPGLL.IsValid].
  repeat match goal with
         | H : Ok _ = Ok _ |- _ => injection H as <-
         end.
  reflexivity.
Qed.

Lemma fields_12 (fields : list string) :
  length fields = 12%nat ->
  exists f0 f1 f2 f3 f4 f5 f6 f7 f8 f9 f10 f11,
    fields = [f0; f1; f2; f3; f4; f5; f6; f7; f8; f9; f10; f11].
Proof.
  intro H.
  do 12 (destruct fields as [| ? fields]; [discriminate H |]).
  destruct fields; [| discriminate H].
  repeat eexists.
Qed.

(** So is the validity flag of RMC. *)
Lemma GPRMC_IsValid {rt : GoRuntime} {pkg : Package} (m s : GPRMC.t) :
  GPRMC.parse m = Ok s ->
  GPRMC.IsValid s = (nth 1 (Fields (GPRMC.message m)) "" =? "A")%string.
Proof.
  intro Hok. unfold GPRMC.parse in Hok.
  destruct (Nat.eqb_spec (length (Fields (GPRMC.message m))) 12) as [Hlen | Hlen];
    cbn [negb] in Hok; [| discriminate Hok].
  destruct (fields_12 _ Hlen)
    as (f0 & f1 & f2 & f3 & f4 & f5 & f6 & f7 & f8 & f9 & f10 & f11 & Hfields).
  rewrite Hfields in *. cbn [index nth_error nth] in *.
  repeat ok_step Hok.
  injection Hok as <-. cbn [GPRMC.IsValid].
  repeat match goal with
         | H : Ok _ = Ok _ |- _ => injection H as <-
         end.
  reflexivity.
Qed.

(** C9, as the code has it.  For the enumerated values with a parse
    function, QualityIndicator (0, 1, 2), FixStatus (1, 2, 3), Mode (M, A)
    and CardinalPoint (N, S, E, W): parsing the serialized form of a member
    (the decimal numeral that [GPGGA.Serialize] writes with [strconv.Itoa],
    the string itself for the two string types) gives the member back; a
    token is accepted only if it reads as a member
    (for the two numbers, as [strconv.ParseInt] reads it in base 10), and
    then it is that member which is returned; any other token is refused
    with an error, "unknow value" when it reads as a number outside the set.
    The validity flag has no parse function: GPGLL and GPRMC set it to
    the comparison of its field with "A", so every other token gives
    Invalid and no error. *)
Theorem enum_totality (rt : GoRuntime) (pkg : Package) (raw : string) :
  ((forall v, In v [InvalidIndicator; GNSSS; DGPS] ->
              ParseQualityIndicator (strconv.Itoa v) = (v, None))
   /\ (forall v, In v [FixStatusNoFix; FixStatus2D; FixStatus3D] ->
                 ParseFixStatus (strconv.Itoa v) = (v, None))
   /\ (forall v, In v [ModeManual; ModeAuto] ->
                 ParseMode (Mode_String v) = (v, None))
   /\ (forall v, In v [North; South; East; West] ->
                 ParseCardinalPoint (CardinalPoint_String v) = (v, None)))
  /\ ((snd (ParseQualityIndicator raw) = None <->
       snd (strconv.ParseInt10 raw 0) = None
       /\ In (fst (strconv.ParseInt10 raw 0)) [InvalidIndicator; GNSSS; DGPS])
      /\ (snd (ParseQualityIndicator raw) = None ->
          fst (ParseQualityIndicator raw) = fst (strconv.ParseInt10 raw 0))
      /\ (snd (strconv.ParseInt10 raw 0) = None ->
          ~ In (fst (strconv.ParseInt10 raw 0)) [InvalidIndicator; GNSSS; DGPS] ->
          snd (ParseQualityIndicator raw) = Some UnknowValue))
  /\ ((snd (ParseFixStatus raw) = None <->
       snd (strconv.ParseInt10 raw 0) = None
       /\ In (fst (strconv.ParseInt10 raw 0)) [FixStatusNoFix; FixStatus2D; FixStatus3D])
      /\ (snd (ParseFixStatus raw) = None ->
          fst (ParseFixStatus raw) = fst (strconv.ParseInt10 raw 0)))
  /\ ((snd (ParseMode raw) = None <-> In raw [ModeManual; ModeAuto])
      /\ fst (ParseMode raw) = raw)
  /\ ((snd (ParseCardinalPoint raw) = None <-> In raw [North; South; East; West])
      /\ fst (ParseCardinalPoint raw) = raw)
  /\ (forall m s : GPGLL.t,
         GPGLL.parse m = Ok s ->
         GPGLL.IsValid s = (nth 5 (Fields (GPGLL.message m)) "" =? "A")%string)
  /\ (forall m s : GPRMC.t,
         GPRMC.parse m = Ok s ->
         GPRMC.IsValid s = (nth 1 (Fields (GPRMC.message m)) "" =? "A")%string).
Proof.
  split.
  { repeat split; intros v Hv; cbn [In] in Hv;
      repeat (destruct Hv as [<- | Hv]; [vm_compute; reflexivity |]);
      destruct Hv. }
  split.
  { destruct (ParseQualityIndicator_cases raw) as [Herr [Hin Hout]].
    destruct (strconv.ParseInt10 raw 0) as [i [e |]] eqn:E; cbn [fst snd] in *.
    - rewrite (Herr e eq_refl). cbn [fst snd].
      repeat split; try discriminate. intros [H _]; discriminate H.
    - destruct (in_dec Z.eq_dec i [InvalidIndicator; GNSSS; DGPS]) as [Hi | Hi].
      + rewrite (Hin eq_refl Hi). cbn [fst snd]. repeat split; auto. contradiction.
      + rewrite (Hout eq_refl Hi). cbn [fst snd].
        repeat split; try discriminate. intros [_ H]; contradiction. }
  split.
  { destruct (ParseFixStatus_cases raw) as [Herr [Hin Hout]].
    destruct (strconv.ParseInt10 raw 0) as [i [e |]] eqn:E; cbn [fst snd] in *.
    - rewrite (Herr e eq_refl). cbn [fst snd].
      repeat split; try discriminate. intros [H _]; discriminate H.
    - destruct (in_dec Z.eq_dec i [FixStatusNoFix; FixStatus2D; FixStatus3D]) as [Hi | Hi].
      + rewrite (Hin eq_refl Hi). cbn [fst snd]. repeat split; auto.
      + destruct (Hout eq_refl Hi) as [got ->]. cbn [fst snd].
        repeat split; try discriminate. intros [_ H]; contradiction. }
  split.
  { unfold ParseMode. rewrite <- string_member2.
    destruct ((raw =? ModeManual)%string || (raw =? ModeAuto)%string); cbn [fst snd];
      repeat split; auto; discriminate. }
  split.
  { unfold ParseCardinalPoint. rewrite <- string_member4.
    destruct ((raw =? North)%string || (raw =? South)%string
              || (raw =? East)%string || (raw =? West)%string); cbn [fst snd];
      repeat split; auto; discriminate. }
  split; intros m s; [apply GPGLL_IsValid | apply GPRMC_IsValid].
Qed.

Lemma enum_totality_witness :
  snd (ParseQualityIndicator "9") = Some UnknowValue
  /\ ParseQualityIndicator (strconv.Itoa DGPS) = (DGPS, None)
  /\ ParseMode (Mode_String ModeAuto) = (ModeAuto, None)
  /\ snd (ParseMode "X") <> None.
Proof.
  destruct (enum_totality goRuntime package "9") as [[Hq [_ [Hm _]]] [[_ [_ Hunk]] _]].
  destruct (enum_totality goRuntime package "X") as [_ [_ [_ [[Hmode _] _]]]].
  split; [| split; [| split]].
  - apply Hunk; [reflexivity |].
    cbn. intros [H | [H | [H | H]]]; try discriminate H. exact H.
  - apply Hq. cbn. auto.
  - apply Hm. cbn. auto.
  - intro Hnone. apply Hmode in Hnone.
    cbn in Hnone. destruct Hnone as [H | [H | H]]; try discriminate H. exact H.
Defined.

(** A validity flag X is read as Invalid, and the sentence is built. *)
Lemma GPGLL_odd_validity :
  exists s,
    GPGLL.parse (GPGLL.NewGPGLL odd_validity) = Ok s /\ GPGLL.IsValid s = false.
Proof. eexists. split; [vm_compute; reflexivity | reflexivity]. Qed.

(** C9, counterexample: the validity token X, which is neither A nor V,
    is not refused. *)
Lemma validity_token_law_fails : ~ validity_token_law goRuntime package.
Proof.
  intro Hlaw.
  destruct GPGLL_odd_validity as [s [Hok _]].
  assert (Herr : isErr (GPGLL.parse (GPGLL.NewGPGLL odd_validity)) = true).
  { apply Hlaw; [reflexivity | discriminate | discriminate]. }
  rewrite Hok in Herr. discriminate Herr.
Qed.

(** ** The round trip of a coordinate *)

Lemma len_app (a b : string) : len (a ++ b) = len a + len b.
Proof.
  unfold len. induction a as [| c a IH]; cbn [append String.length]; [lia |].
  rewrite !Nat2Z.inj_succ. lia.
Qed.

Lemma len_nonneg (s : string) : 0 <= len s.
Proof. unfold len. lia. Qed.

Lemma append_assoc (a b c : string) : (a ++ b) ++ c = a ++ (b ++ c).
Proof. induction a as [| x a IH]; cbn [append]; [reflexivity | now rewrite IH]. Qed.

Lemma dec_value_app (a b : string) :
  forall acc, dec_value (a ++ b) acc = dec_value b (dec_value a acc).
Proof. induction a as [| c a IH]; intro acc; cbn [append dec_value]; [reflexivity | apply IH]. Qed.

Lemma dec_value_shift (s : string) :
  forall acc, dec_value s acc = acc * 10 ^ len s + dec_value s 0.
Proof.
  induction s as [| c s IH]; intro acc; cbn [dec_value].
  - change (len "") with 0. cbn. lia.
  - rewrite IH. rewrite (IH (0 * 10 + _)).
    replace (len (String c s)) with (len s + 1)
      by (unfold len; cbn [String.length]; lia).
    rewrite Z.pow_add_r by (pose proof (len_nonneg s); lia). lia.
Qed.

Lemma dec_value_cons (c : ascii) (s : string) :
  dec_value (String c s) 0 = (byte_val c - 48) * 10 ^ len s + dec_value s 0.
Proof. cbn [dec_value]. rewrite dec_value_shift. lia. Qed.

Lemma all_digits_app (a b : string) :
  all_digits (a ++ b) = all_digits a && all_digits b.
Proof.
  induction a as [| c a IH]; cbn [append all_digits]; [reflexivity |].
  now rewrite IH, andb_assoc.
Qed.

Lemma byte_val_of (z : Z) : 0 <= z < 256 -> byte_val (byte_of z) = z.
Proof.
  intro H. unfold byte_val, byte_of.
  rewrite Z.mod_small by exact H.
  rewrite N_ascii_embedding.
  - apply Z2N.id. lia.
  - change 256%N with (Z.to_N 256). apply Z2N.inj_lt; lia.
Qed.

(** The digits [strconv] writes for [n]: with enough fuel, a string of
    digits that denotes [n], no longer than the bound on [n] allows. *)
Lemma digits_spec (fuel : nat) :
  forall (n : Z) (acc : string) (k : nat),
    0 <= n -> (1 <= k <= fuel)%nat -> n < 10 ^ Z.of_nat k ->
    exists ds,
      strconv.digits fuel n acc = ds ++ acc
      /\ all_digits ds = true
      /\ 1 <= len ds <= Z.of_nat k
      /\ dec_value ds 0 = n.
Proof.
  induction fuel as [| fuel IH]; intros n acc k Hn Hk Hlt; [lia |].
  cbn [strconv.digits].
  assert (Hdigit : is_digit (byte_of (48 + n mod 10)) = true
                   /\ byte_val (byte_of (48 + n mod 10)) - 48 = n mod 10).
  { pose proof (Z.mod_pos_bound n 10 ltac:(lia)) as Hm.
    unfold is_digit. rewrite byte_val_of by lia.
    split; [apply andb_true_intro; split; apply Z.leb_le; lia | lia]. }
  destruct Hdigit as [Hd Hv].
  destruct (Z.ltb_spec n 10) as [Hsmall | Hbig].
  - exists (String (byte_of (48 + n mod 10)) EmptyString).
    repeat split.
    + cbn [all_digits]. now rewrite Hd.
    + unfold len. cbn. lia.
    + unfold len. cbn [String.length]. lia.
    + cbn [dec_value]. rewrite Hv. rewrite Z.mod_small; lia.
  - assert (Hk2 : (2 <= k)%nat).
    { destruct k as [| [| k]]; [lia | | lia]. cbn in Hlt. lia. }
    destruct (IH (n / 10) (String (byte_of (48 + n mod 10)) acc) (k - 1)%nat)
      as [ds [Heq [Hall [Hlen Hval]]]].
    + apply Z.div_pos; lia.
    + lia.
    + apply Z.div_lt_upper_bound; [lia |].
      replace (Z.of_nat k) with (1 + Z.of_nat (k - 1)) in Hlt by lia.
      rewrite Z.pow_add_r in Hlt by lia. exact Hlt.
    + exists (ds ++ String (byte_of (48 + n mod 10)) EmptyString).
      repeat split.
      * rewrite Heq. now rewrite append_assoc.
      * rewrite all_digits_app, Hall. cbn [all_digits]. now rewrite Hd.
      * rewrite len_app. unfold len at 2. cbn [String.length]. lia.
      * rewrite len_app. unfold len at 2. cbn [String.length]. lia.
      * rewrite dec_value_app, Hval. cbn [dec_value]. rewrite Hv.
        pose proof (Z.div_mod n 10 ltac:(lia)). lia.
Qed.

Lemma lt_pow10_log2 (n : Z) : 0 <= n -> n < 10 ^ Z.of_nat (S (Z.to_nat (Z.log2 n))).
Proof.
  intro Hn. rewrite Nat2Z.inj_succ, Z2Nat.id by apply Z.log2_nonneg.
  destruct (Z.eq_dec n 0) as [-> | Hnz]; [cbn; lia |].
  pose proof (Z.log2_spec n ltac:(lia)) as [_ Hup].
  apply Z.lt_le_trans with (1 := Hup).
  apply Z.pow_le_mono_l. pose proof (Z.log2_nonneg n). lia.
Qed.

Lemma utoa_spec (n : Z) (k : nat) :
  0 <= n -> (1 <= k)%nat -> n < 10 ^ Z.of_nat k ->
  all_digits (strconv.utoa n) = true
  /\ 1 <= len (strconv.utoa n) <= Z.of_nat k
  /\ dec_value (strconv.utoa n) 0 = n.
Proof.
  intros Hn Hk Hlt. unfold strconv.utoa.
  set (fuel := S (Z.to_nat (Z.log2 n))).
  destruct (digits_spec fuel n "" (Nat.min k fuel)) as [ds [Heq [Hall [Hlen Hval]]]].
  - exact Hn.
  - subst fuel. lia.
  - destruct (Nat.min_spec k fuel) as [[_ ->] | [_ ->]];
      [exact Hlt | apply lt_pow10_log2; exact Hn].
  - assert (Hds : strconv.digits fuel n "" = ds).
    { rewrite Heq. clear. induction ds as [| c ds IH]; cbn; [reflexivity | now rewrite IH]. }
    rewrite Hds. repeat split; try assumption; lia.
Qed.

Lemma all_digits_zeros (n : nat) : all_digits (fmt.zeros n) = true.
Proof. induction n as [| n IH]; cbn [fmt.zeros all_digits]; [reflexivity | exact IH]. Qed.

Lemma dec_value_zeros (n : nat) : dec_value (fmt.zeros n) 0 = 0.
Proof. induction n as [| n IH]; cbn [fmt.zeros dec_value]; [reflexivity | exact IH]. Qed.

Lemma len_zeros (n : nat) : len (fmt.zeros n) = Z.of_nat n.
Proof.
  unfold len. induction n as [| n IH]; cbn [fmt.zeros String.length]; [reflexivity |].
  rewrite !Nat2Z.inj_succ. lia.
Qed.

(** A number padded with zeros: digits, at least [width] of them, the
    same number. *)
Lemma zero_pad_spec (width : Z) (body : string) :
  all_digits body = true ->
  all_digits (fmt.zero_pad width false body) = true
  /\ len (fmt.zero_pad width false body) = Z.max width (len body)
  /\ dec_value (fmt.zero_pad width false body) 0 = dec_value body 0.
Proof.
  intro Hall. unfold fmt.zero_pad. cbn [append].
  change (len "") with 0.
  repeat split.
  - now rewrite all_digits_app, all_digits_zeros.
  - rewrite len_app, len_zeros. pose proof (len_nonneg body). lia.
  - now rewrite dec_value_app, dec_value_zeros.
Qed.

(** *** Trimming zeros *)

Lemma TrimLeft_point (i f : string) :
  strings.TrimLeft (i ++ String "." f) "0" = strings.TrimLeft i "0" ++ String "." f.
Proof.
  induction i as [| c i IH]; cbn [append strings.TrimLeft].
  - reflexivity.
  - destruct (strings.contains_byte "0" c); [exact IH | reflexivity].
Qed.

Lemma TrimRight_point (x f : string) :
  strings.TrimRight (x ++ String "." f) "0" = x ++ String "." (strings.TrimRight f "0").
Proof.
  induction x as [| c x IH]; cbn [append strings.TrimRight].
  - now destruct (strings.TrimRight f "0").
  - rewrite IH. now destruct x.
Qed.

Lemma TrimLeft_digits (i : string) :
  all_digits i = true ->
  all_digits (strings.TrimLeft i "0") = true
  /\ dec_value (strings.TrimLeft i "0") 0 = dec_value i 0.
Proof.
  induction i as [| c i IH]; intro Hall; cbn [strings.TrimLeft].
  - now split.
  - cbn [all_digits] in Hall. apply andb_prop in Hall as [Hc Hi].
    cbn [strings.contains_byte]. rewrite orb_false_r.
    destruct (Ascii.eqb_spec "0" c) as [<- | Hne].
    + destruct (IH Hi) as [H1 H2]. split; [exact H1 |]. rewrite H2. reflexivity.
    + split; [| reflexivity]. cbn [all_digits]. now rewrite Hc, Hi.
Qed.

Lemma TrimRight_digits (f : string) :
  all_digits f = true ->
  let f' := strings.TrimRight f "0" in
  all_digits f' = true
  /\ len f' <= len f
  /\ dec_value f' 0 * 10 ^ (len f - len f') = dec_value f 0.
Proof.
  induction f as [| c f IH]; intro Hall; cbv zeta.
  - cbn. repeat split; lia.
  - cbn [all_digits] in Hall. apply andb_prop in Hall as [Hc Hf].
    destruct (IH Hf) as [Hall' [Hlen Hval]].
    cbn [strings.TrimRight].
    assert (Hl : len (String c f) = len f + 1)
      by (unfold len; cbn [String.length]; lia).
    destruct (strings.TrimRight f "0") as [| c' f'] eqn:Etrim.
    + cbn [strings.contains_byte]. rewrite orb_false_r.
      change (len "") with 0 in *. cbn [dec_value] in Hval.
      destruct (Ascii.eqb_spec "0" c) as [<- | Hne].
      * change (len "") with 0.
        split; [reflexivity |]. split; [lia |].
        cbn [dec_value]. rewrite dec_value_shift. rewrite <- Hval.
        change (byte_val "0") with 48. lia.
      * split; [| split].
        -- cbn [all_digits]. now rewrite Hc.
        -- unfold len at 1. cbn [String.length]. pose proof (len_nonneg f). lia.
        -- cbn [dec_value]. rewrite (dec_value_shift f). rewrite <- Hval.
           replace (len (String c f) - len (String c "")) with (len f)
             by (rewrite Hl; unfold len at 3; cbn [String.length]; lia).
           rewrite Z.sub_0_r. lia.
    + split; [| split].
      * cbn [all_digits]. rewrite Hc. exact Hall'.
      * rewrite Hl. unfold len at 1. cbn [String.length].
        unfold len at 1 in Hlen. cbn [String.length] in Hlen. lia.
      * set (t := String c' f') in *.
        assert (Hl' : len (String c t) = len t + 1)
          by (unfold len; cbn [String.length]; lia).
        rewrite Hl, Hl'.
        replace (len f + 1 - (len t + 1)) with (len f - len t) by lia.
        rewrite (dec_value_cons c t), (dec_value_cons c f).
        assert (Hsplit : 10 ^ len f = 10 ^ len t * 10 ^ (len f - len t)).
        { rewrite <- Z.pow_add_r by (pose proof (len_nonneg t); lia).
          f_equal. lia. }
        rewrite Hsplit, <- Hval. ring.
Qed.

(** *** Reading a decimal numeral back *)

Lemma append_nil_r (s : string) : s ++ "" = s.
Proof. induction s as [| c s IH]; cbn [append]; [reflexivity | now rewrite IH]. Qed.

Lemma read_digits_app (a r : string) :
  all_digits a = true ->
  (forall c r', r = String c r' -> is_digit c = false) ->
  forall n cnt, Runtime.read_digits (a ++ r) n cnt = (dec_value a n, cnt + len a, r).
Proof.
  intros Hall Hr. induction a as [| c a IH]; intros n cnt; cbn [append dec_value].
  - change (len "") with 0. rewrite Z.add_0_r.
    destruct r as [| c r']; cbn [Runtime.read_digits]; [reflexivity |].
    now rewrite (Hr c r' eq_refl).
  - cbn [all_digits] in Hall. apply andb_prop in Hall as [Hc Ha].
    cbn [Runtime.read_digits]. rewrite Hc. rewrite (IH Ha).
    f_equal. f_equal. unfold len. cbn [String.length]. lia.
Qed.

Lemma digit_is_no_mark (c : ascii) :
  is_digit c = true ->
  Ascii.eqb c "-" = false /\ Ascii.eqb c "+" = false /\ Ascii.eqb c "." = false.
Proof.
  intro H.
  repeat split; destruct (Ascii.eqb_spec c "-"), (Ascii.eqb_spec c "+"),
    (Ascii.eqb_spec c "."); subst; try reflexivity; discriminate H.
Qed.

Lemma plain_app (a b : string) : plain (a ++ b) = plain a && plain b.
Proof.
  induction a as [| c a IH]; cbn [append plain]; [reflexivity |].
  now rewrite IH, andb_assoc.
Qed.

Lemma plain_digits (s : string) : all_digits s = true -> plain s = true.
Proof.
  induction s as [| c s IH]; cbn [all_digits plain]; [reflexivity |].
  intro H. apply andb_prop in H as [Hc Hs]. now rewrite Hc, (IH Hs).
Qed.

Lemma plain_point (i f : string) :
  all_digits i = true -> all_digits f = true -> plain (i ++ String "." f) = true.
Proof.
  intros Hi Hf. rewrite plain_app, (plain_digits i Hi). cbn [plain andb].
  change (Ascii.eqb "." ".") with true. rewrite orb_true_r. cbn [andb].
  now apply plain_digits.
Qed.

(** A digit or a point is no letter. *)
Lemma upper_plain (c : ascii) :
  (is_digit c || Ascii.eqb c ".") = true ->
  upper c = c /\ Ascii.eqb c "I" = false /\ Ascii.eqb c "N" = false
  /\ Ascii.eqb c "+" = false /\ Ascii.eqb c "-" = false.
Proof.
  intro H.
  assert (Hv : byte_val c <= 57).
  { destruct (Ascii.eqb_spec c "."); [subst; vm_compute; discriminate |].
    rewrite orb_false_r in H. unfold is_digit in H.
    apply andb_prop in H as [_ H]. now apply Z.leb_le. }
  assert (Hlow : 46 <= byte_val c).
  { destruct (Ascii.eqb_spec c "."); [subst; vm_compute; discriminate |].
    rewrite orb_false_r in H. unfold is_digit in H.
    apply andb_prop in H as [H _]. apply Z.leb_le in H. lia. }
  split.
  - unfold upper. destruct (Z.leb_spec 97 (byte_val c)); [lia | reflexivity].
  - repeat split;
      match goal with
      | |- Ascii.eqb c ?k = false =>
          destruct (Ascii.eqb_spec c k) as [-> | _]; [| reflexivity];
          exfalso; revert Hv Hlow; vm_compute; intros Hv Hlow;
          first [now apply Hv | now apply Hlow]
      end.
Qed.

(** Digits and points spell none of the special values. *)
Lemma not_special_word (r : string) :
  plain r = true ->
  (to_upper r =? "INF")%string = false
  /\ (to_upper r =? "INFINITY")%string = false
  /\ (to_upper r =? "NAN")%string = false.
Proof.
  destruct r as [| c r']; cbn [plain to_upper]; [repeat split; reflexivity |].
  intro H. apply andb_prop in H as [Hc _].
  destruct (upper_plain c Hc) as [-> [HI [HN _]]].
  cbn [String.eqb]. rewrite HI, HN. repeat split; reflexivity.
Qed.

Lemma special_plain (s : string) : plain s = true -> Runtime.special s = None.
Proof.
  intro H. destruct (not_special_word s H) as [H1 [H2 H3]].
  unfold Runtime.special. destruct s as [| c r]; [reflexivity |].
  cbn [plain] in H. apply andb_prop in H as [Hc _].
  destruct (upper_plain c Hc) as [_ [_ [_ [-> ->]]]]. cbn [orb].
  now rewrite H1, H2, H3.
Qed.

Lemma special_minus_plain (s : string) :
  plain s = true -> Runtime.special (String "-" s) = None.
Proof.
  intro H. destruct (not_special_word s H) as [H1 [H2 _]].
  unfold Runtime.special.
  change (Ascii.eqb "-" "+" || Ascii.eqb "-" "-") with true. cbv iota.
  now rewrite H1, H2.
Qed.

(** [ParseFloat] on digits, a point, digits. *)
Lemma ParseFloat_point (i f : string) :
  all_digits i = true -> all_digits f = true -> 0 < len i + len f ->
  Runtime.ParseFloat (i ++ String "." f)
  = (Finite (Qred (Qmake (dec_value f (dec_value i 0)) (Z.to_pos (10 ^ len f)))), None).
Proof.
  intros Hi Hf Hlen. unfold Runtime.ParseFloat.
  rewrite (special_plain _ (plain_point i f Hi Hf)).
  assert (Hbody :
    match i ++ String "." f with
    | String c r =>
        if Ascii.eqb c "-" then (true, r)
        else if Ascii.eqb c "+" then (false, r)
        else (false, i ++ String "." f)
    | EmptyString => (false, i ++ String "." f)
    end = (false, i ++ String "." f)).
  { destruct i as [| c i']; cbn [append]; [reflexivity |].
    cbn [all_digits] in Hi. apply andb_prop in Hi as [Hc _].
    destruct (digit_is_no_mark c Hc) as [-> [-> _]]. reflexivity. }
  rewrite Hbody.
  rewrite (read_digits_app i (String "." f) Hi)
    by (intros c r' H; injection H as <- _; reflexivity).
  cbn [Ascii.eqb Bool.eqb].
  change (Ascii.eqb "." ".") with true. cbv iota.
  pose proof (read_digits_app f "" Hf ltac:(discriminate) (dec_value i 0) 0) as Hfrac.
  rewrite append_nil_r in Hfrac. rewrite Hfrac.
  cbn [String.eqb andb].
  assert (Hpos : (0 <? 0 + len i + (0 + len f)) = true) by (apply Z.ltb_lt; lia).
  rewrite Hpos. rewrite Z.add_0_l. reflexivity.
Qed.

(** *** White space, slices and bytes of the string handed to [ParseDM] *)

Lemma plain_no_space (c : ascii) :
  (is_digit c || Ascii.eqb c ".") = true ->
  strings.contains_byte Runtime.ascii_space c = false.
Proof.
  intro H. unfold Runtime.ascii_space. cbn [strings.contains_byte].
  repeat match goal with
         | |- context [Ascii.eqb ?k c] =>
             destruct (Ascii.eqb_spec k c) as [<- | _]; [discriminate H |]
         end.
  reflexivity.
Qed.

Lemma TrimLeft_plain (s : string) :
  plain s = true -> strings.TrimLeft s Runtime.ascii_space = s.
Proof.
  destruct s as [| c s]; cbn [plain strings.TrimLeft]; [reflexivity |].
  intro H. apply andb_prop in H as [Hc _]. now rewrite (plain_no_space c Hc).
Qed.

Lemma TrimRight_plain (s : string) :
  plain s = true -> strings.TrimRight s Runtime.ascii_space = s.
Proof.
  induction s as [| c s IH]; cbn [plain strings.TrimRight]; [reflexivity |].
  intro H. apply andb_prop in H as [Hc Hs]. rewrite (IH Hs).
  destruct s; [now rewrite (plain_no_space c Hc) | reflexivity].
Qed.

Lemma TrimSpace_plain (s : string) : plain s = true -> Runtime.TrimSpace s = s.
Proof.
  intro H. unfold Runtime.TrimSpace, strings.Trim.
  now rewrite (TrimLeft_plain s H), (TrimRight_plain s H).
Qed.

Lemma substring_prefix (a b : string) : substring 0 (String.length a) (a ++ b) = a.
Proof.
  induction a as [| c a IH]; cbn [append String.length substring].
  - now destruct b.
  - now rewrite IH.
Qed.

Lemma get_append (a b : string) (n : nat) :
  String.get (String.length a + n) (a ++ b) = String.get n b.
Proof. induction a as [| c a IH]; cbn [append String.length Nat.add String.get]; [reflexivity | exact IH]. Qed.

Lemma raw_parts (t : string) (x : ascii) :
  let raw := t ++ " " ++ String x EmptyString in
  (len raw <? 2) = false
  /\ slice_to raw (len raw - 2) = t
  /\ byte_at raw (len raw - 1) = Ok x.
Proof.
  cbv zeta.
  assert (Hlen : len (t ++ " " ++ String x "") = len t + 2).
  { rewrite len_app. unfold len at 2. cbn [String.length append]. lia. }
  rewrite Hlen. pose proof (len_nonneg t) as Ht.
  split; [apply Z.ltb_ge; lia |]. split.
  - unfold slice_to. replace (len t + 2 - 2) with (len t) by lia.
    unfold len. rewrite Nat2Z.id. apply substring_prefix.
  - unfold byte_at.
    destruct (Z.ltb_spec (len t + 2 - 1) 0) as [H | _]; [lia |].
    replace (Z.to_nat (len t + 2 - 1)) with (String.length t + 1)%nat
      by (unfold len; lia).
    rewrite get_append. reflexivity.
Qed.

(** *** A coordinate on the grid of the wire and its degree-minute form *)

Lemma grid_fraction (k : Z) :
  0 <= k < 60000000 -> (0 <= k # 60000000)%Q /\ (k # 60000000 < 1)%Q.
Proof. intro H. unfold Qle, Qlt. cbn [Qnum Qden]. lia. Qed.

Lemma Qfloor_unique (x : Q) (z : Z) :
  (inject_Z z <= x)%Q -> (x < inject_Z z + 1)%Q -> Qfloor x = z.
Proof.
  intros Hlo Hhi.
  pose proof (Qfloor_le x) as Flo. pose proof (Qlt_floor x) as Fhi.
  rewrite inject_Z_plus in Fhi. change (inject_Z 1) with 1%Q in Fhi.
  assert (H1 : (inject_Z (Qfloor x) < inject_Z (z + 1))%Q)
    by (rewrite inject_Z_plus; change (inject_Z 1) with 1%Q; lra).
  assert (H2 : (inject_Z z < inject_Z (Qfloor x + 1))%Q)
    by (rewrite inject_Z_plus; change (inject_Z 1) with 1%Q; lra).
  rewrite <- Zlt_Qlt in H1, H2. lia.
Qed.

Lemma Qfloor_on_grid (d k : Z) : 0 <= k < 60000000 -> Qfloor (on_grid d k) = d.
Proof.
  intro Hk. destruct (grid_fraction k Hk) as [H0 H1].
  apply Qfloor_unique; unfold on_grid; lra.
Qed.

Lemma DM_on_grid (d k : Z) :
  0 <= d -> 0 <= k < 60000000 ->
  LatLong.DM (on_grid d k) = (d, Finite ((on_grid d k - inject_Z d) * 60)).
Proof.
  intros Hd Hk. unfold LatLong.DM. cbn [f64.ge].
  assert (Hge : fge (on_grid d k) 0 = true).
  { unfold fge. apply Qle_bool_iff. destruct (grid_fraction k Hk) as [H0 _].
    assert (0 <= inject_Z d)%Q by (change 0%Q with (inject_Z 0); now rewrite <- Zle_Qle).
    unfold on_grid. lra. }
  rewrite Hge. cbn [math.Floor f64.sub f64.mul]. rewrite (Qfloor_on_grid d k Hk).
  f_equal. unfold int_of_float. cbn [Qnum Qden inject_Z]. apply Z.quot_1_r.
Qed.

Lemma round_half_even_integer (x : Q) (z : Z) :
  (x == inject_Z z)%Q -> fmt.round_half_even x = z.
Proof.
  unfold Qeq. cbn [Qnum Qden inject_Z]. intro H. rewrite Z.mul_1_r in H.
  unfold fmt.round_half_even. rewrite H.
  rewrite Z.div_mul by discriminate. rewrite Z.mod_mul by discriminate.
  cbn [Z.mul]. reflexivity.
Qed.

Lemma minutes_on_grid (d k : Z) :
  ((on_grid d k - inject_Z d) * 60 == k # 1000000)%Q.
Proof. unfold on_grid, Qeq. cbn. ring. Qed.

Lemma Sprintf_minutes (m : Q) (k : Z) :
  0 <= k -> (m == k # 1000000)%Q ->
  fmt.Sprintf_0f 9 6 m
  = fmt.zero_pad 9 false
      (strconv.utoa (k / 1000000) ++ "." ++ fmt.zero_pad 6 false (strconv.utoa (k mod 1000000))).
Proof.
  intros Hk Hm. unfold fmt.Sprintf_0f.
  change (10 ^ 6) with 1000000. change (6 <=? 0) with false. cbv iota.
  assert (Hpos : (0 <= m)%Q) by (rewrite Hm; unfold Qle; cbn [Qnum Qden]; lia).
  assert (Hflt : flt m 0 = false).
  { unfold flt. apply negb_false_iff. now apply Qle_bool_iff. }
  rewrite Hflt.
  assert (Hround : fmt.round_half_even (Qabs m * inject_Z 1000000)%Q = k).
  { apply round_half_even_integer. rewrite (Qabs_pos m Hpos), Hm.
    unfold Qeq. cbn. ring. }
  rewrite Hround. reflexivity.
Qed.

Lemma utoa_digits (n : Z) :
  0 <= n -> all_digits (strconv.utoa n) = true /\ dec_value (strconv.utoa n) 0 = n.
Proof.
  intro Hn.
  destruct (utoa_spec n (S (Z.to_nat (Z.log2 n))) Hn ltac:(lia) (lt_pow10_log2 n Hn))
    as [H1 [_ H2]].
  now split.
Qed.

(** [ToDM] of a positive coordinate on the grid: the degrees and the two
    digits of the minutes, a point, and the six digits of the fraction,
    trimmed of zeros. *)
Lemma ToDM_on_grid (d k : Z) :
  0 <= d -> 0 <= k < 60000000 -> 0 < d + k ->
  exists i f,
    LatLong.ToDM (on_grid d k) = strings.Trim (i ++ String "." f) "0"
    /\ all_digits i = true /\ all_digits f = true /\ len f = 6
    /\ dec_value i 0 = 100 * d + k / 1000000
    /\ dec_value f 0 = k mod 1000000.
Proof.
  intros Hd Hk Hpos.
  assert (Hmi : 0 <= k / 1000000 < 100).
  { split; [apply Z.div_pos; lia | apply Z.div_lt_upper_bound; lia]. }
  assert (Hmf : 0 <= k mod 1000000 < 1000000) by (apply Z.mod_pos_bound; lia).
  destruct (utoa_digits d Hd) as [Dall Dval].
  destruct (utoa_spec (k / 1000000) 2 ltac:(lia) ltac:(lia) ltac:(cbn; lia))
    as [Mall [Mlen Mval]].
  destruct (utoa_spec (k mod 1000000) 6 ltac:(lia) ltac:(lia) ltac:(cbn; lia))
    as [Fall [Flen Fval]].
  destruct (zero_pad_spec 2 (strconv.utoa d) Dall) as [PDall [_ PDval]].
  destruct (zero_pad_spec 6 (strconv.utoa (k mod 1000000)) Fall) as [PFall [PFlen PFval]].
  set (F := fmt.zero_pad 6 false (strconv.utoa (k mod 1000000))) in *.
  set (z := Z.to_nat (9 - len "" - len (strconv.utoa (k / 1000000) ++ "." ++ F))).
  exists (fmt.zero_pad 2 false (strconv.utoa d) ++ fmt.zeros z ++ strconv.utoa (k / 1000000)), F.
  assert (HlenF : len F = 6) by lia.
  assert (Hz : Z.of_nat z + len (strconv.utoa (k / 1000000)) = 2).
  { subst z. rewrite len_app. change (len "") with 0.
    replace (len ("." ++ F)) with (len F + 1)
      by (unfold len; cbn [append String.length]; lia).
    lia. }
  split.
  { unfold LatLong.ToDM. cbn [f64.eq].
    assert (Hne : feq (on_grid d k) 0 = false).
    { unfold feq. apply not_true_is_false. intro H. apply Qeq_bool_iff in H.
      revert H. unfold on_grid, Qeq. cbn. lia. }
    rewrite Hne, (DM_on_grid d k Hd Hk).
    rewrite (Sprintf_minutes _ k (proj1 Hk) (minutes_on_grid d k)).
    unfold fmt.Sprintf_0d.
    replace (d <? 0) with false by (symmetry; apply Z.ltb_ge; exact Hd).
    rewrite (Z.abs_eq d Hd).
    f_equal. fold F.
    unfold fmt.zero_pad at 2. fold z. cbn [append].
    now rewrite !append_assoc. }
  split.
  { now rewrite !all_digits_app, PDall, all_digits_zeros, Mall. }
  split; [exact PFall |]. split; [exact HlenF |]. split; [| lia].
  rewrite dec_value_app, PDval, Dval.
  rewrite dec_value_shift, len_app, len_zeros, Hz.
  rewrite dec_value_app, dec_value_zeros, Mval. lia.
Qed.

Lemma degrees_on_grid (dm : Q) (d k : Z) :
  0 <= k < 60000000 ->
  (dm == inject_Z (100 * d) + (k # 1000000))%Q ->
  (degrees dm == on_grid d k)%Q.
Proof.
  intros Hk Hdm.
  assert (Hrel : (k # 1000000 == 60 * (k # 60000000))%Q)
    by (unfold Qeq, Qmult; cbn [Qnum Qden]; lia).
  destruct (grid_fraction k Hk) as [H0 H1].
  rewrite inject_Z_mult in Hdm. change (inject_Z 100) with 100%Q in Hdm.
  assert (Hfloor : Qfloor (dm / 100) = d).
  { apply Qfloor_unique; by_constants; lra. }
  unfold degrees, on_grid. rewrite Hfloor. by_constants. lra.
Qed.

(** The number [ParseFloat] reads from the trimmed degree-minute form. *)
Lemma ParseFloat_trimmed (i f : string) (whole frac : Z) :
  all_digits i = true -> all_digits f = true -> len f = 6 ->
  dec_value i 0 = whole -> dec_value f 0 = frac -> 0 < whole + frac ->
  exists dm : Q,
    Runtime.ParseFloat (strings.Trim (i ++ String "." f) "0") = (Finite dm, None)
    /\ plain (strings.Trim (i ++ String "." f) "0") = true
    /\ (dm == inject_Z whole + (frac # 1000000))%Q.
Proof.
  intros Hi Hf Hlen Hwhole Hfrac Hpos.
  unfold strings.Trim. rewrite TrimLeft_point, TrimRight_point.
  destruct (TrimLeft_digits i Hi) as [Hi' Hvi].
  destruct (TrimRight_digits f Hf) as [Hf' [Hlf Hvf]]. cbv zeta in *.
  set (i' := strings.TrimLeft i "0") in *.
  set (f' := strings.TrimRight f "0") in *.
  assert (Hsome : 0 < len i' + len f').
  { pose proof (len_nonneg i'). pose proof (len_nonneg f').
    destruct i' as [| c i'']; [| unfold len at 1; cbn [String.length]; lia].
    destruct f' as [| c f'']; [| unfold len at 2; cbn [String.length]; lia].
    cbn [dec_value] in Hvi, Hvf. lia. }
  eexists. split; [apply (ParseFloat_point i' f' Hi' Hf' Hsome) |]. split.
  - rewrite plain_app. cbn [plain]. rewrite (plain_digits i' Hi'), (plain_digits f' Hf').
    reflexivity.
  - rewrite Qred_correct. rewrite dec_value_shift, Hvi, Hwhole.
    pose proof (len_nonneg f') as Hn.
    assert (Hp : 0 < 10 ^ len f') by (apply Z.pow_pos_nonneg; lia).
    assert (H6 : 1000000 = 10 ^ len f' * 10 ^ (len f - len f')).
    { rewrite <- Z.pow_add_r by lia. replace (len f' + (len f - len f')) with 6 by lia.
      reflexivity. }
    unfold Qeq. cbn [Qnum Qden Qplus inject_Z Qmult].
    rewrite Z2Pos.id by exact Hp.
    rewrite <- Hfrac, <- Hvf.
    change (Z.pos (1 * 1000000)) with 1000000.
    rewrite H6 at 1 2. ring.
Qed.

(** X1. The round trip that does hold: a positive coordinate on the grid of
    the wire (whole degrees and millionths of a minute), within the range
    of its axis, written by [ToDM], followed by a space and its cardinal
    point, is read back by [ParseDM] as the same coordinate. *)
Theorem roundtrip_on_grid (d k : Z) (isLatitude : bool) :
  0 <= d -> 0 <= k < 60000000 -> 0 < d + k ->
  (on_grid d k <= (if isLatitude then MaxLat else MaxLong))%Q ->
  exists back : Q,
    ParseDM (LatLong.ToDM (on_grid d k) ++ " "
             ++ LatLong.CardinalPoint (on_grid d k) isLatitude) = Ok (Finite back)
    /\ (back == on_grid d k)%Q.
Proof.
  intros Hd Hk Hpos Hrange.
  assert (Hgt : (0 < on_grid d k)%Q).
  { unfold on_grid, Qlt. cbn. lia. }
  destruct (ToDM_on_grid d k Hd Hk Hpos) as (i & f & HT & Hi & Hf & Hlen & Hvi & Hvf).
  destruct (ParseFloat_trimmed i f _ _ Hi Hf Hlen Hvi Hvf) as (dm & Hnum & Hplain & Hdm).
  { pose proof (Z.div_mod k 1000000 ltac:(lia)).
    pose proof (Z.mod_pos_bound k 1000000 ltac:(lia)).
    assert (0 <= k / 1000000) by (apply Z.div_pos; lia). lia. }
  rewrite <- HT in Hnum, Hplain.
  set (x := if isLatitude then "N"%char else "E"%char).
  assert (Hcp : LatLong.CardinalPoint (on_grid d k) isLatitude = String x EmptyString).
  { unfold LatLong.CardinalPoint. cbn [f64.eq f64.lt]. unfold feq, flt.
    assert (Hne : Qeq_bool (on_grid d k) 0 = false).
    { apply not_true_is_false. intro H. apply Qeq_bool_iff in H. lra. }
    assert (Hle : Qle_bool 0 (on_grid d k) = true) by (apply Qle_bool_iff; lra).
    rewrite Hne, Hle. subst x. now destruct isLatitude. }
  rewrite Hcp.
  destruct (raw_parts (LatLong.ToDM (on_grid d k)) x) as (Hlen2 & Hslice & Hlast).
  assert (Hdeg : (degrees dm == on_grid d k)%Q).
  { apply degrees_on_grid; [exact Hk |].
    rewrite Hdm.
    assert (Hk' : (k # 1000000 == inject_Z (k / 1000000) + (k mod 1000000 # 1000000))%Q).
    { unfold Qeq. cbn. pose proof (Z.div_mod k 1000000 ltac:(lia)). lia. }
    rewrite Hk', !inject_Z_plus. ring. }
  exists (signed_by x (degrees dm)).
  split.
  - rewrite (ParseDM_eval (rt := goRuntime) _ dm x Hlen2).
    + assert (Hb : bound_of x = Some (if isLatitude then MaxLat else MaxLong))
        by (subst x; now destruct isLatitude).
      rewrite Hb.
      assert (Hin : fgt (Qabs (degrees dm)) (if isLatitude then MaxLat else MaxLong) = false).
      { apply fgt_false_iff. rewrite Hdeg.
        rewrite Qabs_pos by lra. exact Hrange. }
      now rewrite Hin.
    + rewrite Hslice. cbn [TrimSpace ParseFloat goRuntime].
      rewrite (TrimSpace_plain _ Hplain). exact Hnum.
    + exact Hlast.
  - unfold signed_by. subst x. destruct isLatitude; exact Hdeg.
Qed.

(** C1, on the code.  The coordinate -31.5 is written "-3130." with the
    cardinal point S, and read back as +30.8333..., with or without a
    space before the letter: [ToDM] prints the sign that the letter
    already carries, and [ParseDM] takes the floor of the negative number
    and negates.  The coordinate 31 degrees 10.2908 minutes is written
    "3110.2908"; with N appended directly [ParseDM] drops the last digit
    with the letter's neighbour, and reads 31 degrees 10.290 minutes. *)
Theorem roundtrip_breaks :
  let south := (- 63 # 2)%Q in
  let north := (31 + (102908 # 600000))%Q in
  (LatLong.ToDM south = "-3130."
   /\ LatLong.CardinalPoint south true = South
   /\ exists back : Q,
        ParseDM (LatLong.ToDM south ++ LatLong.CardinalPoint south true) = Ok (Finite back)
        /\ ParseDM (LatLong.ToDM south ++ " " ++ LatLong.CardinalPoint south true)
           = Ok (Finite back)
        /\ (back == 185 # 6)%Q
        /\ ~ (back == south)%Q)
  /\ (LatLong.ToDM north = "3110.2908"
      /\ LatLong.CardinalPoint north true = North
      /\ exists back : Q,
           ParseDM (LatLong.ToDM north ++ LatLong.CardinalPoint north true) = Ok (Finite back)
           /\ (back == 31 + (10290 # 60000))%Q
           /\ (1 # 1000000 < Qabs (back - north) * 60)%Q).
Proof.
  cbv zeta. split.
  - split; [vm_compute; reflexivity |]. split; [vm_compute; reflexivity |].
    eexists. split; [vm_compute; reflexivity |].
    split; [vm_compute; reflexivity |].
    split; [vm_compute; reflexivity | vm_compute; discriminate].
  - split; [vm_compute; reflexivity |]. split; [vm_compute; reflexivity |].
    eexists. split; [vm_compute; reflexivity |].
    split; vm_compute; reflexivity.
Qed.

(** ** Scenario 1, the GLL sentence of the documentation *)

(** The line decodes to a GLL sentence: 31 degrees 10.2908 minutes north,
    121 degrees 23.2348 minutes east. *)
Lemma gll_line_decoded :
  exists (m : Message) (s : GPGLL.t) (latitude longitude : Q),
    decode gll_line = Ok (m, true)
    /\ Type_ m = "GPGLL"
    /\ GPGLL.parse (GPGLL.NewGPGLL m) = Ok s
    /\ GPGLL.Latitude s = Finite latitude
    /\ GPGLL.Longitude s = Finite longitude
    /\ (latitude == 31 + (102908 # 600000))%Q
    /\ (longitude == 121 + (232348 # 600000))%Q
    /\ GPGLL.TimeUTC s = mkTime 0 1 1 4 11 39 0
    /\ GPGLL.IsValid s = true
    /\ GPGLL.PositioningMode s = Autonomous
    /\ GPGLL.Serialize s = "$GPGLL,041139.000,3110.2908,N,12123.2348,E,A*34".
Proof.
  do 4 eexists.
  split; [vm_compute; reflexivity |].
  split; [reflexivity |].
  split; [vm_compute; reflexivity |].
  split; [reflexivity |]. split; [reflexivity |].
  repeat split; vm_compute; reflexivity.
Qed.

(** C3, as the code has it.  Decoding the line
    "$GPGLL,3110.2908,N,12123.2348,E,041139.000,A,A*59" gives a GPGLL
    sentence with latitude 31.17151 (31 degrees 10.2908 minutes) and
    longitude 121.38725, to five decimal places, time 04:11:39.000 UTC,
    validity true and positioning mode Autonomous. *)
Theorem gll_scenario :
  exists (m : Message) (s : GPGLL.t),
    decode gll_line = Ok (m, true)
    /\ GPGLL.parse (GPGLL.NewGPGLL m) = Ok s
    /\ gll_decoded (3117151 # 100000) (12138725 # 100000) s.
Proof.
  do 2 eexists.
  split; [vm_compute; reflexivity |].
  split; [vm_compute; reflexivity |].
  unfold gll_decoded, approx.
  split; [vm_compute; discriminate |].
  split; [vm_compute; discriminate |].
  repeat split.
Qed.

(** The latitude alone refutes the scenario as worded. *)
Lemma gll_latitude_off :
  forall (s : GPGLL.t) (latitude : Q),
    GPGLL.Latitude s = Finite latitude ->
    (latitude == 31 + (102908 # 600000))%Q ->
    ~ approx (GPGLL.Latitude s) (3118818 # 100000).
Proof.
  intros s latitude Hs Hlat Happrox. rewrite Hs in Happrox. unfold approx in Happrox.
  rewrite Hlat in Happrox. vm_compute in Happrox. now apply Happrox.
Qed.

(** C3, counterexample: the latitude decoded from the line is a minute
    away from 31.18818 (and the serialization of the decoded sentence ends
    in the checksum 34, not 59). *)
Lemma gll_scenario_law_fails : ~ gll_scenario_law goRuntime package.
Proof.
  intros (m & s & Hdec & Hparse & Hdecoded & Hsum).
  destruct gll_line_decoded
    as (m' & s' & latitude & longitude & Hdec' & _ & Hparse' & Hs & _ & Hlat & _).
  rewrite Hdec' in Hdec. injection Hdec as <-.
  rewrite Hparse' in Hparse. injection Hparse as <-.
  exact (gll_latitude_off s' latitude Hs Hlat (proj1 Hdecoded)).
Qed.

(** ** Degrees, minutes and seconds *)

Lemma int_of_float_inject (z : Z) : int_of_float (Finite (inject_Z z)) = z.
Proof. unfold int_of_float. cbn [Qnum Qden inject_Z]. apply Z.quot_1_r. Qed.

Lemma fge_true_iff (x y : Q) : fge x y = true <-> (y <= x)%Q.
Proof. unfold fge. apply Qle_bool_iff. Qed.

Lemma fge_false_iff (x y : Q) : fge x y = false <-> (x < y)%Q.
Proof.
  unfold fge. split.
  - intro H. apply Qnot_le_lt. intro Hle. apply Qle_bool_iff in Hle. congruence.
  - intro H. apply not_true_is_false. intro Hle. apply Qle_bool_iff in Hle. lra.
Qed.

Lemma Qceiling_above (l : Q) : (inject_Z (Qceiling l) - 1 < l)%Q.
Proof.
  pose proof (Qceiling_lt l) as H.
  replace (Qceiling l - 1) with (Qceiling l + (- 1)) in H by lia.
  rewrite inject_Z_plus in H. change (inject_Z (- 1)) with (- (1))%Q in H. lra.
Qed.

(** The ceiling of a negative number is at most 0. *)
Lemma Qceiling_neg (l : Q) : (l < 0)%Q -> Qceiling l <= 0.
Proof.
  intro Hl. pose proof (Qceiling_lt l) as H.
  assert (H1 : (inject_Z (Qceiling l - 1) < inject_Z 0)%Q)
    by (change (inject_Z 0) with 0%Q; lra).
  rewrite <- Zlt_Qlt in H1. lia.
Qed.

Lemma Qfloor_nonneg (l : Q) : (0 <= l)%Q -> 0 <= Qfloor l.
Proof. intro H. change 0 with (Qfloor 0). now apply Qfloor_resp_le. Qed.

(** What [LatLong.DM] computes, by the sign of the coordinate. *)
Lemma DM_cases (l : Q) :
  ((0 <= l)%Q ->
   LatLong.DM l = (Qfloor l, Finite ((l - inject_Z (Qfloor l)) * 60)))
  /\ ((l < 0)%Q ->
      LatLong.DM l
      = (Qceiling l, Finite ((Qabs l - Qabs (inject_Z (Qceiling l))) * 60))).
Proof.
  unfold LatLong.DM.
  cbn [f64.ge math.Floor math.Ceil math.Abs f64.sub f64.mul].
  split; intro H.
  - rewrite (proj2 (fge_true_iff l 0) H). now rewrite int_of_float_inject.
  - rewrite (proj2 (fge_false_iff l 0) H). now rewrite int_of_float_inject.
Qed.

Lemma DM_minutes (l : Q) :
  exists (d : Z) (m : Q),
    LatLong.DM l = (d, Finite m)
    /\ (0 <= m)%Q /\ (m < 60)%Q
    /\ ((0 <= l)%Q -> 0 <= d /\ (l == inject_Z d + m / 60)%Q)
    /\ ((l < 0)%Q -> d <= 0 /\ (l == inject_Z d - m / 60)%Q).
Proof.
  destruct (DM_cases l) as [Hpos Hneg].
  destruct (Qlt_le_dec l 0) as [Hl | Hl].
  - do 2 eexists. split; [exact (Hneg Hl) |].
    pose proof (Qceiling_neg l Hl) as Hc.
    pose proof (Qle_ceiling l) as Hup. pose proof (Qceiling_above l) as Hlo.
    assert (Hc' : (inject_Z (Qceiling l) <= 0)%Q)
      by (change 0%Q with (inject_Z 0); now rewrite <- Zle_Qle).
    pose proof (Qabs_neg l ltac:(lra)) as Al.
    pose proof (Qabs_neg (inject_Z (Qceiling l)) Hc') as Ac.
    set (a := Qabs l) in *. set (b := Qabs (inject_Z (Qceiling l))) in *.
    set (c := inject_Z (Qceiling l)) in *.
    by_constants.
    repeat split; try lra; try lia.
  - do 2 eexists. split; [exact (Hpos Hl) |].
    pose proof (Qfloor_le l) as Hlo. pose proof (Qlt_floor l) as Hup.
    pose proof (Qfloor_nonneg l Hl) as Hf.
    rewrite inject_Z_plus in Hup. change (inject_Z 1) with 1%Q in Hup.
    set (c := inject_Z (Qfloor l)) in *.
    by_constants.
    repeat split; try lra; try lia.
Qed.



(** ** The cardinal point of a coordinate *)

Lemma feq_true_iff (x y : Q) : feq x y = true <-> (x == y)%Q.
Proof. unfold feq. apply Qeq_bool_iff. Qed.

Lemma feq_false_iff (x y : Q) : feq x y = false <-> ~ (x == y)%Q.
Proof.
  rewrite <- feq_true_iff. destruct (feq x y); intuition congruence.
Qed.

Lemma flt_true_iff (x y : Q) : flt x y = true <-> (x < y)%Q.
Proof.
  unfold flt. rewrite negb_true_iff. split.
  - intro H. apply Qnot_le_lt. intro Hle. apply Qle_bool_iff in Hle. congruence.
  - intro H. apply not_true_is_false. intro Hle. apply Qle_bool_iff in Hle. lra.
Qed.

Lemma flt_false_iff (x y : Q) : flt x y = false <-> (y <= x)%Q.
Proof. unfold flt. rewrite negb_false_iff. apply Qle_bool_iff. Qed.

(** X4. The cardinal point of a coordinate: the empty string exactly for
    0; otherwise S or W for a negative latitude or longitude and N or E
    for a positive one, a token that [ParseCardinalPoint] accepts and gives
    back, and whose sign rule in [ParseDM] ([0 - v] for S and W) restores
    the sign of the coordinate from its magnitude. *)
Theorem CardinalPoint_of_coordinate (l : Q) (isLatitude : bool) :
  let cp := LatLong.CardinalPoint l isLatitude in
  (cp = "" <-> (l == 0)%Q)
  /\ ((l < 0)%Q -> cp = (if isLatitude then South else West))
  /\ ((0 < l)%Q -> cp = (if isLatitude then North else East))
  /\ (ParseCardinalPoint cp = (cp, None) <-> ~ (l == 0)%Q)
  /\ (forall c, cp = String c EmptyString -> (signed_by c (Qabs l) == l)%Q).
Proof.
  cbv zeta. unfold LatLong.CardinalPoint. cbn [f64.eq f64.lt].
  destruct (feq l 0) eqn:Ez.
  - apply feq_true_iff in Ez.
    split; [tauto |]. split; [intro; lra |]. split; [intro; lra |].
    split; [| intros c H; discriminate H].
    split; [intro H; discriminate H | intro H; now destruct H].
  - apply feq_false_iff in Ez.
    destruct (flt l 0) eqn:En.
    + apply flt_true_iff in En.
      split; [split; [destruct isLatitude; discriminate | intro; contradiction] |].
      split; [reflexivity |]. split; [intro; lra |].
      split; [split; [intros _; exact Ez | intros _; now destruct isLatitude] |].
      intros c Hc. pose proof (Qabs_neg l ltac:(lra)) as Ha.
      destruct isLatitude; injection Hc as <-; unfold signed_by; cbn; lra.
    + apply flt_false_iff in En.
      split; [split; [destruct isLatitude; discriminate | intro; contradiction] |].
      split; [intro; lra |]. split; [reflexivity |].
      split; [split; [intros _; exact Ez | intros _; now destruct isLatitude] |].
      intros c Hc. pose proof (Qabs_pos l En) as Ha.
      destruct isLatitude; injection Hc as <-; unfold signed_by; cbn; lra.
Qed.

(** ** [ParseDM]: range of the result, and the indices it takes *)

Lemma get_in_range (s : string) (n : nat) :
  (n < String.length s)%nat -> exists c, String.get n s = Some c.
Proof.
  revert n. induction s as [| c s IH]; intros n Hn; cbn [String.length] in Hn; [lia |].
  destruct n as [| n]; cbn [String.get]; [now exists c |].
  apply IH. lia.
Qed.

(** [raw[len(raw)-1]] is in range once [len(raw) >= 2]. *)
Lemma last_byte (raw : string) :
  (len raw <? 2) = false -> exists c, byte_at raw (len raw - 1) = Ok c.
Proof.
  intro H. apply Z.ltb_ge in H. unfold byte_at.
  destruct (Z.ltb_spec (len raw - 1) 0) as [Hneg | _]; [lia |].
  destruct (get_in_range raw (Z.to_nat (len raw - 1))) as [c Hc];
    [unfold len in *; lia |].
  exists c. now rewrite Hc.
Qed.

Lemma ParseDM_total {rt : GoRuntime} (raw why : string) : ParseDM raw <> Panic why.
Proof.
  unfold ParseDM.
  destruct (len raw <? 2) eqn:Hlen; [discriminate |].
  destruct (ParseFloat _) as [dm [e |]]; cbn [checked fst snd bind]; [discriminate |].
  destruct (last_byte raw Hlen) as [c ->]. cbn [bind].
  destruct (ParseCardinalPoint _) as [dir [e |]]; cbn [checked fst snd bind]; [discriminate |].
  repeat match goal with
         | |- context [if ?b then _ else _] => destruct b; cbn [bind]
         end; discriminate.
Qed.

Lemma NewLatLong_total {rt : GoRuntime} (raw why : string) : NewLatLong raw <> Panic why.
Proof.
  unfold NewLatLong. destruct (TrimSpace raw =? "")%string; [discriminate |].
  apply ParseDM_total.
Qed.

(** X5. [ParseDM] and [NewLatLong] never index out of range: on every
    string they return a coordinate or an error.  A string shorter than
    two bytes is refused as a wrong format before any byte is read, and a
    string that [strings.TrimSpace] empties is refused by [NewLatLong] as
    empty. *)
Theorem coordinate_parsers_total (rt : GoRuntime) (raw : string) :
  (forall why, ParseDM raw <> Panic why)
  /\ (forall why, NewLatLong raw <> Panic why)
  /\ (len raw < 2 -> ParseDM raw = Err (WrongDMFormat raw))
  /\ (TrimSpace raw = "" -> NewLatLong raw = Err EmptyLatLong).
Proof.
  split; [intro; apply ParseDM_total |].
  split; [intro; apply NewLatLong_total |].
  split.
  - intro H. unfold ParseDM. apply Z.ltb_lt in H. now rewrite H.
  - intro H. unfold NewLatLong. now rewrite H.
Qed.

(** The reads of an accepted string. *)
Lemma ParseDM_ok_reads {rt : GoRuntime} (raw : string) (l : LatLong.t) :
  ParseDM raw = Ok l ->
  exists x c,
    ParseFloat (TrimSpace (slice_to raw (len raw - 2))) = (x, None)
    /\ byte_at raw (len raw - 1) = Ok c.
Proof.
  intro Hok. pose proof (ParseDM_ok_len raw l Hok) as Hlen.
  unfold ParseDM in Hok. rewrite Hlen in Hok.
  destruct (ParseFloat _) as [x [e |]] eqn:Enum;
    cbn [checked fst snd bind] in Hok; [discriminate Hok |].
  destruct (last_byte raw Hlen) as [c Hc].
  exists x, c. now split.
Qed.

(** The letters that have a bound. *)
Lemma bound_of_cases (c : ascii) (b : Q) :
  bound_of c = Some b ->
  ((c = "N" \/ c = "S")%char /\ b = MaxLat) \/ ((c = "E" \/ c = "W")%char /\ b = MaxLong).
Proof.
  unfold bound_of.
  destruct (Ascii.eqb_spec c "N") as [-> | _]; cbn [orb];
    [intro H; injection H as <-; auto |].
  destruct (Ascii.eqb_spec c "S") as [-> | _]; cbn [orb];
    [intro H; injection H as <-; auto |].
  destruct (Ascii.eqb_spec c "E") as [-> | _]; cbn [orb];
    [intro H; injection H as <-; auto |].
  destruct (Ascii.eqb_spec c "W") as [-> | _]; cbn [orb];
    [intro H; injection H as <-; auto |].
  discriminate.
Qed.

Lemma Qabs_signed_by (c : ascii) (v : Q) : (Qabs (signed_by c v) == Qabs v)%Q.
Proof.
  unfold signed_by. destruct (Ascii.eqb c "N" || Ascii.eqb c "E"); [reflexivity |].
  rewrite <- (Qabs_opp v). apply Qabs_wd. ring.
Qed.

(** X6. A coordinate that [ParseDM] returns: the string holds two bytes at
    least and ends in one of the four letters; the coordinate is NaN, or a
    finite number within the range of the axis the final byte names, at
    most 90 in magnitude when the string ends in N or S and at most 180
    when it ends in E or W; it is NaN exactly when the number read is NaN
    or an infinity. *)
Theorem ParseDM_in_range (rt : GoRuntime) (raw : string) (l : LatLong.t) :
  ParseDM raw = Ok l ->
  2 <= len raw
  /\ exists (x : float64) (c : ascii),
       ParseFloat (TrimSpace (slice_to raw (len raw - 2))) = (x, None)
       /\ byte_at raw (len raw - 1) = Ok c
       /\ (((c = "N" \/ c = "S")%char /\ within l MaxLat)
           \/ ((c = "E" \/ c = "W")%char /\ within l MaxLong))
       /\ (l = NaN <-> forall q, x <> Finite q).
Proof.
  intro Hok. pose proof (ParseDM_ok_len raw l Hok) as Hlen.
  split; [now apply Z.ltb_ge |].
  destruct (ParseDM_ok_reads raw l Hok) as (x & c & Hnum & Hlast).
  exists x, c. split; [exact Hnum |]. split; [exact Hlast |].
  assert (Hcases :
    (exists dm, x = Finite dm) \/ (forall q, x <> Finite q)).
  { destruct x as [dm | | s]; [left; now exists dm | right | right]; discriminate. }
  destruct Hcases as [[dm ->] | Hx].
  - rewrite (ParseDM_eval raw dm c Hlen Hnum Hlast) in Hok.
    destruct (bound_of c) as [b |] eqn:Eb; [| discriminate Hok].
    destruct (fgt _ b) eqn:E; [discriminate Hok |]. injection Hok as <-.
    apply fgt_false_iff in E.
    assert (Hin : within (Finite (signed_by c (degrees dm))) b).
    { cbn [within]. now rewrite Qabs_signed_by. }
    split.
    + destruct (bound_of_cases c b Eb) as [[Hc ->] | [Hc ->]]; [left | right]; now split.
    + split; [discriminate |]. intro H. now destruct (H dm).
  - rewrite (ParseDM_not_finite raw x c Hlen Hnum Hx Hlast) in Hok.
    destruct (bound_of c) as [b |] eqn:Eb; [| discriminate Hok].
    injection Hok as <-.
    split.
    + destruct (bound_of_cases c b Eb) as [[Hc _] | [Hc _]]; [left | right];
        (split; [exact Hc | exact I]).
    + split; [intros _; exact Hx | reflexivity].
Qed.

Lemma ParseDM_in_range_witness :
  ParseDM "3751.65 S" = Ok (Finite (0 - degrees (75033 # 20)))
  /\ 2 <= len "3751.65 S"
  /\ exists (x : float64) (c : ascii),
       ParseFloat (TrimSpace (slice_to "3751.65 S" (len "3751.65 S" - 2))) = (x, None)
       /\ byte_at "3751.65 S" (len "3751.65 S" - 1) = Ok c
       /\ (((c = "N" \/ c = "S")%char
            /\ within (Finite (0 - degrees (75033 # 20))) MaxLat)
           \/ ((c = "E" \/ c = "W")%char
               /\ within (Finite (0 - degrees (75033 # 20))) MaxLong))
       /\ (Finite (0 - degrees (75033 # 20)) = NaN <-> forall q, x <> Finite q).
Proof.
  assert (Hok : ParseDM "3751.65 S" = Ok (Finite (0 - degrees (75033 # 20))))
    by (vm_compute; reflexivity).
  split; [exact Hok |].
  exact (ParseDM_in_range goRuntime "3751.65 S" _ Hok).
Defined.

(** ** Trimming twice *)

Lemma TrimRight_head (s cutset : string) (c : ascii) (rest : string) :
  strings.TrimRight s cutset = String c rest ->
  exists rest', s = String c rest'.
Proof.
  destruct s as [| c' s']; cbn [strings.TrimRight]; [discriminate |].
  destruct (strings.TrimRight s' cutset).
  - destruct (strings.contains_byte cutset c'); [discriminate |].
    intro H. injection H as <- _. now exists s'.
  - intro H. injection H as <- _. now exists s'.
Qed.

Lemma TrimRight_idem (s cutset : string) :
  strings.TrimRight (strings.TrimRight s cutset) cutset = strings.TrimRight s cutset.
Proof.
  induction s as [| c s IH]; cbn [strings.TrimRight]; [reflexivity |].
  destruct (strings.TrimRight s cutset) as [| c' r] eqn:E.
  - destruct (strings.contains_byte cutset c) eqn:Ec; cbn [strings.TrimRight];
      [reflexivity | now rewrite Ec].
  - cbn [strings.TrimRight] in *. rewrite IH. reflexivity.
Qed.

Lemma TrimLeft_fixed (s cutset : string) :
  (forall c rest, s = String c rest -> strings.contains_byte cutset c = false) ->
  strings.TrimLeft s cutset = s.
Proof.
  destruct s as [| c rest]; cbn [strings.TrimLeft]; [reflexivity |].
  intro H. now rewrite (H c rest eq_refl).
Qed.

Lemma TrimLeft_head (s cutset : string) (c : ascii) (rest : string) :
  strings.TrimLeft s cutset = String c rest -> strings.contains_byte cutset c = false.
Proof.
  induction s as [| c' s IH]; cbn [strings.TrimLeft]; [discriminate |].
  destruct (strings.contains_byte cutset c') eqn:E; [exact IH |].
  intro H. injection H as <- _. exact E.
Qed.

Lemma Trim_idem (s cutset : string) :
  strings.Trim (strings.Trim s cutset) cutset = strings.Trim s cutset.
Proof.
  unfold strings.Trim.
  rewrite (TrimLeft_fixed (strings.TrimRight (strings.TrimLeft s cutset) cutset)).
  - apply TrimRight_idem.
  - intros c rest H. destruct (TrimRight_head _ _ _ _ H) as [rest' H'].
    exact (TrimLeft_head _ _ _ _ H').
Qed.

(** X7. [ToDM] returns a string that is already trimmed of zeros at both
    ends, so the second [strings.Trim(..., "0")] that [GPGLL.Serialize] and
    [GPGGA.Serialize] apply to it never changes it: the coordinate fields
    they write are [ToDM]'s result, byte for byte. *)
Theorem serialized_coordinate_is_ToDM
    (rt : GoRuntime) (pkg : Package) (l : LatLong.t) (g : GPGLL.t) (a : GPGGA.t) :
  strings.Trim (LatLong.ToDM l) "0" = LatLong.ToDM l
  /\ nth 1 (GPGLL.serialized_fields g) "" = LatLong.ToDM (GPGLL.Latitude g)
  /\ nth 3 (GPGLL.serialized_fields g) "" = LatLong.ToDM (GPGLL.Longitude g)
  /\ nth 1 (GPGGA.serialized_fields a) "" = LatLong.ToDM (GPGGA.Latitude a)
  /\ nth 3 (GPGGA.serialized_fields a) "" = LatLong.ToDM (GPGGA.Longitude a).
Proof.
  assert (H : forall x, strings.Trim (LatLong.ToDM x) "0" = LatLong.ToDM x).
  { intro x. unfold LatLong.ToDM. destruct (f64.eq x 0%Q); [reflexivity |].
    destruct (LatLong.DM x) as [d m]. apply Trim_idem. }
  split; [apply H |]. cbn [GPGLL.serialized_fields GPGGA.serialized_fields nth].
  repeat split; apply H.
Qed.

(** ** The parsers never index out of range, but for one handler of DBT *)

Lemma fields_4 (fields : list string) :
  length fields = 4%nat -> exists f0 f1 f2 f3, fields = [f0; f1; f2; f3].
Proof.
  intro H.
  do 4 (destruct fields as [| ? fields]; [discriminate H |]).
  destruct fields; [| discriminate H].
  repeat eexists.
Qed.

Lemma fields_6 (fields : list string) :
  length fields = 6%nat -> exists f0 f1 f2 f3 f4 f5, fields = [f0; f1; f2; f3; f4; f5].
Proof.
  intro H.
  do 6 (destruct fields as [| ? fields]; [discriminate H |]).
  destruct fields; [| discriminate H].
  repeat eexists.
Qed.

Lemma fields_9 (fields : list string) :
  length fields = 9%nat ->
  exists f0 f1 f2 f3 f4 f5 f6 f7 f8, fields = [f0; f1; f2; f3; f4; f5; f6; f7; f8].
Proof.
  intro H.
  do 9 (destruct fields as [| ? fields]; [discriminate H |]).
  destruct fields; [| discriminate H].
  repeat eexists.
Qed.

(** The loop over the fixed fields runs to its end on a frame that
    carries every literal, in whatever order the entries come. *)
Lemma check_fixed_pass (fields : list string) (wrap : error -> error) :
  forall entries : list (nat * string),
    (forall i v, In (i, v) entries -> (i < length fields)%nat /\ nth i fields "" = v) ->
    check_fixed fields wrap entries = Ok tt.
Proof.
  induction entries as [| [i v] rest IH]; intro H; cbn [check_fixed]; [reflexivity |].
  destruct (H i v (or_introl eq_refl)) as [Hi Hv].
  rewrite (index_nth fields i Hi). cbn [bind].
  rewrite Hv, String.eqb_refl. cbn [negb].
  apply IH. intros i0 v0 H0. apply H. now right.
Qed.

Lemma validate_fixed_pass {rt : GoRuntime}
    (fields : list string) (wrap : error -> error) (literals : list (nat * string)) :
  (forall i v, In (i, v) literals -> (i < length fields)%nat /\ nth i fields "" = v) ->
  validate_fixed fields wrap literals = Ok tt.
Proof.
  intro H. unfold validate_fixed. apply check_fixed_pass.
  intros i v Hin. apply H. exact (Permutation_in _ (range_order_perm literals) Hin).
Qed.

Lemma check_fixed_total (fields : list string) (wrap : error -> error) (why : string) :
  forall entries : list (nat * string),
    (forall i v, In (i, v) entries -> (i < length fields)%nat) ->
    check_fixed fields wrap entries <> Panic why.
Proof.
  induction entries as [| [i v] rest IH]; intro H; cbn [check_fixed]; [discriminate |].
  rewrite (index_nth fields i (H i v (or_introl eq_refl))). cbn [bind].
  destruct (negb _); [discriminate |].
  apply IH. intros i0 v0 H0. apply (H i0 v0). now right.
Qed.

Lemma validate_fixed_total {rt : GoRuntime}
    (fields : list string) (wrap : error -> error) (literals : list (nat * string))
    (why : string) :
  (forall i v, In (i, v) literals -> (i < length fields)%nat) ->
  validate_fixed fields wrap literals <> Panic why.
Proof.
  intro H. unfold validate_fixed. apply check_fixed_total.
  intros i v Hin. apply (H i v). exact (Permutation_in _ (range_order_perm literals) Hin).
Qed.

Lemma parse_coordinate_total {rt : GoRuntime}
    (pair : list string) (wrap : error -> error) (current : LatLong.t) (why : string) :
  parse_coordinate pair wrap current <> Panic why.
Proof.
  unfold parse_coordinate. destruct (len _ >? 0); [| discriminate].
  apply onErr_no_panic. intro w. apply NewLatLong_total.
Qed.

Lemma parse_optional_total {rt : GoRuntime} {pkg : Package} {A : Type}
    (f : string) (p : string -> res A) (wrap : error -> error) (current : option A)
    (why : string) :
  (forall s w, p s <> Panic w) ->
  GPGGA.parse_optional f p wrap current <> Panic why.
Proof.
  intro Hp. unfold GPGGA.parse_optional. destruct (len f >? 0); [| discriminate].
  pose proof (fun w => onErr_no_panic (p f) wrap w (Hp f)) as H.
  destruct (onErr (p f) wrap) as [v | e | w]; cbn [bind]; try discriminate.
  now destruct (H w).
Qed.

Lemma magnetic_variation_total {rt : GoRuntime} {pkg : Package}
    (msg : Message) (f9 f10 : string) (current : float64) (why : string) :
  GPRMC.magnetic_variation msg f9 f10 current <> Panic why.
Proof.
  unfold GPRMC.magnetic_variation.
  destruct (len f9 >? 0); [| discriminate].
  destruct (ParseFloat f9) as [v [e |]]; cbn [checked fst snd onErr bind]; [discriminate |].
  destruct (len f10 >? 0); [| discriminate].
  destruct (ParseCardinalPoint f10) as [dir [e |]]; cbn [checked fst snd onErr bind];
    [discriminate |].
  destruct (dir =? West)%string; [discriminate |].
  destruct (dir =? East)%string; discriminate.
Qed.

Lemma bind_total {A B : Type} (r : res A) (k : A -> res B) (why : string) :
  r <> Panic why -> (forall a, k a <> Panic why) -> bind r k <> Panic why.
Proof.
  intros Hr Hk. destruct r as [a | e | w]; cbn [bind]; [apply Hk | discriminate |].
  intro H. apply Hr. now injection H as ->.
Qed.

Lemma checked_onErr_total {A : Type} (r : A * option error) (f : error -> error)
    (why : string) :
  onErr (checked r) f <> Panic why.
Proof. apply onErr_no_panic. intro w. apply checked_no_panic. Qed.

Lemma parse_optional_float_total {rt : GoRuntime} {pkg : Package}
    (f : string) (wrap : error -> error) (current : option float64) (why : string) :
  GPGGA.parse_optional f (fun s => checked (ParseFloat s)) wrap current <> Panic why.
Proof. apply parse_optional_total. intros s w. apply checked_no_panic. Qed.

Lemma parse_optional_uint_total {rt : GoRuntime} {pkg : Package}
    (f : string) (base bitSize : Z) (wrap : error -> error) (current : option Z)
    (why : string) :
  GPGGA.parse_optional f (fun s => checked (ParseUint s base bitSize)) wrap current
  <> Panic why.
Proof. apply parse_optional_total. intros s w. apply checked_no_panic. Qed.

#[local] Hint Resolve checked_onErr_total float_if_present_no_panic
  parse_coordinate_total parse_optional_float_total parse_optional_uint_total
  magnetic_variation_total : no_panic.

Lemma GPGLL_parse_total {rt : GoRuntime} {pkg : Package} (m : GPGLL.t) (why : string) :
  GPGLL.parse m <> Panic why.
Proof.
  unfold GPGLL.parse.
  destruct (Nat.eqb_spec (length (Fields (GPGLL.message m))) 7) as [Hlen | Hlen];
    cbn [negb]; [| discriminate].
  destruct (fields_7 _ Hlen) as (f0 & f1 & f2 & f3 & f4 & f5 & f6 & ->).
  cbn [index nth_error bind]. repeat total_step.
Qed.

Lemma GPGGA_parse_total {rt : GoRuntime} {pkg : Package} (m : GPGGA.t) (why : string) :
  GPGGA.parse m <> Panic why.
Proof.
  unfold GPGGA.parse.
  destruct (Nat.eqb_spec (length (Fields (GPGGA.message m))) 14) as [Hlen | Hlen];
    cbn [negb]; [| discriminate].
  destruct (fields_14 _ Hlen)
    as (f0 & f1 & f2 & f3 & f4 & f5 & f6 & f7 & f8 & f9 & f10 & f11 & f12 & f13 & ->).
  destruct (validate_fixed _ _ _) as [[] | e | w] eqn:Efix; cbn [bind];
    [| discriminate | exfalso; revert Efix; apply validate_fixed_total; literals_in_range].
  cbn [index nth_error bind]. repeat total_step.
Qed.

Lemma GPRMC_parse_total {rt : GoRuntime} {pkg : Package} (m : GPRMC.t) (why : string) :
  GPRMC.parse m <> Panic why.
Proof.
  unfold GPRMC.parse.
  destruct (Nat.eqb_spec (length (Fields (GPRMC.message m))) 12) as [Hlen | Hlen];
    cbn [negb]; [| discriminate].
  destruct (fields_12 _ Hlen)
    as (f0 & f1 & f2 & f3 & f4 & f5 & f6 & f7 & f8 & f9 & f10 & f11 & ->).
  cbn [index nth_error bind]. repeat total_step.
Qed.

Lemma GPTXT_parse_total {rt : GoRuntime} {pkg : Package} (m : GPTXT.t) (why : string) :
  GPTXT.parse m <> Panic why.
Proof.
  unfold GPTXT.parse.
  destruct (Nat.eqb_spec (length (Fields (GPTXT.message m))) 4) as [Hlen | Hlen];
    cbn [negb]; [| discriminate].
  destruct (fields_4 _ Hlen) as (f0 & f1 & f2 & f3 & ->).
  cbn [index nth_error bind]. repeat total_step.
Qed.

Lemma GPVTG_parse_total {rt : GoRuntime} {pkg : Package} (m : GPVTG.t) (why : string) :
  GPVTG.parse m <> Panic why.
Proof.
  unfold GPVTG.parse.
  destruct (Nat.eqb_spec (length (Fields (GPVTG.message m))) 9) as [Hlen | Hlen];
    cbn [negb]; [| discriminate].
  destruct (fields_9 _ Hlen) as (f0 & f1 & f2 & f3 & f4 & f5 & f6 & f7 & f8 & ->).
  destruct (validate_fixed _ _ _) as [[] | e | w] eqn:Efix; cbn [bind];
    [| discriminate | exfalso; revert Efix; apply validate_fixed_total; literals_in_range].
  cbn [index nth_error bind]. repeat total_step.
Qed.

Lemma GPZDA_parse_total {rt : GoRuntime} {pkg : Package} (m : GPZDA.t) (why : string) :
  GPZDA.parse m <> Panic why.
Proof.
  unfold GPZDA.parse.
  destruct (Nat.eqb_spec (length (Fields (GPZDA.message m))) 7) as [Hlen | Hlen];
    cbn [negb]; [| discriminate].
  destruct (fields_7 _ Hlen) as (f0 & f1 & f2 & f3 & f4 & f5 & f6 & ->).
  cbn [index nth_error bind]. repeat total_step.
Qed.

Lemma GPGSA_parse_total {rt : GoRuntime} {pkg : Package} (m : GPGSA.t) (why : string) :
  length (GPGSA.SatelliteUsedOnChannel m) = 13%nat ->
  GPGSA.parse m <> Panic why.
Proof.
  intro Ha.
  destruct (Nat.eqb_spec (length (Fields (GPGSA.message m))) 17) as [Hlen | Hlen].
  - rewrite (GPGSA_parse_17 m Hlen Ha). repeat total_step.
  - unfold GPGSA.parse. apply Nat.eqb_neq in Hlen. rewrite Hlen. discriminate.
Qed.

(** X8. The [parse] methods of the sentences that carry a position, GLL,
    GGA and RMC, never index out of range: on every frame, whatever the
    number and the content of its fields, they return, with a sentence or
    with an error. *)
Theorem position_parsers_do_not_panic (rt : GoRuntime) (pkg : Package) (why : string) :
  (forall m, GPGLL.parse m <> Panic why)
  /\ (forall m, GPGGA.parse m <> Panic why)
  /\ (forall m, GPRMC.parse m <> Panic why)
  /\ (forall k m, In k [GLL; GGA; RMC] -> construct k m <> Panic why).
Proof.
  split; [intro; apply GPGLL_parse_total |].
  split; [intro; apply GPGGA_parse_total |].
  split; [intro; apply GPRMC_parse_total |].
  intros k m Hk. cbn [In] in Hk.
  destruct Hk as [<- | [<- | [<- | []]]]; cbn [construct];
    (apply bind_total; [| discriminate]).
  - apply GPGLL_parse_total.
  - apply GPGGA_parse_total.
  - apply GPRMC_parse_total.
Qed.

(** X9. Nor do the [parse] methods of TXT, VTG, ZDA and GSA (its array of
    channels holding 13 slots) index out of range: on every frame they
    return, with a sentence or with an error, and so does the construction
    of a TXT, VTG or GSA sentence from a frame. *)
Theorem other_parsers_do_not_panic (rt : GoRuntime) (pkg : Package) (why : string) :
  (forall m, GPTXT.parse m <> Panic why)
  /\ (forall m, GPVTG.parse m <> Panic why)
  /\ (forall m, GPZDA.parse m <> Panic why)
  /\ (forall m, length (GPGSA.SatelliteUsedOnChannel m) = 13%nat ->
                GPGSA.parse m <> Panic why)
  /\ (forall k m, In k [TXT; VTG; GSA] -> construct k m <> Panic why).
Proof.
  split; [intro; apply GPTXT_parse_total |].
  split; [intro; apply GPVTG_parse_total |].
  split; [intro; apply GPZDA_parse_total |].
  split; [intros m Hm; now apply GPGSA_parse_total |].
  intros k m Hk. cbn [In] in Hk.
  destruct Hk as [<- | [<- | [<- | []]]]; cbn [construct];
    (apply bind_total; [| discriminate]).
  - apply GPTXT_parse_total.
  - apply GPVTG_parse_total.
  - now apply GPGSA_parse_total.
Qed.

(** X10. [GPDBT.parse] on a frame of six fields that carries the three
    literals.  A depth in feet that is no number is an error; a depth in
    meters that is no number is an error which quotes field 4, not the
    field 2 it read; a depth in fathoms that is no number is no error at
    all but a panic, for the handler reads field 6 of six fields;
    otherwise the three numbers are stored. *)
Theorem GPDBT_parse_outcome (rt : GoRuntime) (pkg : Package) (m : GPDBT.t) :
  let msg := GPDBT.message m in
  let f := fun i => nth i (Fields msg) "" in
  let feet := ParseFloat (f 0%nat) in
  let meters := ParseFloat (f 2%nat) in
  let fathoms := ParseFloat (f 4%nat) in
  length (Fields msg) = 6%nat ->
  f 1%nat = "f" -> f 3%nat = "M" -> f 5%nat = "F" ->
  (snd feet <> None ->
   GPDBT.parse m = Err (Message_Error msg (UnableToParse "depth in feet" (f 0%nat))))
  /\ (snd feet = None -> snd meters <> None ->
      GPDBT.parse m = Err (Message_Error msg (UnableToParse "depth in meters" (f 4%nat))))
  /\ (snd feet = None -> snd meters = None -> snd fathoms <> None ->
      GPDBT.parse m = Panic "index out of range")
  /\ (snd feet = None -> snd meters = None -> snd fathoms = None ->
      GPDBT.parse m = Ok (GPDBT.mk msg (fst feet) (fst meters) (fst fathoms))).
Proof.
  cbv zeta. intros Hlen H1 H3 H5.
  destruct (fields_6 _ Hlen) as (f0 & f1 & f2 & f3 & f4 & f5 & Hf).
  unfold GPDBT.parse. rewrite Hlen, Nat.eqb_refl. cbn [negb].
  rewrite validate_fixed_pass.
  2:{ intros i v Hin. rewrite Hlen. cbn [In] in Hin.
      repeat (destruct Hin as [Hin | Hin];
              [inversion Hin; subst i v; split; [lia | assumption] |]).
      destruct Hin. }
  rewrite Hf in *. cbn [nth] in *. cbn [index nth_error bind].
  destruct (ParseFloat f0) as [feet [e0 |]]; cbn [checked fst snd orElse bind].
  { repeat split; intros; try reflexivity; try contradiction; discriminate. }
  destruct (ParseFloat f2) as [meters [e2 |]]; cbn [checked fst snd orElse bind].
  { repeat split; intros; try reflexivity; try contradiction; discriminate. }
  destruct (ParseFloat f4) as [fathoms [e4 |]]; cbn [checked fst snd orElse bind].
  { repeat split; intros; try reflexivity; try contradiction; discriminate. }
  repeat split; intros; try reflexivity; try contradiction; discriminate.
Qed.

Lemma GPDBT_parse_outcome_witness :
  let m := GPDBT.NewGPDBT (mkMessage "MXDBT" ["108.34"; "f"; "33.02"; "M"; ""; "F"] "") in
  length (Fields (GPDBT.message m)) = 6%nat
  /\ snd (ParseFloat "108.34") = None
  /\ snd (ParseFloat "33.02") = None
  /\ snd (ParseFloat "") <> None
  /\ GPDBT.parse m = Panic "index out of range".
Proof.
  cbv zeta.
  assert (Hfeet : snd (ParseFloat "108.34") = None) by (vm_compute; reflexivity).
  assert (Hmeters : snd (ParseFloat "33.02") = None) by (vm_compute; reflexivity).
  assert (Hfathoms : snd (ParseFloat "") <> None) by (vm_compute; discriminate).
  split; [reflexivity |]. split; [exact Hfeet |]. split; [exact Hmeters |].
  split; [exact Hfathoms |].
  exact (proj1 (proj2 (proj2
           (GPDBT_parse_outcome goRuntime package
              (GPDBT.NewGPDBT (mkMessage "MXDBT" ["108.34"; "f"; "33.02"; "M"; ""; "F"] ""))
              eq_refl eq_refl eq_refl eq_refl)))
         Hfeet Hmeters Hfathoms).
Defined.

(** ** RMC: the magnetic variation *)

(** X11. The magnetic variation that [GPRMC.parse] stores.  With field 9
    empty it is left as it was (0 in a new sentence) and field 10 is not
    looked at; otherwise field 9 is a number [v], and the variation is [v]
    when field 10 is empty or E and [0 - v] when it is W: with any other
    direction, N and S included, there is no sentence. *)
Theorem magnetic_variation_sign
    (rt : GoRuntime) (pkg : Package) (m s : GPRMC.t) :
  GPRMC.parse m = Ok s ->
  let f := fun i => nth i (Fields (GPRMC.message m)) "" in
  (f 9%nat = "" -> GPRMC.MagneticVariation s = GPRMC.MagneticVariation m)
  /\ (f 9%nat <> "" ->
      exists v,
        ParseFloat (f 9%nat) = (v, None)
        /\ (((f 10%nat = "" \/ f 10%nat = East) /\ GPRMC.MagneticVariation s = v)
            \/ (f 10%nat = West /\ GPRMC.MagneticVariation s = f64.sub 0%Q v))).
Proof.
  intro Hok. unfold GPRMC.parse in Hok.
  destruct (Nat.eqb_spec (length (Fields (GPRMC.message m))) 12) as [Hlen | Hlen];
    cbn [negb] in Hok; [| discriminate Hok].
  destruct (fields_12 _ Hlen)
    as (f0 & f1 & f2 & f3 & f4 & f5 & f6 & f7 & f8 & f9 & f10 & f11 & Hfields).
  rewrite Hfields in *. cbn [index nth_error nth] in *.
  repeat ok_step Hok.
  injection Hok as <-. cbn [GPRMC.MagneticVariation].
  repeat match goal with
         | H : Ok _ = Ok _ |- _ => injection H as <-
         end.
  match goal with
  | H : GPRMC.magnetic_variation _ _ _ _ = Ok _ |- _ => rename H into Hvar
  end.
  unfold GPRMC.magnetic_variation in Hvar.
  destruct (len f9 >? 0) eqn:E9.
  - assert (Hne : f9 <> "").
    { intro H. apply len_positive in H. congruence. }
    split; [intro H; contradiction |]. intros _.
    destruct (ParseFloat f9) as [v [e |]] eqn:Enum;
      cbn [checked fst snd onErr bind] in Hvar; [discriminate Hvar |].
    exists v. split; [reflexivity |].
    destruct (len f10 >? 0) eqn:E10.
    + unfold ParseCardinalPoint in Hvar.
      destruct (_ || _)%bool; cbn [checked fst snd onErr bind] in Hvar;
        [| discriminate Hvar].
      destruct (String.eqb_spec f10 West) as [HW | _].
      * injection Hvar as <-. right. now split.
      * destruct (String.eqb_spec f10 East) as [HE | _]; [| discriminate Hvar].
        injection Hvar as <-. left. split; [now right | reflexivity].
    + apply len_positive in E10. injection Hvar as <-.
      left. split; [now left | reflexivity].
  - apply len_positive in E9. injection Hvar as <-.
    split; [reflexivity |]. intro H. contradiction.
Qed.

Lemma magnetic_variation_sign_witness :
  exists s,
    GPRMC.parse
      (GPRMC.NewGPRMC
         (mkMessage "GPRMC"
            ["220516.000"; "A"; "5133.82"; "N"; "00042.24"; "W"; "173.8"; "231.8";
             "130694"; "004.2"; "W"; "A"] "")) = Ok s
    /\ GPRMC.MagneticVariation s = Finite (0 - (21 # 5)).
Proof.
  eexists.
  match goal with
  | |- ?run = Ok ?s /\ _ => assert (Hok : run = Ok s) by (vm_compute; reflexivity)
  end.
  split; [exact Hok |].
  destruct (magnetic_variation_sign goRuntime package _ _ Hok) as [_ Hsign].
  destruct (Hsign ltac:(cbn; discriminate)) as [v [Hv [[[Hd | Hd] _] | [_ Hvar]]]];
    [discriminate Hd | discriminate Hd |].
  vm_compute in Hv. injection Hv as <-. exact Hvar.
Defined.

(** ** Sentences without a position *)

Lemma parse_coordinate_absent {rt : GoRuntime}
    (wrap : error -> error) (current l : LatLong.t) :
  TrimSpace " " = "" ->
  parse_coordinate [""; ""] wrap current = Ok l -> l = current.
Proof.
  intros Hsp. unfold parse_coordinate. cbn [strings.Join append]. rewrite Hsp.
  change (len "" >? 0) with false. cbv iota. intro H. now injection H.
Qed.

(** X12. A coordinate pair that is left out is skipped: when both of its
    fields are empty, a successful [GPGLL.parse], [GPGGA.parse] or
    [GPRMC.parse] leaves the coordinate as it was, 0 in a new sentence
    ([strings.TrimSpace] removing a lone space). *)
Theorem absent_coordinates (rt : GoRuntime) (pkg : Package) :
  TrimSpace " " = "" ->
  (forall m s, GPGLL.parse m = Ok s ->
     let f := fun i => nth i (Fields (GPGLL.message m)) "" in
     (f 0%nat = "" -> f 1%nat = "" -> GPGLL.Latitude s = GPGLL.Latitude m)
     /\ (f 2%nat = "" -> f 3%nat = "" -> GPGLL.Longitude s = GPGLL.Longitude m))
  /\ (forall m s, GPGGA.parse m = Ok s ->
        let f := fun i => nth i (Fields (GPGGA.message m)) "" in
        (f 1%nat = "" -> f 2%nat = "" -> GPGGA.Latitude s = GPGGA.Latitude m)
        /\ (f 3%nat = "" -> f 4%nat = "" -> GPGGA.Longitude s = GPGGA.Longitude m))
  /\ (forall m s, GPRMC.parse m = Ok s ->
        let f := fun i => nth i (Fields (GPRMC.message m)) "" in
        (f 2%nat = "" -> f 3%nat = "" -> GPRMC.Latitude s = GPRMC.Latitude m)
        /\ (f 4%nat = "" -> f 5%nat = "" -> GPRMC.Longitude s = GPRMC.Longitude m)).
Proof.
  intro Hsp. split; [| split]; intros m s Hok; cbv zeta.
  - unfold GPGLL.parse in Hok.
    destruct (Nat.eqb_spec (length (Fields (GPGLL.message m))) 7) as [Hlen | Hlen];
      cbn [negb] in Hok; [| discriminate Hok].
    destruct (fields_7 _ Hlen) as (f0 & f1 & f2 & f3 & f4 & f5 & f6 & Hfields).
    rewrite Hfields in *. cbn [index nth_error nth slice skipn firstn Nat.sub] in *.
    repeat ok_step Hok.
    injection Hok as <-. cbn [GPGLL.Latitude GPGLL.Longitude].
    split; intros -> ->; eapply parse_coordinate_absent; eassumption.
  - unfold GPGGA.parse in Hok.
    destruct (Nat.eqb_spec (length (Fields (GPGGA.message m))) 14) as [Hlen | Hlen];
      cbn [negb] in Hok; [| discriminate Hok].
    destruct (fields_14 _ Hlen)
      as (f0 & f1 & f2 & f3 & f4 & f5 & f6 & f7 & f8 & f9 & f10 & f11 & f12 & f13 & Hfields).
    rewrite Hfields in *. cbn [index nth_error nth slice skipn firstn Nat.sub] in *.
    repeat ok_step Hok.
    injection Hok as <-. cbn [GPGGA.Latitude GPGGA.Longitude].
    split; intros -> ->; eapply parse_coordinate_absent; eassumption.
  - unfold GPRMC.parse in Hok.
    destruct (Nat.eqb_spec (length (Fields (GPRMC.message m))) 12) as [Hlen | Hlen];
      cbn [negb] in Hok; [| discriminate Hok].
    destruct (fields_12 _ Hlen)
      as (f0 & f1 & f2 & f3 & f4 & f5 & f6 & f7 & f8 & f9 & f10 & f11 & Hfields).
    rewrite Hfields in *. cbn [index nth_error nth slice skipn firstn Nat.sub] in *.
    repeat ok_step Hok.
    injection Hok as <-. cbn [GPRMC.Latitude GPRMC.Longitude].
    split; intros -> ->; eapply parse_coordinate_absent; eassumption.
Qed.

Lemma absent_coordinates_witness :
  TrimSpace " " = ""
  /\ exists s,
       GPGLL.parse
         (GPGLL.NewGPGLL (mkMessage "GPGLL" [""; ""; ""; ""; "041139.000"; "V"; "N"] ""))
       = Ok s
       /\ GPGLL.Latitude s = Finite 0 /\ GPGLL.Longitude s = Finite 0.
Proof.
  assert (Hsp : TrimSpace " " = "") by (vm_compute; reflexivity).
  split; [exact Hsp |].
  eexists.
  match goal with
  | |- ?run = Ok ?s /\ _ => assert (Hok : run = Ok s) by (vm_compute; reflexivity)
  end.
  split; [exact Hok |].
  destruct (proj1 (absent_coordinates goRuntime package Hsp) _ _ Hok) as [Hlat Hlon].
  split; [exact (Hlat eq_refl eq_refl) | exact (Hlon eq_refl eq_refl)].
Defined.

(** ** TXT: the text and the antenna status *)

Lemma cut_at_sound (s : string) (sep : ascii) :
  forall before after,
    strings.cut_at s sep = Some (before, after) ->
    s = before ++ String sep after /\ strings.contains_byte before sep = false.
Proof.
  induction s as [| c s IH]; intros before after H; cbn [strings.cut_at] in H;
    [discriminate H |].
  destruct (Ascii.eqb_spec c sep) as [-> | Hne].
  - injection H as <- <-. now split.
  - destruct (strings.cut_at s sep) as [[b a] |]; [| discriminate H].
    injection H as <- <-. destruct (IH b a eq_refl) as [-> Hb].
    split; [reflexivity |]. cbn [strings.contains_byte].
    rewrite Hb. apply Ascii.eqb_neq in Hne. now rewrite Hne.
Qed.

Lemma cut_at_complete (before after : string) (sep : ascii) :
  strings.contains_byte before sep = false ->
  strings.cut_at (before ++ String sep after) sep = Some (before, after).
Proof.
  induction before as [| c b IH]; intro H; cbn [append strings.cut_at].
  - now rewrite Ascii.eqb_refl.
  - cbn [strings.contains_byte] in H. apply orb_false_elim in H as [Hc Hb].
    rewrite Hc. now rewrite (IH Hb).
Qed.

Lemma Env_entry {pkg : Package} (m : GPTXT.t) (key value : string) :
  GPTXT.Env m = Some [(key, value)]
  <-> GPTXT.TxtMsg m = key ++ "=" ++ value /\ strings.contains_byte key "=" = false.
Proof.
  unfold GPTXT.Env, strings.SplitN2. split.
  - destruct (strings.cut_at (GPTXT.TxtMsg m) "=") as [[b a] |] eqn:E; [| discriminate].
    intro H. injection H as <- <-. exact (cut_at_sound _ _ _ _ E).
  - intros [-> Hkey]. cbn [append]. now rewrite (cut_at_complete _ _ _ Hkey).
Qed.

Lemma AntennaStatus_iff {pkg : Package} (m : GPTXT.t) (status : string) :
  GPTXT.AntennaStatus m = Some status <-> GPTXT.TxtMsg m = "ANTSTATUS=" ++ status.
Proof.
  unfold GPTXT.AntennaStatus. split.
  - destruct (GPTXT.Env m) as [env |] eqn:E; [| discriminate].
    unfold GPTXT.Env, strings.SplitN2 in E.
    destruct (strings.cut_at (GPTXT.TxtMsg m) "=") as [[b a] |] eqn:Ecut; [| discriminate E].
    injection E as <-. cbn [map_get].
    destruct (String.eqb_spec b "ANTSTATUS") as [-> | _]; [| discriminate].
    intro H. injection H as <-.
    exact (proj1 (cut_at_sound _ _ _ _ Ecut)).
  - intro H.
    assert (E : GPTXT.Env m = Some [("ANTSTATUS", status)])
      by (apply Env_entry; split; [exact H | reflexivity]).
    rewrite E. reflexivity.
Qed.

(** X13. [GPTXT.Env] and [GPTXT.AntennaStatus].  The map holds one entry,
    the text cut at its first "=": the key is what precedes it (and holds
    no "="), the value all that follows; a text without "=" gives the nil
    map.  The antenna status is the value of the key ANTSTATUS: the text
    after the prefix "ANTSTATUS=", and nil for any other text. *)
Theorem antenna_status (pkg : Package) (m : GPTXT.t) :
  (forall key value,
      GPTXT.Env m = Some [(key, value)]
      <-> GPTXT.TxtMsg m = key ++ "=" ++ value
          /\ strings.contains_byte key "=" = false)
  /\ (GPTXT.Env m = None <-> strings.contains_byte (GPTXT.TxtMsg m) "=" = false)
  /\ (forall status,
         GPTXT.AntennaStatus m = Some status
         <-> GPTXT.TxtMsg m = "ANTSTATUS=" ++ status).
Proof.
  split; [intros; apply Env_entry |].
  split; [| intros; apply AntennaStatus_iff].
  unfold GPTXT.Env, strings.SplitN2.
  generalize (GPTXT.TxtMsg m). intro s.
  assert (Hcut : strings.cut_at s "=" = None <-> strings.contains_byte s "=" = false).
  { induction s as [| c s IH]; cbn [strings.cut_at strings.contains_byte]; [tauto |].
    destruct (Ascii.eqb c "="); cbn [orb]; [split; discriminate |].
    destruct (strings.cut_at s "=") as [[b a] |].
    - split; [discriminate |]. intro H. apply IH in H. discriminate H.
    - split; [intros _; now apply IH | reflexivity]. }
  destruct (strings.cut_at s "=") as [[b a] |].
  - split; [discriminate |]. intro H. apply Hcut in H. discriminate H.
  - split; [intros _; now apply Hcut | reflexivity].
Qed.

(** X14. What [GPTXT.parse] stores: the text is field 3 as it stands (the
    frame holds four fields, so the join over [Fields[3:]] joins one), the
    two counters are what [strconv.Atoi] reads from fields 0 and 1, and the
    antenna status of the sentence is what follows "ANTSTATUS=" in
    field 3. *)
Theorem GPTXT_parse_text (rt : GoRuntime) (pkg : Package) (m s : GPTXT.t) :
  GPTXT.parse m = Ok s ->
  let f := fun i => nth i (Fields (GPTXT.message m)) "" in
  length (Fields (GPTXT.message m)) = 4%nat
  /\ GPTXT.TxtMsg s = f 3%nat
  /\ strconv.Atoi (f 0%nat) = (GPTXT.TotalNbMsgInTx s, None)
  /\ strconv.Atoi (f 1%nat) = (GPTXT.MsgNumInTx s, None)
  /\ forall status,
       GPTXT.AntennaStatus s = Some status <-> f 3%nat = "ANTSTATUS=" ++ status.
Proof.
  intro Hok. unfold GPTXT.parse in Hok.
  destruct (Nat.eqb_spec (length (Fields (GPTXT.message m))) 4) as [Hlen | Hlen];
    cbn [negb] in Hok; [| discriminate Hok].
  destruct (fields_4 _ Hlen) as (f0 & f1 & f2 & f3 & Hfields).
  rewrite Hfields in *. cbn [index nth_error nth skipn strings.Join] in *.
  repeat ok_step Hok.
  injection Hok as <-.
  repeat match goal with
         | H : Ok _ = Ok _ |- _ => injection H as <-
         end.
  cbv zeta. split; [reflexivity |].
  assert (Hatoi : forall x a wrap,
             onErr (checked (strconv.Atoi x)) wrap = Ok a -> strconv.Atoi x = (a, None)).
  { intros x a wrap H. destruct (strconv.Atoi x) as [v [e |]];
      cbn [checked fst snd onErr] in H; [discriminate H | now injection H as <-]. }
  split; [reflexivity |].
  split; [eapply Hatoi; eassumption |].
  split; [eapply Hatoi; eassumption |].
  intro status. rewrite AntennaStatus_iff. reflexivity.
Qed.

Lemma GPTXT_parse_text_witness :
  exists s,
    GPTXT.parse (GPTXT.NewGPTXT (mkMessage "GPTXT" ["01"; "01"; "02"; "ANTSTATUS=OK"] "3B"))
    = Ok s
    /\ GPTXT.TotalNbMsgInTx s = 1
    /\ GPTXT.AntennaStatus s = Some "OK".
Proof.
  eexists.
  match goal with
  | |- ?run = Ok ?s /\ _ => assert (Hok : run = Ok s) by reflexivity
  end.
  split; [exact Hok |].
  destruct (GPTXT_parse_text goRuntime package _ _ Hok) as (_ & _ & Htotal & _ & Hant).
  split.
  - exact (f_equal fst (eq_sym Htotal)).
  - now apply Hant.
Defined.

(** ** The names of the enumerated numbers *)

(** X15. [QualityIndicator.String] and [FixStatus.String] give the name
    "unknow" exactly to the numbers outside the enumeration, so a value
    that [ParseQualityIndicator] or [ParseFixStatus] accepted always has a
    name of its own.  The zero value of a new sentence is the member
    "invalid" for the quality indicator of GGA, and no member, "unknow",
    for the fix status of GSA. *)
Theorem enum_names (raw : string) (m : Message) :
  (forall v, QualityIndicator_String v = "unknow"
             <-> ~ In v [InvalidIndicator; GNSSS; DGPS])
  /\ (forall v, FixStatus_String v = "unknow"
                <-> ~ In v [FixStatusNoFix; FixStatus2D; FixStatus3D])
  /\ (snd (ParseQualityIndicator raw) = None ->
      QualityIndicator_String (fst (ParseQualityIndicator raw)) <> "unknow")
  /\ (snd (ParseFixStatus raw) = None ->
      FixStatus_String (fst (ParseFixStatus raw)) <> "unknow")
  /\ QualityIndicator_String (GPGGA.QualityIndicator (GPGGA.NewGPGGA m)) = "invalid"
  /\ FixStatus_String (GPGSA.FixStatus (GPGSA.NewGPGSA m)) = "unknow".
Proof.
  assert (Hq : forall v, QualityIndicator_String v = "unknow"
                         <-> ~ In v [InvalidIndicator; GNSSS; DGPS]).
  { intro v. rewrite <- member3_false. unfold QualityIndicator_String.
    destruct (v =? InvalidIndicator); [split; discriminate |].
    destruct (v =? GNSSS); [split; discriminate |].
    destruct (v =? DGPS); [split; discriminate | split; reflexivity]. }
  assert (Hf : forall v, FixStatus_String v = "unknow"
                         <-> ~ In v [FixStatusNoFix; FixStatus2D; FixStatus3D]).
  { intro v. rewrite <- member3_false. unfold FixStatus_String.
    destruct (v =? FixStatusNoFix); [split; discriminate |].
    destruct (v =? FixStatus2D); [split; discriminate |].
    destruct (v =? FixStatus3D); [split; discriminate | split; reflexivity]. }
  split; [exact Hq |]. split; [exact Hf |].
  split; [| split; [| split; reflexivity]].
  - intros Hok Hname. apply Hq in Hname. apply Hname. apply member3.
    unfold ParseQualityIndicator in *.
    destruct (strconv.ParseInt10 raw 0) as [i [e |]]; cbn [fst snd] in *; [discriminate Hok |].
    destruct ((i =? InvalidIndicator) || (i =? GNSSS) || (i =? DGPS)) eqn:E;
      cbn [fst snd] in *; [exact E | discriminate Hok].
  - intros Hok Hname. apply Hf in Hname. apply Hname. apply member3.
    unfold ParseFixStatus in *.
    destruct (strconv.ParseInt10 raw 0) as [i [e |]]; cbn [fst snd] in *; [discriminate Hok |].
    destruct ((i =? FixStatusNoFix) || (i =? FixStatus2D) || (i =? FixStatus3D)) eqn:E;
      cbn [fst snd] in *; [exact E | discriminate Hok].
Qed.

(** ** What the gates make of a serialized sentence *)

(** X16. [GPGLL.Serialize] writes six fields and [GPZDA.Serialize] one,
    and the [parse] of either type asks for seven: a frame that carries the
    fields a GLL or a ZDA sentence was serialized to is refused at the
    field count, whatever the sentence. *)
Theorem gates_on_serialized
    (rt : GoRuntime) (pkg : Package) (typeID sum : string) :
  (forall s : GPGLL.t,
      let m := mkMessage typeID (GPGLL.serialized_fields s) sum in
      length (Fields m) = 6%nat
      /\ GPGLL.parse (GPGLL.NewGPGLL m)
         = Err (Message_Error m (Incomplete "GPGLL" 6 7)))
  /\ (forall s : GPZDA.t,
         let m := mkMessage typeID (GPZDA.serialized_fields s) sum in
         length (Fields m) = 1%nat
         /\ GPZDA.parse (GPZDA.NewGPZDA m)
            = Err (Message_Error m (Incomplete "GPZDA" 1 7))).
Proof.
  split; intro s; cbv zeta.
  - split; [reflexivity |]. unfold GPGLL.parse. reflexivity.
  - split; [reflexivity |]. unfold GPZDA.parse. reflexivity.
Qed.

(** ** Reading back what [Serialize] writes *)

Lemma round_half_even_nonneg (x : Q) : (0 <= x)%Q -> 0 <= fmt.round_half_even x.
Proof.
  intro H. unfold fmt.round_half_even.
  assert (Hn : 0 <= Qnum x).
  { unfold Qle in H. cbn [Qnum Qden] in H. lia. }
  assert (Hq : 0 <= Qnum x / Z.pos (Qden x)) by (apply Z.div_pos; lia).
  destruct (2 * (Qnum x mod Z.pos (Qden x)) ?= Z.pos (Qden x)); [| lia | lia].
  destruct (Z.even _); lia.
Qed.

(** [ParseFloat] on a minus sign, digits, a point, digits. *)
Lemma ParseFloat_minus_point (i f : string) :
  all_digits i = true -> all_digits f = true -> 0 < len i + len f ->
  Runtime.ParseFloat (String "-" (i ++ String "." f))
  = (Finite (Qred (Qmake (- dec_value f (dec_value i 0)) (Z.to_pos (10 ^ len f)))), None).
Proof.
  intros Hi Hf Hlen. unfold Runtime.ParseFloat.
  rewrite (special_minus_plain _ (plain_point i f Hi Hf)).
  change (Ascii.eqb "-" "-") with true. cbv iota.
  rewrite (read_digits_app i (String "." f) Hi)
    by (intros c r' H; injection H as <- _; reflexivity).
  change (Ascii.eqb "." ".") with true. cbv iota.
  pose proof (read_digits_app f "" Hf ltac:(discriminate) (dec_value i 0) 0) as Hfrac.
  rewrite append_nil_r in Hfrac. rewrite Hfrac.
  cbn [String.eqb andb].
  assert (Hpos : (0 <? 0 + len i + (0 + len f)) = true) by (apply Z.ltb_lt; lia).
  rewrite Hpos. rewrite Z.add_0_l. reflexivity.
Qed.

(** What "%0<w>.1f" writes for [x], [strconv.ParseFloat] reads as the
    tenths of [x]. *)
Lemma ParseFloat_Sprintf (w : Z) (x : Q) :
  exists q : Q,
    Runtime.ParseFloat (fmt.Sprintf_0f w 1 x) = (Finite q, None) /\ (q == tenths x)%Q.
Proof.
  unfold fmt.Sprintf_0f, tenths.
  change (10 ^ 1) with 10. change (1 <=? 0) with false. cbv iota.
  set (n := fmt.round_half_even (Qabs x * inject_Z 10)).
  assert (Hn : 0 <= n).
  { apply round_half_even_nonneg.
    pose proof (Qabs_nonneg x). change (inject_Z 10) with 10%Q. nra. }
  assert (Hhi : 0 <= n / 10) by (apply Z.div_pos; lia).
  pose proof (Z.mod_pos_bound n 10 ltac:(lia)) as Hlo.
  destruct (utoa_digits (n / 10) Hhi) as [Iall Ival].
  destruct (utoa_spec (n mod 10) 1 ltac:(lia) ltac:(lia) ltac:(cbn; lia))
    as [Fall [Flen Fval]].
  destruct (zero_pad_spec 1 (strconv.utoa (n mod 10)) Fall) as [PFall [PFlen PFval]].
  set (F := fmt.zero_pad 1 false (strconv.utoa (n mod 10))) in *.
  assert (HlenF : len F = 1) by lia.
  set (body := strconv.utoa (n / 10) ++ "." ++ F).
  unfold fmt.zero_pad at 1.
  set (z := fmt.zeros _).
  assert (Hz : exists k, z = fmt.zeros k) by (now eexists).
  destruct Hz as [k Hz]. rewrite Hz. clear Hz z.
  assert (Hi : all_digits (fmt.zeros k ++ strconv.utoa (n / 10)) = true)
    by (now rewrite all_digits_app, all_digits_zeros).
  assert (Hv : dec_value F (dec_value (fmt.zeros k ++ strconv.utoa (n / 10)) 0) = n).
  { rewrite dec_value_shift, HlenF, PFval, Fval.
    rewrite dec_value_app, dec_value_zeros, Ival.
    pose proof (Z.div_mod n 10 ltac:(lia)). lia. }
  assert (Hsome : 0 < len (fmt.zeros k ++ strconv.utoa (n / 10)) + len F)
    by (pose proof (len_nonneg (fmt.zeros k ++ strconv.utoa (n / 10))); lia).
  assert (Hshape : fmt.zeros k ++ body
                   = (fmt.zeros k ++ strconv.utoa (n / 10)) ++ String "." F).
  { subst body. now rewrite append_assoc. }
  destruct (flt x 0).
  - eexists. split.
    + cbn [append]. rewrite Hshape.
      apply (ParseFloat_minus_point _ F Hi PFall Hsome).
    + rewrite Qred_correct, Hv, HlenF. reflexivity.
  - eexists. split.
    + cbn [append]. rewrite Hshape.
      apply (ParseFloat_point _ F Hi PFall Hsome).
    + rewrite Qred_correct, Hv, HlenF. reflexivity.
Qed.

(** A number of one decimal is its own tenths. *)
Lemma tenths_exact (x : Q) (n : Z) : (x == n # 10)%Q -> (tenths x == x)%Q.
Proof.
  intro Hx. unfold tenths.
  assert (Habs : (Qabs x * inject_Z 10 == inject_Z (Z.abs n))%Q).
  { rewrite Hx. unfold Qabs, Qeq. cbn [Qnum Qden Qmult inject_Z]. lia. }
  rewrite (round_half_even_integer _ _ Habs).
  destruct (flt x 0) eqn:E.
  - apply flt_true_iff in E.
    assert (Hneg : (n # 10 < 0)%Q) by (rewrite <- Hx; exact E).
    unfold Qlt in Hneg. cbn [Qnum Qden] in Hneg.
    rewrite Hx. unfold Qeq. cbn [Qnum Qden]. lia.
  - apply flt_false_iff in E.
    assert (Hpos : (0 <= n # 10)%Q) by (rewrite <- Hx; exact E).
    unfold Qle in Hpos. cbn [Qnum Qden] in Hpos.
    rewrite Hx. unfold Qeq. cbn [Qnum Qden]. lia.
Qed.

(** What "%03.1f" writes for a [float64], [strconv.ParseFloat] reads as
    the value printed: NaN and the infinities are written by name, within
    the width, and read back. *)
Lemma ParseFloat_printed (x : float64) :
  exists y,
    Runtime.ParseFloat (fmt.Sprintf_0f 3 1 x) = (y, None) /\ same y (printed x).
Proof.
  destruct x as [q | | negative].
  - destruct (ParseFloat_Sprintf 3 q) as [y [Hy Ey]]. exists (Finite y). now split.
  - exists NaN. split; [vm_compute; reflexivity | exact I].
  - exists (Inf negative). split; [destruct negative; vm_compute; reflexivity | reflexivity].
Qed.

Lemma same_trans (x y z : float64) : same x y -> same y z -> same x z.
Proof.
  destruct x, y, z; cbn [same]; intros H1 H2; try contradiction; try exact I;
    [now rewrite H1 | congruence].
Qed.

(** A number of one decimal is printed as it is. *)
Lemma printed_exact (x : float64) (n : Z) : same x (Finite (n # 10)) -> same (printed x) x.
Proof.
  destruct x as [q | | negative]; cbn [same printed]; intro H; try contradiction.
  exact (tenths_exact q n H).
Qed.

(** X17. DBT, serialized and parsed again.  The six fields that
    [GPDBT.Serialize] builds are accepted by [GPDBT.parse]: the count and the
    literals are right, the three numbers are read, and no handler runs.
    Each depth comes back as its nearest tenth (NaN and the infinities as
    they are), and is the depth itself when it has one decimal. *)
Theorem GPDBT_roundtrip (pkg : Package) (s : GPDBT.t) (typeID sum : string) :
  let m := mkMessage typeID (GPDBT.serialized_fields s) sum in
  exists s',
    @GPDBT.parse goRuntime pkg (GPDBT.NewGPDBT m) = Ok s'
    /\ GPDBT.message s' = m
    /\ same (GPDBT.DepthInFeet s') (printed (GPDBT.DepthInFeet s))
    /\ same (GPDBT.DepthInMeters s') (printed (GPDBT.DepthInMeters s))
    /\ same (GPDBT.DepthInFathoms s') (printed (GPDBT.DepthInFathoms s))
    /\ ((exists a b c : Z, same (GPDBT.DepthInFeet s) (Finite (a # 10))
                           /\ same (GPDBT.DepthInMeters s) (Finite (b # 10))
                           /\ same (GPDBT.DepthInFathoms s) (Finite (c # 10))) ->
        same (GPDBT.DepthInFeet s') (GPDBT.DepthInFeet s)
        /\ same (GPDBT.DepthInMeters s') (GPDBT.DepthInMeters s)
        /\ same (GPDBT.DepthInFathoms s') (GPDBT.DepthInFathoms s)).
Proof.
  cbv zeta.
  destruct (ParseFloat_printed (GPDBT.DepthInFeet s)) as [feet [Hfeet Efeet]].
  destruct (ParseFloat_printed (GPDBT.DepthInMeters s)) as [meters [Hmeters Emeters]].
  destruct (ParseFloat_printed (GPDBT.DepthInFathoms s)) as [fathoms [Hfathoms Efathoms]].
  exists (GPDBT.mk (mkMessage typeID (GPDBT.serialized_fields s) sum) feet meters fathoms).
  split.
  - unfold GPDBT.parse, GPDBT.serialized_fields.
    cbn [GPDBT.message GPDBT.NewGPDBT Fields length Nat.eqb negb].
    rewrite validate_fixed_pass.
    2:{ intros i v Hin. cbn [In] in Hin.
        repeat (destruct Hin as [Hin | Hin];
                [inversion Hin; subst i v; split; [cbn [length]; lia | reflexivity] |]).
        destruct Hin. }
    cbn [index nth_error bind ParseFloat goRuntime].
    rewrite Hfeet, Hmeters, Hfathoms. reflexivity.
  - cbn [GPDBT.message GPDBT.DepthInFeet GPDBT.DepthInMeters GPDBT.DepthInFathoms].
    split; [reflexivity |].
    split; [exact Efeet |]. split; [exact Emeters |]. split; [exact Efathoms |].
    intros (a & b & c & Ha & Hb & Hc).
    split; [exact (same_trans _ _ _ Efeet (printed_exact _ a Ha)) |].
    split; [exact (same_trans _ _ _ Emeters (printed_exact _ b Hb))
           | exact (same_trans _ _ _ Efathoms (printed_exact _ c Hc))].
Qed.

(** X18. VTG, serialized and parsed again.  For a sentence whose
    positioning mode is one that [ParsePositioningMode] accepts and gives
    back, the nine fields that [GPVTG.Serialize] builds are accepted by
    [GPVTG.parse]; the course and the two speeds come back as their nearest
    tenths (themselves, when they have one decimal; NaN and the infinities
    as they are) and the mode as it was.  The magnetic track, field 2, is
    written empty. *)
Theorem GPVTG_roundtrip (pkg : Package) (s : GPVTG.t) (typeID sum : string) :
  let m := mkMessage typeID (GPVTG.serialized_fields s) sum in
  ParsePositioningMode (GPVTG.PositioningMode s) = (GPVTG.PositioningMode s, None) ->
  nth 2 (GPVTG.serialized_fields s) "x" = ""
  /\ exists s',
    @GPVTG.parse goRuntime pkg (GPVTG.NewGPVTG m) = Ok s'
    /\ GPVTG.message s' = m
    /\ same (GPVTG.COG s') (printed (GPVTG.COG s))
    /\ same (GPVTG.SpeedKnots s') (printed (GPVTG.SpeedKnots s))
    /\ same (GPVTG.SpeedKmh s') (printed (GPVTG.SpeedKmh s))
    /\ GPVTG.PositioningMode s' = GPVTG.PositioningMode s
    /\ ((exists a b c : Z, same (GPVTG.COG s) (Finite (a # 10))
                           /\ same (GPVTG.SpeedKnots s) (Finite (b # 10))
                           /\ same (GPVTG.SpeedKmh s) (Finite (c # 10))) ->
        same (GPVTG.COG s') (GPVTG.COG s)
        /\ same (GPVTG.SpeedKnots s') (GPVTG.SpeedKnots s)
        /\ same (GPVTG.SpeedKmh s') (GPVTG.SpeedKmh s)).
Proof.
  cbv zeta. intro Hmode. split; [reflexivity |].
  destruct (ParseFloat_printed (GPVTG.COG s)) as [cog [Hcog Ecog]].
  destruct (ParseFloat_printed (GPVTG.SpeedKnots s)) as [knots [Hknots Eknots]].
  destruct (ParseFloat_printed (GPVTG.SpeedKmh s)) as [kmh [Hkmh Ekmh]].
  exists (GPVTG.mk (mkMessage typeID (GPVTG.serialized_fields s) sum)
            cog knots kmh (GPVTG.PositioningMode s)).
  split.
  - unfold GPVTG.parse, GPVTG.serialized_fields.
    cbn [GPVTG.message GPVTG.NewGPVTG Fields length Nat.eqb negb].
    rewrite validate_fixed_pass.
    2:{ intros i v Hin. cbn [In] in Hin.
        repeat (destruct Hin as [Hin | Hin];
                [inversion Hin; subst i v; split; [cbn [length]; lia | reflexivity] |]).
        destruct Hin. }
    cbn [index nth_error bind ParseFloat goRuntime].
    rewrite Hcog, Hknots, Hkmh, Hmode. reflexivity.
  - cbn [GPVTG.message GPVTG.COG GPVTG.SpeedKnots GPVTG.SpeedKmh GPVTG.PositioningMode].
    split; [reflexivity |].
    split; [exact Ecog |]. split; [exact Eknots |]. split; [exact Ekmh |].
    split; [reflexivity |].
    intros (a & b & c & Ha & Hb & Hc).
    split; [exact (same_trans _ _ _ Ecog (printed_exact _ a Ha)) |].
    split; [exact (same_trans _ _ _ Eknots (printed_exact _ b Hb))
           | exact (same_trans _ _ _ Ekmh (printed_exact _ c Hc))].
Qed.

Lemma GPVTG_roundtrip_witness :
  let s := GPVTG.mk (mkMessage "GPVTG" [] "")
             (Finite (3091 # 10)) (Finite (5 # 10)) (Finite (- 1 # 10)) "A" in
  GPVTG.serialized_fields s = ["309.1"; "T"; ""; "M"; "0.5"; "N"; "-0.1"; "K"; "A"]
  /\ exists s',
       GPVTG.parse (GPVTG.NewGPVTG (mkMessage "GPVTG" (GPVTG.serialized_fields s) "")) = Ok s'
       /\ same (GPVTG.COG s') (Finite (3091 # 10))
       /\ same (GPVTG.SpeedKmh s') (Finite (- 1 # 10))
       /\ GPVTG.PositioningMode s' = "A".
Proof.
  cbv zeta. split; [vm_compute; reflexivity |].
  destruct (GPVTG_roundtrip package
              (GPVTG.mk (mkMessage "GPVTG" [] "")
                 (Finite (3091 # 10)) (Finite (5 # 10)) (Finite (- 1 # 10)) "A")
              "GPVTG" "" eq_refl)
    as (_ & s' & Hok & _ & _ & _ & _ & Hmode & Hexact).
  exists s'. split; [exact Hok |].
  destruct Hexact as (Hcog & _ & Hkmh).
  { exists 3091, 5, (- 1). repeat split; reflexivity. }
  split; [exact Hcog |]. split; [exact Hkmh | exact Hmode].
Defined.

(** *** The counters of TXT *)

Lemma atoi_loop_value (s : string) :
  all_digits s = true ->
  forall n, strconv.atoi_loop s n = Some (dec_value s n).
Proof.
  induction s as [| c s IH]; intros Hall n; cbn [strconv.atoi_loop dec_value];
    [reflexivity |].
  cbn [all_digits] in Hall. apply andb_prop in Hall as [Hc Hs].
  unfold is_digit in Hc. apply andb_prop in Hc as [H48 H57].
  apply Z.leb_le in H48, H57.
  rewrite Z.mod_small by lia.
  destruct (Z.gtb_spec (byte_val c - 48) 9) as [Hgt | _]; [lia |].
  apply IH, Hs.
Qed.

(** [strconv.Atoi] on a string of 1 to 18 digits. *)
Lemma Atoi_digits (s : string) :
  all_digits s = true -> 1 <= len s < 19 ->
  strconv.Atoi s = (dec_value s 0, None).
Proof.
  intros Hall Hlen. unfold strconv.Atoi.
  assert (Hfast : (0 <? len s) && (len s <? 19) = true).
  { apply andb_true_intro. split; apply Z.ltb_lt; lia. }
  rewrite Hfast.
  destruct s as [| c rest]; [unfold len in Hlen; cbn in Hlen; lia |].
  assert (Hc : is_digit c = true).
  { cbn [all_digits] in Hall. now apply andb_prop in Hall as [Hc _]. }
  destruct (digit_is_no_mark c Hc) as [Hminus [Hplus _]].
  rewrite Hminus, Hplus. cbn [orb andb].
  now rewrite (atoi_loop_value _ Hall 0).
Qed.

Lemma Sprintf_d_nonneg (n : Z) : 0 <= n -> fmt.Sprintf_d n = strconv.utoa n.
Proof.
  intro Hn. unfold fmt.Sprintf_d, fmt.Sprintf_0d, fmt.zero_pad.
  replace (n <? 0) with false by (symmetry; apply Z.ltb_ge; exact Hn).
  rewrite (Z.abs_eq n Hn). change (len "") with 0.
  destruct (utoa_spec n (S (Z.to_nat (Z.log2 n))) Hn ltac:(lia) (lt_pow10_log2 n Hn))
    as [_ [Hlen _]].
  replace (Z.to_nat (0 - 0 - len (strconv.utoa n))) with 0%nat by lia.
  reflexivity.
Qed.

(** A counter that is not negative is read back from its two-digit form. *)
Lemma Atoi_two_digit (n : Z) :
  0 <= n < 10 ^ 18 -> strconv.Atoi (GPTXT.two_digit n) = (n, None).
Proof.
  intros [Hn Hhi]. unfold GPTXT.two_digit. rewrite (Sprintf_d_nonneg n Hn).
  destruct (Z.ltb_spec n 10) as [Hsmall | Hbig].
  - destruct (utoa_spec n 1 Hn ltac:(lia) ltac:(cbn; lia)) as [Hall [Hlen Hval]].
    rewrite Atoi_digits.
    + cbn [append dec_value]. change (0 * 10 + (byte_val "0" - 48)) with 0.
      now rewrite Hval.
    + cbn [append all_digits]. exact Hall.
    + cbn [append]. unfold len in *. cbn [String.length]. lia.
  - destruct (utoa_spec n 18 Hn ltac:(lia) Hhi) as [Hall [Hlen Hval]].
    rewrite Atoi_digits; [now rewrite Hval | exact Hall | lia].
Qed.

(** A negative counter is written with the zero before its sign, which
    [strconv.Atoi] does not read. *)
Lemma Atoi_two_digit_negative (n : Z) :
  n < 0 -> snd (strconv.Atoi (GPTXT.two_digit n)) <> None.
Proof.
  intro Hn. unfold GPTXT.two_digit.
  replace (n <? 10) with true by (symmetry; apply Z.ltb_lt; lia).
  unfold fmt.Sprintf_d, fmt.Sprintf_0d, fmt.zero_pad.
  replace (n <? 0) with true by (symmetry; apply Z.ltb_lt; lia).
  cbn [append].
  set (rest := fmt.zeros _ ++ strconv.utoa (Z.abs n)).
  unfold strconv.Atoi.
  destruct ((0 <? len (String "0" (String "-" rest)))
            && (len (String "0" (String "-" rest)) <? 19)).
  - cbn. discriminate.
  - cbn. discriminate.
Qed.

(** X19. TXT, serialized and parsed again.  For a sentence whose severity is
    one that [ParseSeverity] reads back from its serialized form: when the
    two counters are not negative (and below 10^18, so that they have
    18 digits at most), the four fields that [GPTXT.Serialize] builds are
    parsed to the same counters, severity and text; a negative counter is
    written as "0-..." and refused by [GPTXT.parse]. *)
Theorem GPTXT_roundtrip
    (rt : GoRuntime) (pkg : Package) (s : GPTXT.t) (typeID sum : string) :
  let m := mkMessage typeID (GPTXT.serialized_fields s) sum in
  ParseSeverity (Severity_Serialize (GPTXT.Severity_ s)) = (GPTXT.Severity_ s, None) ->
  (0 <= GPTXT.TotalNbMsgInTx s < 10 ^ 18 -> 0 <= GPTXT.MsgNumInTx s < 10 ^ 18 ->
   GPTXT.parse (GPTXT.NewGPTXT m)
   = Ok (GPTXT.mk m (GPTXT.TotalNbMsgInTx s) (GPTXT.MsgNumInTx s)
           (GPTXT.Severity_ s) (GPTXT.TxtMsg s)))
  /\ (GPTXT.TotalNbMsgInTx s < 0 \/ GPTXT.MsgNumInTx s < 0 ->
      isErr (GPTXT.parse (GPTXT.NewGPTXT m)) = true).
Proof.
  cbv zeta. intro Hsev.
  unfold GPTXT.parse, GPTXT.serialized_fields.
  cbn [GPTXT.message GPTXT.NewGPTXT Fields length Nat.eqb negb
       index nth_error bind skipn strings.Join].
  split.
  - intros Htotal Hnum.
    rewrite (Atoi_two_digit _ Htotal), (Atoi_two_digit _ Hnum), Hsev.
    reflexivity.
  - intros Hneg.
    destruct (strconv.Atoi (GPTXT.two_digit (GPTXT.TotalNbMsgInTx s)))
      as [total [e |]] eqn:Etotal; cbn [checked fst snd onErr bind]; [reflexivity |].
    destruct (strconv.Atoi (GPTXT.two_digit (GPTXT.MsgNumInTx s)))
      as [num [e |]] eqn:Enum; cbn [checked fst snd onErr bind]; [reflexivity |].
    exfalso. destruct Hneg as [Hneg | Hneg].
    + apply (Atoi_two_digit_negative _ Hneg). now rewrite Etotal.
    + apply (Atoi_two_digit_negative _ Hneg). now rewrite Enum.
Qed.

Lemma GPTXT_roundtrip_witness :
  let s := GPTXT.mk (mkMessage "GPTXT" [] "") 1 12 (2 : @Severity package) "ANTSTATUS=OK" in
  GPTXT.serialized_fields s = ["01"; "12"; "02"; "ANTSTATUS=OK"]
  /\ GPTXT.parse (GPTXT.NewGPTXT (mkMessage "GPTXT" (GPTXT.serialized_fields s) "3B"))
     = Ok (GPTXT.mk (mkMessage "GPTXT" (GPTXT.serialized_fields s) "3B")
             1 12 (2 : @Severity package) "ANTSTATUS=OK").
Proof.
  cbv zeta. split; [reflexivity |].
  apply (proj1 (GPTXT_roundtrip goRuntime package
                  (GPTXT.mk (mkMessage "GPTXT" [] "") 1 12 (2 : @Severity package)
                     "ANTSTATUS=OK")
                  "GPTXT" "3B" eq_refl)).
  - cbn [GPTXT.TotalNbMsgInTx]. lia.
  - cbn [GPTXT.MsgNumInTx]. lia.
Defined.

(** ** GGA: the station of the differential corrections *)

Lemma station_reread_table :
  forallb (fun k => Bool.eqb (station_reread k) (k <? 8)%nat) (seq 0 256) = true.
Proof. vm_compute. reflexivity. Qed.

(** X20. The station number of GGA does not survive [Serialize] and
    [parse].  [GPGGA.Serialize] writes it with "%04d", with zeros in front for
    every [uint8]; [GPGGA.parse] reads the field with [strconv.ParseUint] in
    base 0, where a leading 0 announces an octal numeral.  The number read
    back is the number written only for the stations 0 to 7. *)
Theorem station_id_reread (pkg : Package) (s : GPGGA.t) (wrap : error -> error) (v : Z) :
  GPGGA.DGPSStationID s = Some v ->
  0 <= v <= 255 ->
  (GPGGA.parse_optional
     (nth 13 (@GPGGA.serialized_fields goRuntime pkg s) "")
     (fun f => checked (@ParseUint goRuntime f 0 8)) wrap None = Ok (Some v)
   <-> v < 8).
Proof.
  intros Hs Hv. cbn [GPGGA.serialized_fields nth]. rewrite Hs.
  unfold GPGGA.parse_optional.
  assert (Hlen : (len (fmt.Sprintf_0d 4 v) >? 0) = true).
  { destruct (len (fmt.Sprintf_0d 4 v) >? 0) eqn:E; [reflexivity |].
    apply len_positive in E. now destruct (Sprintf_0d_nonempty 4 v). }
  rewrite Hlen.
  pose proof station_reread_table as Htable.
  rewrite forallb_forall in Htable.
  specialize (Htable (Z.to_nat v)).
  assert (Hin : In (Z.to_nat v) (seq 0 256)) by (apply in_seq; lia).
  specialize (Htable Hin). apply eqb_prop in Htable.
  unfold station_reread in Htable. rewrite Z2Nat.id in Htable by lia.
  destruct (checked (@ParseUint goRuntime (fmt.Sprintf_0d 4 v) 0 8)) as [u | e | w];
    cbn [onErr bind].
  - split.
    + intro H. injection H as ->. rewrite Z.eqb_refl in Htable.
      symmetry in Htable. apply Nat.ltb_lt in Htable. lia.
    + intro H. assert (Hk : (Z.to_nat v <? 8)%nat = true) by (apply Nat.ltb_lt; lia).
      rewrite Hk in Htable. apply Z.eqb_eq in Htable. now subst u.
  - split; [discriminate |]. intro H.
    assert (Hk : (Z.to_nat v <? 8)%nat = true) by (apply Nat.ltb_lt; lia).
    rewrite Hk in Htable. discriminate Htable.
  - split; [discriminate |]. intro H.
    assert (Hk : (Z.to_nat v <? 8)%nat = true) by (apply Nat.ltb_lt; lia).
    rewrite Hk in Htable. discriminate Htable.
Qed.

Lemma station_id_reread_witness :
  let s := GPGGA.mk (mkMessage "GPGGA" [] "") zeroTime 0%Q 0%Q DGPS 9 1%Q 10%Q None
             (Some (Finite 5)) (Some 100) in
  GPGGA.DGPSStationID s = Some 100
  /\ 0 <= 100 <= 255
  /\ nth 13 (GPGGA.serialized_fields s) "" = "0100"
  /\ GPGGA.parse_optional "0100" (fun f => checked (ParseUint f 0 8)) (fun e => e) None
     = Ok (Some 64)
  /\ (GPGGA.parse_optional (nth 13 (GPGGA.serialized_fields s) "")
         (fun f => checked (ParseUint f 0 8)) (fun e => e) None = Ok (Some 100)
       <-> 100 < 8).
Proof.
  cbv zeta. split; [reflexivity |]. split; [lia |].
  split; [vm_compute; reflexivity |]. split; [vm_compute; reflexivity |].
  exact (station_id_reread package
           (GPGGA.mk (mkMessage "GPGGA" [] "") zeroTime 0%Q 0%Q DGPS 9 1%Q 10%Q None
              (Some (Finite 5)) (Some 100))
           (fun e => e) 100 eq_refl ltac:(lia)).
Defined.

(** ** The enumerated values of a parsed sentence *)

Lemma checked_ok {A : Type} (r : A * option error) (wrap : error -> error) (a : A) :
  onErr (checked r) wrap = Ok a -> r = (a, None).
Proof.
  destruct r as [v [e |]]; cbn [checked fst snd onErr]; intro H;
    [discriminate H | now injection H as <-].
Qed.

(** X21. A sentence that [parse] returns holds members only: the mode of a
    GSA sentence is M or A and its fix status 1, 2 or 3 (never the 0 of a
    new sentence); the quality indicator of a GGA sentence is 0, 1 or 2. *)
Theorem parsed_enumerations (rt : GoRuntime) (pkg : Package) :
  (forall m s, GPGSA.parse m = Ok s ->
     In (GPGSA.Mode s) [ModeManual; ModeAuto]
     /\ In (GPGSA.FixStatus s) [FixStatusNoFix; FixStatus2D; FixStatus3D])
  /\ (forall m s, GPGGA.parse m = Ok s ->
        In (GPGGA.QualityIndicator s) [InvalidIndicator; GNSSS; DGPS]).
Proof.
  split; intros m s Hok.
  - unfold GPGSA.parse in Hok.
    destruct (Nat.eqb_spec (length (Fields (GPGSA.message m))) 17) as [Hlen | Hlen];
      cbn [negb] in Hok; [| discriminate Hok].
    destruct (fields_17 _ Hlen)
      as (f0 & f1 & f2 & f3 & f4 & f5 & f6 & f7 & f8 & f9 & f10 & f11 & f12 & f13
          & f14 & f15 & f16 & Hfields).
    rewrite Hfields in *. cbn [index nth_error] in Hok.
    repeat ok_step Hok.
    injection Hok as <-. cbn [GPGSA.Mode GPGSA.FixStatus].
    repeat match goal with
           | H : Ok _ = Ok _ |- _ => injection H as <-
           end.
    match goal with
    | Hm : onErr (checked (ParseMode _)) _ = Ok ?mode,
      Hf : onErr (checked (ParseFixStatus _)) _ = Ok ?fs |- _ =>
        apply checked_ok in Hm; apply checked_ok in Hf
    end.
    split.
    + match goal with
      | H : ParseMode _ = _ |- _ => unfold ParseMode in H; revert H
      end.
      destruct (_ || _)%bool eqn:Emember; [| discriminate].
      intro H. injection H as <-. now apply string_member2 in Emember.
    + match goal with
      | H : ParseFixStatus _ = _ |- _ => unfold ParseFixStatus in H; revert H
      end.
      destruct (strconv.ParseInt10 _ 0) as [i [e |]]; [discriminate |].
      destruct (_ || _)%bool eqn:Emember; [| discriminate].
      intro H. injection H as <-. now apply member3 in Emember.
  - unfold GPGGA.parse in Hok.
    destruct (Nat.eqb_spec (length (Fields (GPGGA.message m))) 14) as [Hlen | Hlen];
      cbn [negb] in Hok; [| discriminate Hok].
    destruct (fields_14 _ Hlen)
      as (f0 & f1 & f2 & f3 & f4 & f5 & f6 & f7 & f8 & f9 & f10 & f11 & f12 & f13
          & Hfields).
    rewrite Hfields in *. cbn [index nth_error] in Hok.
    repeat ok_step Hok.
    injection Hok as <-. cbn [GPGGA.QualityIndicator].
    repeat match goal with
           | H : Ok _ = Ok _ |- _ => injection H as <-
           end.
    match goal with
    | Hq : onErr (checked (ParseQualityIndicator _)) _ = Ok ?q |- _ =>
        apply checked_ok in Hq; unfold ParseQualityIndicator in Hq; revert Hq
    end.
    destruct (strconv.ParseInt10 _ 0) as [i [e |]]; [discriminate |].
    destruct (_ || _)%bool eqn:Emember; [| discriminate].
    intro H. injection H as <-. now apply member3 in Emember.
Qed.

(** ** The coordinates and the numbers of a parsed sentence *)

Lemma ParseDM_bound {rt : GoRuntime} (raw : string) (l : LatLong.t) :
  ParseDM raw = Ok l -> within l MaxLong.
Proof.
  intro Hok. pose proof (ParseDM_ok_len raw l Hok) as Hlen.
  destruct (ParseDM_ok_reads raw l Hok) as (x & c & Hnum & Hlast).
  assert (Hlat : (MaxLat <= MaxLong)%Q) by (unfold MaxLat, MaxLong; lra).
  destruct x as [dm | | negative].
  - rewrite (ParseDM_eval raw dm c Hlen Hnum Hlast) in Hok.
    destruct (bound_of c) as [b |] eqn:Eb; [| discriminate Hok].
    destruct (fgt _ b) eqn:E; [discriminate Hok |]. injection Hok as <-.
    apply fgt_false_iff in E. cbn [within]. rewrite Qabs_signed_by.
    destruct (bound_of_cases c b Eb) as [[_ ->] | [_ ->]]; lra.
  - rewrite (ParseDM_not_finite raw NaN c Hlen Hnum ltac:(discriminate) Hlast) in Hok.
    destruct (bound_of c); [injection Hok as <-; exact I | discriminate Hok].
  - rewrite (ParseDM_not_finite raw (Inf negative) c Hlen Hnum ltac:(discriminate) Hlast)
      in Hok.
    destruct (bound_of c); [injection Hok as <-; exact I | discriminate Hok].
Qed.

Lemma parse_coordinate_bound {rt : GoRuntime}
    (pair : list string) (wrap : error -> error) (current l : LatLong.t) :
  parse_coordinate pair wrap current = Ok l ->
  within current MaxLong -> within l MaxLong.
Proof.
  unfold parse_coordinate. destruct (len _ >? 0).
  - unfold NewLatLong. destruct (TrimSpace _ =? "")%string; [discriminate |].
    destruct (ParseDM _) as [l' | e | w] eqn:E; cbn [onErr]; try discriminate.
    intro H. injection H as <-. intros _. exact (ParseDM_bound _ _ E).
  - intro H. now injection H as <-.
Qed.

(** A GLL frame whose latitude pair is "NaN", "N" is parsed, and the
    latitude of the sentence is NaN. *)
Lemma GPGLL_NaN_latitude :
  exists s,
    GPGLL.parse
      (GPGLL.NewGPGLL
         (mkMessage "GPGLL" ["NaN"; "N"; "12123.2348"; "E"; "041139.000"; "A"; "A"] ""))
    = Ok s
    /\ GPGLL.Latitude s = NaN.
Proof. eexists. split; [vm_compute; reflexivity | reflexivity]. Qed.

(** X22. The coordinates of a sentence that [parse] returns.  In a GLL,
    GGA or RMC sentence built from a frame, the latitude and the longitude
    are each NaN (when the number of the pair is NaN or an infinity) or a
    finite number of magnitude at most 180. *)
Theorem parsed_coordinates_bounded (rt : GoRuntime) (pkg : Package) (m : Message) :
  (forall s, GPGLL.parse (GPGLL.NewGPGLL m) = Ok s ->
     within (GPGLL.Latitude s) MaxLong /\ within (GPGLL.Longitude s) MaxLong)
  /\ (forall s, GPGGA.parse (GPGGA.NewGPGGA m) = Ok s ->
        within (GPGGA.Latitude s) MaxLong /\ within (GPGGA.Longitude s) MaxLong)
  /\ (forall s, GPRMC.parse (GPRMC.NewGPRMC m) = Ok s ->
        within (GPRMC.Latitude s) MaxLong /\ within (GPRMC.Longitude s) MaxLong).
Proof.
  assert (Hzero : within (Finite 0) MaxLong) by (vm_compute; discriminate).
  split; [| split]; intros s Hok.
  - unfold GPGLL.parse in Hok.
    cbn [GPGLL.message GPGLL.NewGPGLL GPGLL.Latitude GPGLL.Longitude] in Hok.
    destruct (Nat.eqb_spec (length (Fields m)) 7) as [Hlen | Hlen];
      cbn [negb] in Hok; [| discriminate Hok].
    destruct (fields_7 _ Hlen) as (f0 & f1 & f2 & f3 & f4 & f5 & f6 & Hfields).
    rewrite Hfields in *. cbn [index nth_error] in Hok.
    repeat ok_step Hok.
    injection Hok as <-. cbn [GPGLL.Latitude GPGLL.Longitude].
    split; eapply parse_coordinate_bound; eassumption.
  - unfold GPGGA.parse in Hok.
    cbn [GPGGA.message GPGGA.NewGPGGA GPGGA.Latitude GPGGA.Longitude] in Hok.
    destruct (Nat.eqb_spec (length (Fields m)) 14) as [Hlen | Hlen];
      cbn [negb] in Hok; [| discriminate Hok].
    destruct (fields_14 _ Hlen)
      as (f0 & f1 & f2 & f3 & f4 & f5 & f6 & f7 & f8 & f9 & f10 & f11 & f12 & f13 & Hfields).
    rewrite Hfields in *. cbn [index nth_error] in Hok.
    repeat ok_step Hok.
    injection Hok as <-. cbn [GPGGA.Latitude GPGGA.Longitude].
    split; eapply parse_coordinate_bound; eassumption.
  - unfold GPRMC.parse in Hok.
    cbn [GPRMC.message GPRMC.NewGPRMC GPRMC.Latitude GPRMC.Longitude] in Hok.
    destruct (Nat.eqb_spec (length (Fields m)) 12) as [Hlen | Hlen];
      cbn [negb] in Hok; [| discriminate Hok].
    destruct (fields_12 _ Hlen)
      as (f0 & f1 & f2 & f3 & f4 & f5 & f6 & f7 & f8 & f9 & f10 & f11 & Hfields).
    rewrite Hfields in *. cbn [index nth_error] in Hok.
    repeat ok_step Hok.
    injection Hok as <-. cbn [GPRMC.Latitude GPRMC.Longitude].
    split; eapply parse_coordinate_bound; eassumption.
Qed.

Lemma checked_failed {A : Type} (r : A * option error) (wrap : error -> error) (a : A) :
  snd r <> None -> onErr (checked r) wrap <> Ok a.
Proof.
  destruct r as [v [e |]]; cbn [checked fst snd onErr]; intro H;
    [discriminate | now destruct H].
Qed.

(** X23. The numbers that [parse] cannot do without ([strconv.ParseFloat]
    refusing the empty string).  A VTG sentence is built only from a frame
    whose course and two speeds (fields 0, 4, 6) are not empty, and an RMC
    sentence only from one whose speed and course (fields 6, 7) are not
    empty. *)
Theorem required_numbers (rt : GoRuntime) (pkg : Package) :
  snd (ParseFloat "") <> None ->
  (forall m s, GPVTG.parse m = Ok s ->
     let f := fun i => nth i (Fields (GPVTG.message m)) "" in
     f 0%nat <> "" /\ f 4%nat <> "" /\ f 6%nat <> "")
  /\ (forall m s, GPRMC.parse m = Ok s ->
        let f := fun i => nth i (Fields (GPRMC.message m)) "" in
        f 6%nat <> "" /\ f 7%nat <> "").
Proof.
  intro Hempty. split; intros m s Hok; cbv zeta.
  - unfold GPVTG.parse in Hok.
    destruct (Nat.eqb_spec (length (Fields (GPVTG.message m))) 9) as [Hlen | Hlen];
      cbn [negb] in Hok; [| discriminate Hok].
    destruct (fields_9 _ Hlen) as (f0 & f1 & f2 & f3 & f4 & f5 & f6 & f7 & f8 & Hfields).
    rewrite Hfields in *. cbn [index nth_error nth] in *.
    repeat ok_step Hok.
    repeat match goal with
           | H : Ok _ = Ok _ |- _ => injection H as <-
           end.
    repeat split; intro Hf; subst;
      match goal with
      | H : onErr (checked (ParseFloat "")) _ = Ok _ |- _ =>
          exact (checked_failed _ _ _ Hempty H)
      end.
  - unfold GPRMC.parse in Hok.
    destruct (Nat.eqb_spec (length (Fields (GPRMC.message m))) 12) as [Hlen | Hlen];
      cbn [negb] in Hok; [| discriminate Hok].
    destruct (fields_12 _ Hlen)
      as (f0 & f1 & f2 & f3 & f4 & f5 & f6 & f7 & f8 & f9 & f10 & f11 & Hfields).
    rewrite Hfields in *. cbn [index nth_error nth] in *.
    repeat ok_step Hok.
    repeat match goal with
           | H : Ok _ = Ok _ |- _ => injection H as <-
           end.
    repeat split; intro Hf; subst;
      match goal with
      | H : onErr (checked (ParseFloat "")) _ = Ok _ |- _ =>
          exact (checked_failed _ _ _ Hempty H)
      end.
Qed.

Lemma required_numbers_witness :
  snd (ParseFloat "") <> None
  /\ forall s,
       GPVTG.parse
         (GPVTG.NewGPVTG (mkMessage "GPVTG" [""; "T"; ""; "M"; ""; "N"; ""; "K"; "N"] "2C"))
       <> Ok s.
Proof.
  assert (Hempty : snd (ParseFloat "") <> None) by (vm_compute; discriminate).
  split; [exact Hempty |].
  intros s Hok.
  destruct (proj1 (required_numbers goRuntime package Hempty) _ _ Hok) as [H0 _].
  now apply H0.
Defined.

(** ** The round trip of a negative coordinate *)

Lemma signed_by_wd (c : ascii) (u v : Q) : (u == v)%Q -> (signed_by c u == signed_by c v)%Q.
Proof. intro H. unfold signed_by. destruct (_ || _)%bool; [exact H | now rewrite H]. Qed.

(** What [ParseDM] reads from [ToDM] of a positive coordinate on the grid,
    a space and a cardinal letter. *)
Lemma ParseDM_ToDM_on_grid (d k : Z) (x : ascii) (b : Q) :
  0 <= d -> 0 <= k < 60000000 -> 0 < d + k ->
  bound_of x = Some b -> (on_grid d k <= b)%Q ->
  exists back : Q,
    ParseDM (LatLong.ToDM (on_grid d k) ++ " " ++ String x EmptyString) = Ok (Finite back)
    /\ (back == signed_by x (on_grid d k))%Q.
Proof.
  intros Hd Hk Hpos Hb Hrange.
  assert (Hgt : (0 < on_grid d k)%Q).
  { unfold on_grid, Qlt. cbn. lia. }
  destruct (ToDM_on_grid d k Hd Hk Hpos) as (i & f & HT & Hi & Hf & Hlen & Hvi & Hvf).
  destruct (ParseFloat_trimmed i f _ _ Hi Hf Hlen Hvi Hvf) as (dm & Hnum & Hplain & Hdm).
  { pose proof (Z.div_mod k 1000000 ltac:(lia)).
    pose proof (Z.mod_pos_bound k 1000000 ltac:(lia)).
    assert (0 <= k / 1000000) by (apply Z.div_pos; lia). lia. }
  rewrite <- HT in Hnum, Hplain.
  destruct (raw_parts (LatLong.ToDM (on_grid d k)) x) as (Hlen2 & Hslice & Hlast).
  assert (Hdeg : (degrees dm == on_grid d k)%Q).
  { apply degrees_on_grid; [exact Hk |].
    rewrite Hdm.
    assert (Hk' : (k # 1000000 == inject_Z (k / 1000000) + (k mod 1000000 # 1000000))%Q).
    { unfold Qeq. cbn. pose proof (Z.div_mod k 1000000 ltac:(lia)). lia. }
    rewrite Hk', !inject_Z_plus. ring. }
  exists (signed_by x (degrees dm)).
  split; [| now apply signed_by_wd].
  rewrite (ParseDM_eval (rt := goRuntime) _ dm x Hlen2).
  - rewrite Hb.
    assert (Hin : fgt (Qabs (degrees dm)) b = false).
    { apply fgt_false_iff. rewrite Hdeg.
      rewrite Qabs_pos by lra. exact Hrange. }
    now rewrite Hin.
  - rewrite Hslice. cbn [TrimSpace ParseFloat goRuntime].
    rewrite (TrimSpace_plain _ Hplain). exact Hnum.
  - exact Hlast.
Qed.

(** [LatLong.DM] of a negative coordinate on the grid. *)
Lemma DM_negative_on_grid (d k : Z) :
  0 <= d -> 0 <= k < 60000000 -> 0 < d + k ->
  exists m : Q,
    LatLong.DM (- on_grid d k)%Q = (- d, Finite m) /\ (m == k # 1000000)%Q.
Proof.
  intros Hd Hk Hpos.
  assert (Hgt : (0 < on_grid d k)%Q).
  { unfold on_grid, Qlt. cbn. lia. }
  destruct (grid_fraction k Hk) as [H0 H1].
  assert (Hceil : Qceiling (- on_grid d k)%Q = - d).
  { unfold Qceiling. f_equal. apply Qfloor_unique; unfold on_grid; lra. }
  rewrite (proj2 (DM_cases (- on_grid d k)%Q) ltac:(lra)), Hceil.
  eexists. split; [reflexivity |].
  assert (Hd' : (0 <= inject_Z d)%Q)
    by (change 0%Q with (inject_Z 0); now rewrite <- Zle_Qle).
  rewrite (Qabs_neg (- on_grid d k)%Q) by lra.
  rewrite inject_Z_opp, (Qabs_neg (- inject_Z d)) by lra.
  rewrite <- (minutes_on_grid d k). ring.
Qed.

Lemma feq_negative_on_grid (d k : Z) :
  0 <= d -> 0 <= k -> 0 < d + k -> feq (- on_grid d k)%Q 0 = false.
Proof.
  intros Hd Hk Hpos. apply feq_false_iff. unfold on_grid, Qeq. cbn. lia.
Qed.

Lemma CardinalPoint_negative (l : Q) (isLatitude : bool) :
  (l < 0)%Q ->
  LatLong.CardinalPoint l isLatitude
  = String (if isLatitude then "S" else "W")%char EmptyString.
Proof.
  intro Hl. unfold LatLong.CardinalPoint. cbn [f64.eq f64.lt].
  rewrite (proj2 (feq_false_iff l 0)) by lra.
  rewrite (proj2 (flt_true_iff l 0) Hl). now destruct isLatitude.
Qed.

(** X24. A negative coordinate above -1, on the grid of the wire (whole
    millionths of a minute), does make the round trip: [LatLong.DM] rounds
    its degrees to 0, which carries no sign, so [ToDM] writes what it writes
    for the magnitude, the cardinal point is S or W, and [ParseDM] gives the
    coordinate back. *)
Theorem roundtrip_above_minus_one (k : Z) (isLatitude : bool) :
  0 < k < 60000000 ->
  let l := (- on_grid 0 k)%Q in
  LatLong.ToDM l = LatLong.ToDM (on_grid 0 k)
  /\ LatLong.CardinalPoint l isLatitude = (if isLatitude then South else West)
  /\ exists back : Q,
       ParseDM (LatLong.ToDM l ++ " " ++ LatLong.CardinalPoint l isLatitude)
       = Ok (Finite back)
       /\ (back == l)%Q.
Proof.
  intros Hk. cbv zeta.
  assert (Hk' : 0 <= k < 60000000) by lia.
  assert (Hsame : LatLong.ToDM (- on_grid 0 k)%Q = LatLong.ToDM (on_grid 0 k)).
  { unfold LatLong.ToDM. cbn [f64.eq].
    rewrite (feq_negative_on_grid 0 k) by lia.
    assert (Hne : feq (on_grid 0 k) 0 = false).
    { apply feq_false_iff. unfold on_grid, Qeq. cbn. lia. }
    rewrite Hne.
    destruct (DM_negative_on_grid 0 k ltac:(lia) Hk' ltac:(lia)) as [m [-> Hm]].
    rewrite (DM_on_grid 0 k ltac:(lia) Hk').
    change (- 0) with 0.
    rewrite (Sprintf_minutes m k (proj1 Hk') Hm).
    now rewrite (Sprintf_minutes _ k (proj1 Hk') (minutes_on_grid 0 k)). }
  split; [exact Hsame |].
  assert (Hneg : (- on_grid 0 k < 0)%Q).
  { unfold on_grid, Qlt. cbn. lia. }
  rewrite Hsame, (CardinalPoint_negative _ isLatitude Hneg).
  split; [now destruct isLatitude |].
  set (x := (if isLatitude then "S" else "W")%char).
  destruct (ParseDM_ToDM_on_grid 0 k x (if isLatitude then MaxLat else MaxLong))
    as [back [Hok Hback]]; try lia.
  - subst x. now destruct isLatitude.
  - destruct (grid_fraction k Hk') as [_ H1].
    unfold on_grid, MaxLat, MaxLong. change (inject_Z 0) with 0%Q.
    destruct isLatitude; lra.
  - exists back. split; [exact Hok |].
    rewrite Hback. subst x. unfold signed_by. destruct isLatitude; cbn; ring.
Qed.

Lemma roundtrip_above_minus_one_witness :
  0 < 30000000 < 60000000
  /\ LatLong.ToDM (- on_grid 0 30000000)%Q = "30."
  /\ exists back : Q,
       ParseDM (LatLong.ToDM (- on_grid 0 30000000)%Q ++ " "
                ++ LatLong.CardinalPoint (- on_grid 0 30000000)%Q true) = Ok (Finite back)
       /\ (back == - (1 # 2))%Q.
Proof.
  split; [lia |].
  destruct (roundtrip_above_minus_one 30000000 true ltac:(lia))
    as [Hsame [_ [back [Hok Hback]]]].
  split; [vm_compute; reflexivity |].
  exists back. split; [exact Hok |].
  rewrite Hback. reflexivity.
Defined.

(** *** At -1 and below *)

Lemma TrimSpace_minus_plain (s : string) :
  plain s = true -> Runtime.TrimSpace (String "-" s) = String "-" s.
Proof.
  intro H. unfold Runtime.TrimSpace, strings.Trim.
  change (strings.TrimLeft (String "-" s) Runtime.ascii_space) with (String "-" s).
  cbn [strings.TrimRight]. rewrite (TrimRight_plain s H).
  now destruct s.
Qed.

(** [ToDM] of a coordinate at -1 or below, on the grid: a minus sign, the
    digits of the degrees and of the whole minutes, a point, and the digits
    of the fraction. *)
Lemma ToDM_negative_on_grid (d k : Z) :
  1 <= d -> 0 <= k < 60000000 ->
  exists i f,
    LatLong.ToDM (- on_grid d k)%Q = String "-" (i ++ String "." f)
    /\ all_digits i = true /\ all_digits f = true
    /\ 1 <= len i /\ len f <= 6
    /\ dec_value i 0 = 100 * d + k / 1000000
    /\ dec_value f 0 * 10 ^ (6 - len f) = k mod 1000000.
Proof.
  intros Hd Hk.
  assert (Hmi : 0 <= k / 1000000 < 100).
  { split; [apply Z.div_pos; lia | apply Z.div_lt_upper_bound; lia]. }
  assert (Hmf : 0 <= k mod 1000000 < 1000000) by (apply Z.mod_pos_bound; lia).
  destruct (utoa_digits d ltac:(lia)) as [Dall Dval].
  destruct (utoa_spec (k / 1000000) 2 ltac:(lia) ltac:(lia) ltac:(cbn; lia))
    as [Mall [Mlen Mval]].
  destruct (utoa_spec (k mod 1000000) 6 ltac:(lia) ltac:(lia) ltac:(cbn; lia))
    as [Fall [Flen Fval]].
  destruct (zero_pad_spec 6 (strconv.utoa (k mod 1000000)) Fall) as [PFall [PFlen PFval]].
  set (F := fmt.zero_pad 6 false (strconv.utoa (k mod 1000000))) in *.
  assert (HlenF : len F = 6) by lia.
  destruct (TrimRight_digits F PFall) as [TFall [TFlen TFval]]. cbv zeta in *.
  set (z := Z.to_nat (9 - len "" - len (strconv.utoa (k / 1000000) ++ "." ++ F))).
  assert (Hz : Z.of_nat z + len (strconv.utoa (k / 1000000)) = 2).
  { subst z. rewrite len_app. change (len "") with 0.
    replace (len ("." ++ F)) with (len F + 1)
      by (unfold len; cbn [append String.length]; lia).
    lia. }
  set (a := Z.to_nat (2 - len "-" - len (strconv.utoa d))).
  exists ((fmt.zeros a ++ strconv.utoa d) ++ fmt.zeros z ++ strconv.utoa (k / 1000000)),
         (strings.TrimRight F "0").
  split.
  { unfold LatLong.ToDM. cbn [f64.eq].
    rewrite (feq_negative_on_grid d k) by lia.
    destruct (DM_negative_on_grid d k ltac:(lia) Hk ltac:(lia)) as [m [-> Hm]].
    rewrite (Sprintf_minutes m k (proj1 Hk) Hm). fold F.
    unfold fmt.Sprintf_0d.
    replace (- d <? 0) with true by (symmetry; apply Z.ltb_lt; lia).
    replace (Z.abs (- d)) with d by lia.
    unfold fmt.zero_pad at 1 2. fold a. fold z. cbn [append].
    unfold strings.Trim.
    change (strings.TrimLeft (String "-" ?s) "0") with (String "-" s).
    replace (String "-" ((fmt.zeros a ++ strconv.utoa d)
                         ++ fmt.zeros z ++ strconv.utoa (k / 1000000) ++ String "." F))
      with (String "-" ((fmt.zeros a ++ strconv.utoa d)
                        ++ fmt.zeros z ++ strconv.utoa (k / 1000000)) ++ String "." F)
      by (cbn [append]; now rewrite !append_assoc).
    rewrite TrimRight_point. reflexivity. }
  split.
  { now rewrite !all_digits_app, all_digits_zeros, Dall, all_digits_zeros, Mall. }
  split; [exact TFall |].
  split.
  { rewrite !len_app. pose proof (len_nonneg (fmt.zeros a)).
    pose proof (len_nonneg (fmt.zeros z)). pose proof (len_nonneg (strconv.utoa d)).
    destruct (utoa_spec d (S (Z.to_nat (Z.log2 d))) ltac:(lia) ltac:(lia)
                (lt_pow10_log2 d ltac:(lia))) as [_ [Hl _]].
    lia. }
  split; [lia |].
  split.
  - rewrite dec_value_app.
    rewrite (dec_value_app (fmt.zeros a)), dec_value_zeros, Dval.
    rewrite dec_value_shift, len_app, len_zeros, Hz.
    rewrite dec_value_app, dec_value_zeros, Mval. lia.
  - rewrite HlenF in TFval. rewrite TFval, PFval, Fval. reflexivity.
Qed.

(** The number [ParseFloat] reads from [ToDM] of a coordinate at -1 or
    below. *)
Lemma ParseFloat_ToDM_negative (d k : Z) :
  1 <= d -> 0 <= k < 60000000 ->
  exists dm : Q,
    Runtime.ParseFloat (Runtime.TrimSpace (LatLong.ToDM (- on_grid d k)%Q))
    = (Finite dm, None)
    /\ (dm == - (inject_Z (100 * d) + (k # 1000000)))%Q.
Proof.
  intros Hd Hk.
  destruct (ToDM_negative_on_grid d k Hd Hk)
    as (i & f & -> & Hi & Hf & Hli & Hlf & Hvi & Hvf).
  rewrite TrimSpace_minus_plain
    by (rewrite plain_app; cbn [plain];
        now rewrite (plain_digits i Hi), (plain_digits f Hf)).
  pose proof (len_nonneg f) as Hn.
  rewrite (ParseFloat_minus_point i f Hi Hf) by lia.
  eexists. split; [reflexivity |].
  rewrite Qred_correct. rewrite dec_value_shift, Hvi.
  assert (Hp : 0 < 10 ^ len f) by (apply Z.pow_pos_nonneg; lia).
  assert (H6 : 1000000 = 10 ^ len f * 10 ^ (6 - len f)).
  { rewrite <- Z.pow_add_r by lia. replace (len f + (6 - len f)) with 6 by lia.
    reflexivity. }
  pose proof (Z.div_mod k 1000000 ltac:(lia)) as Hdiv.
  set (P := 10 ^ len f) in *. set (R := 10 ^ (6 - len f)) in *.
  set (vf := dec_value f 0) in *. set (q := k / 1000000) in *.
  assert (Hrhs : (- (inject_Z (100 * d) + (k # 1000000))
                  == (- (100 * d * 1000000 + k)) # 1000000)%Q).
  { unfold Qeq. cbn [Qnum Qden Qplus Qopp inject_Z]. lia. }
  rewrite Hrhs. unfold Qeq. cbn [Qnum Qden].
  rewrite Z2Pos.id by exact Hp.
  change (Z.pos 1000000) with 1000000.
  rewrite Hdiv, <- Hvf. rewrite H6. ring.
Qed.

(** The degrees [ParseDM] computes from that number. *)
Lemma degrees_negative (dm : Q) (d k : Z) :
  1 <= d -> 0 <= k < 60000000 ->
  (dm == - (inject_Z (100 * d) + (k # 1000000)))%Q ->
  (degrees dm == - (on_grid d k - (if k =? 0 then 0 else 2 # 3)))%Q.
Proof.
  intros Hd Hk Hdm.
  assert (Hrel : (k # 1000000 == 60 * (k # 60000000))%Q)
    by (unfold Qeq, Qmult; cbn [Qnum Qden]; lia).
  destruct (grid_fraction k Hk) as [H0 H1].
  rewrite inject_Z_mult in Hdm. change (inject_Z 100) with 100%Q in Hdm.
  unfold degrees, on_grid.
  destruct (Z.eqb_spec k 0) as [-> | Hne].
  - assert (Hfloor : Qfloor (dm / 100) = - d).
    { apply Qfloor_unique; rewrite inject_Z_opp; by_constants; lra. }
    rewrite Hfloor, inject_Z_opp. by_constants. lra.
  - assert (Hpos : (0 < k # 60000000)%Q) by (unfold Qlt; cbn [Qnum Qden]; lia).
    assert (Hfloor : Qfloor (dm / 100) = - d - 1).
    { apply Qfloor_unique;
        replace (- d - 1) with (- d + - 1) by lia;
        rewrite inject_Z_plus, inject_Z_opp;
        change (inject_Z (- 1)) with (- (1))%Q; by_constants; lra. }
    rewrite Hfloor.
    replace (- d - 1) with (- d + - 1) by lia.
    rewrite inject_Z_plus, inject_Z_opp.
    change (inject_Z (- 1)) with (- (1))%Q. by_constants. lra.
Qed.

(** X25. A coordinate at -1 or below never makes the round trip.  On the
    grid of the wire and within the range of its axis, [ToDM] writes it
    with a minus sign, the cardinal point is S or W, and [ParseDM] reads
    the two back as a positive number: the magnitude, when the minutes are
    0, and 40 minutes less than the magnitude otherwise (the floor of the
    negative number is one degree too low, and the letter negates once
    more). *)
Theorem roundtrip_sign_lost (d k : Z) (isLatitude : bool) :
  1 <= d -> 0 <= k < 60000000 ->
  (on_grid d k <= (if isLatitude then MaxLat else MaxLong))%Q ->
  let l := (- on_grid d k)%Q in
  (exists rest, LatLong.ToDM l = String "-" rest)
  /\ LatLong.CardinalPoint l isLatitude = (if isLatitude then South else West)
  /\ exists back : Q,
       ParseDM (LatLong.ToDM l ++ " " ++ LatLong.CardinalPoint l isLatitude)
       = Ok (Finite back)
       /\ (0 < back)%Q
       /\ (back == on_grid d k - (if k =? 0 then 0 else 2 # 3))%Q
       /\ ~ (back == l)%Q.
Proof.
  intros Hd Hk Hrange. cbv zeta.
  split.
  { destruct (ToDM_negative_on_grid d k Hd Hk) as (i & f & HT & _).
    now exists (i ++ String "." f). }
  assert (Hgrid : (1 <= on_grid d k)%Q).
  { destruct (grid_fraction k Hk) as [H0 _].
    assert (H1 : (inject_Z 1 <= inject_Z d)%Q) by (now rewrite <- Zle_Qle).
    change (inject_Z 1) with 1%Q in H1. unfold on_grid. lra. }
  rewrite (CardinalPoint_negative _ isLatitude) by lra.
  split; [now destruct isLatitude |].
  set (x := (if isLatitude then "S" else "W")%char).
  destruct (ParseFloat_ToDM_negative d k Hd Hk) as (dm & Hnum & Hdm).
  pose proof (degrees_negative dm d k Hd Hk Hdm) as Hdeg.
  destruct (raw_parts (LatLong.ToDM (- on_grid d k)%Q) x) as (Hlen2 & Hslice & Hlast).
  assert (Hshift : ((if k =? 0 then 0 else 2 # 3) <= 2 # 3)%Q)
    by (destruct (k =? 0); [discriminate | apply Qle_refl]).
  assert (Hshift0 : (0 <= (if k =? 0 then 0 else 2 # 3))%Q)
    by (destruct (k =? 0); discriminate).
  set (shift := if k =? 0 then 0%Q else (2 # 3)%Q) in *.
  exists (0 - degrees dm)%Q.
  split.
  - rewrite (ParseDM_eval (rt := goRuntime) _ dm x Hlen2).
    + assert (Hb : bound_of x = Some (if isLatitude then MaxLat else MaxLong))
        by (subst x; now destruct isLatitude).
      rewrite Hb.
      assert (Hin : fgt (Qabs (degrees dm)) (if isLatitude then MaxLat else MaxLong)
                    = false).
      { apply fgt_false_iff.
        rewrite Qabs_neg by (rewrite Hdeg; lra).
        rewrite Hdeg. lra. }
      rewrite Hin. subst x. now destruct isLatitude.
    + rewrite Hslice. exact Hnum.
    + exact Hlast.
  - rewrite Hdeg. split; [lra |]. split; [lra |]. intro H. lra.
Qed.

Lemma roundtrip_sign_lost_witness :
  (on_grid 31 30000000 <= MaxLat)%Q
  /\ LatLong.ToDM (- on_grid 31 30000000)%Q = "-3130."
  /\ exists back : Q,
       ParseDM (LatLong.ToDM (- on_grid 31 30000000)%Q ++ " "
                ++ LatLong.CardinalPoint (- on_grid 31 30000000)%Q true) = Ok (Finite back)
       /\ (back == 185 # 6)%Q.
Proof.
  assert (Hrange : (on_grid 31 30000000 <= MaxLat)%Q) by (vm_compute; discriminate).
  split; [exact Hrange |]. split; [vm_compute; reflexivity |].
  destruct (roundtrip_sign_lost 31 30000000 true ltac:(lia) ltac:(lia) Hrange)
    as (_ & _ & back & Hok & _ & Hback & _).
  exists back. split; [exact Hok |].
  rewrite Hback. reflexivity.
Defined.

(** The positive coordinate of the documented sentence, 31 degrees 10.2908
    minutes north, makes the round trip. *)
Lemma roundtrip_on_grid_witness :
  (on_grid 31 10290800 <= MaxLat)%Q
  /\ LatLong.ToDM (on_grid 31 10290800) = "3110.2908"
  /\ exists back : Q,
       ParseDM (LatLong.ToDM (on_grid 31 10290800) ++ " "
                ++ LatLong.CardinalPoint (on_grid 31 10290800) true) = Ok (Finite back)
       /\ (back == 31 + (102908 # 600000))%Q.
Proof.
  assert (Hrange : (on_grid 31 10290800 <= MaxLat)%Q) by (vm_compute; discriminate).
  split; [exact Hrange |]. split; [vm_compute; reflexivity |].
  destruct (roundtrip_on_grid 31 10290800 true ltac:(lia) ltac:(lia) ltac:(lia) Hrange)
    as (back & Hok & Hback).
  exists back. split; [exact Hok |].
  rewrite Hback. reflexivity.
Defined.
